(** * SAP-1 two-pass assembler: a shallow embedding of
      [sap1_instruction_compiler.py] and the properties of its pipeline.

    Text is modelled as [string] (one [ascii] per character): the model
    covers ASCII source text.  Characters above 127 are carried through
    unchanged; they are neither white space, digits nor letters here.
    Python integers are unbounded, so they are [Z]; [&], [|] and [<<] are
    [Z.land], [Z.lor] and [Z.shiftl], which agree with Python on negative
    numbers as well.  The dictionaries [ISA] and [labels] are [gmap]s. *)

From Stdlib Require Import ZArith Ascii Bool Lia.
From stdpp Require Import base option list strings gmap.

Local Open Scope Z_scope.

(** ** Characters *)

Module Char.

Definition code (c : ascii) : Z := Z.of_N (N_of_ascii c).

Definition between (lo hi : Z) (c : ascii) : bool :=
  (lo <=? code c) && (code c <=? hi).

(** [str.isspace] on one ASCII character: TAB, LF, VT, FF, CR, the four
    separators FS, GS, RS, US and the space.  This is the set removed by
    [str.strip()], split on by [str.split()] and skipped by [int()]. *)
Definition isspace (c : ascii) : bool :=
  between 9 13 c || between 28 32 c.

(** The ASCII line boundaries of [str.splitlines()]:
    LF, VT, FF, CR, FS, GS, RS. *)
Definition islinebreak (c : ascii) : bool :=
  between 10 13 c || between 28 30 c.

Definition lower (c : ascii) : ascii :=
  if between 65 90 c then ascii_of_N (Z.to_N (code c + 32)) else c.

Definition upper (c : ascii) : ascii :=
  if between 97 122 c then ascii_of_N (Z.to_N (code c - 32)) else c.

(** The digit table of [int()]: ['0'..'9'] are 0..9, letters of either
    case are 10..35, everything else is 37 (no digit in any base). *)
Definition digit_value (c : ascii) : Z :=
  if between 48 57 c then code c - 48
  else if between 97 122 c then code c - 87
  else if between 65 90 c then code c - 55
  else 37.

Definition is_bit (c : ascii) : bool :=
  Ascii.eqb c "0" || Ascii.eqb c "1".

End Char.

(** ** The string methods the assembler calls *)

Module Str.

Fixpoint map (f : ascii -> ascii) (s : string) : string :=
  match s with
  | EmptyString => EmptyString
  | String c r => String (f c) (map f r)
  end.

Fixpoint all (p : ascii -> bool) (s : string) : bool :=
  match s with
  | EmptyString => true
  | String c r => p c && all p r
  end.

Definition is_empty (s : string) : bool :=
  match s with EmptyString => true | String _ _ => false end.

(** [s.lower()] and [s.upper()] *)
Definition lower : string -> string := map Char.lower.
Definition upper : string -> string := map Char.upper.

(** [s.startswith(p)] *)
Definition startswith (p s : string) : bool := String.prefix p s.

Fixpoint lstrip (s : string) : string :=
  match s with
  | EmptyString => EmptyString
  | String c r => if Char.isspace c then lstrip r else s
  end.

Fixpoint rstrip (s : string) : string :=
  match s with
  | EmptyString => EmptyString
  | String c r =>
      match rstrip r with
      | EmptyString => if Char.isspace c then EmptyString else String c EmptyString
      | r' => String c r'
      end
  end.

(** [s.strip()] *)
Definition strip (s : string) : string := rstrip (lstrip s).

(** [sep in s] for a one-character [sep] *)
Fixpoint contains (sep : ascii) (s : string) : bool :=
  match s with
  | EmptyString => false
  | String c r => Ascii.eqb c sep || contains sep r
  end.

(** [s.split(sep)[0]]: the text before the first [sep], all of [s] when
    there is none. *)
Fixpoint before (sep : ascii) (s : string) : string :=
  match s with
  | EmptyString => EmptyString
  | String c r => if Ascii.eqb c sep then EmptyString else String c (before sep r)
  end.

(** [s.split(sep, 1)[1]] when [sep in s]: the text after the first [sep]. *)
Fixpoint after (sep : ascii) (s : string) : string :=
  match s with
  | EmptyString => EmptyString
  | String c r => if Ascii.eqb c sep then r else after sep r
  end.

(** [s.replace(",", " ")] *)
Definition replace_char (old new : ascii) : string -> string :=
  map (fun c => if Ascii.eqb c old then new else c).

Definition snoc (s : string) (c : ascii) : string := s +:+ String c EmptyString.

(** [s.split()]: the maximal runs of characters that are not white space.
    [cur] is the run being read. *)
Fixpoint split_go (cur s : string) : list string :=
  match s with
  | EmptyString => if is_empty cur then [] else [cur]
  | String c r =>
      if Char.isspace c
      then (if is_empty cur then split_go EmptyString r
            else cur :: split_go EmptyString r)
      else split_go (snoc cur c) r
  end.

Definition split (s : string) : list string := split_go EmptyString s.

(** [s.splitlines()]: a line ends at each line boundary, CR LF counting as
    one; no empty last line is produced. *)
Fixpoint splitlines_go (cur s : string) : list string :=
  match s with
  | EmptyString => if is_empty cur then [] else [cur]
  | String c r =>
      if Char.islinebreak c then
        match r with
        | String c' r' =>
            if Ascii.eqb c "013" && Ascii.eqb c' "010"
            then cur :: splitlines_go EmptyString r'
            else cur :: splitlines_go EmptyString r
        | EmptyString => cur :: splitlines_go EmptyString r
        end
      else splitlines_go (snoc cur c) r
  end.

Definition splitlines (s : string) : list string := splitlines_go EmptyString s.

End Str.

(** ** Failures

    The source raises [ValueError] with four different messages, and two
    subscripts ([toks[0]], [toks[1]], [args[0]]) can raise [IndexError]. *)

Inductive error : Type :=
  | DuplicateLabel (name : string)          (* "Duplicate label: ..." *)
  | UnknownInstruction (name : string)      (* "Unknown instruction: ..." *)
  | MissingOperand (name : string) (addr : Z) (* "... needs an operand at address ..." *)
  | InvalidNumericLiteral (tok : string)    (* int(): "invalid literal for int() ..." *)
  | IndexError.                             (* "list index out of range" *)

Inductive result (A : Type) : Type :=
  | Ok (a : A)
  | Err (e : error).
Arguments Ok {A} a.
Arguments Err {A} e.

(** Failure propagates like a raised exception: the first one ends the run. *)
Global Instance result_ret : MRet result := fun A a => Ok a.
Global Instance result_bind : MBind result := fun A B k r =>
  match r with
  | Ok a => k a
  | Err e => Err e
  end.

Definition is_ok {A : Type} (r : result A) : bool :=
  match r with Ok _ => true | Err _ => false end.

(** ** The builtin [int(text, base)] for base 2, 10 and 16 *)

Module PyInt.

(** The digits after sign and prefix: every character is a digit of the
    base or an underscore, no two underscores are adjacent and the last
    character is no underscore.  [prev_us] tells whether the previous
    character was an underscore; [acc] is the value read so far. *)
Fixpoint scan (base : Z) (prev_us : bool) (acc : Z) (s : string) : option Z :=
  match s with
  | EmptyString => if prev_us then None else Some acc
  | String c r =>
      if Ascii.eqb c "_" then
        (if prev_us then None else scan base true acc r)
      else if Char.digit_value c <? base
      then scan base false (acc * base + Char.digit_value c) r
      else None
  end.

(** The letter of the prefix of a base: [0b], [0x]; base 10 has none. *)
Definition prefix_letter (base : Z) (c : ascii) : bool :=
  if base =? 2 then Ascii.eqb c "b" || Ascii.eqb c "B"
  else if base =? 16 then Ascii.eqb c "x" || Ascii.eqb c "X"
  else false.

(** After the sign: an optional prefix of the base, which one underscore
    may follow. *)
Definition skip_prefix (base : Z) (s : string) : string :=
  match s with
  | String c0 (String c1 r) =>
      if Ascii.eqb c0 "0" && prefix_letter base c1 then
        match r with
        | String c2 r' => if Ascii.eqb c2 "_" then r' else r
        | EmptyString => r
        end
      else s
  | _ => s
  end.

(** The white space [int()] skips around an ASCII text: TAB, LF, VT, FF,
    CR and the space (not the separators FS, GS, RS, US). *)
Definition isspace (c : ascii) : bool :=
  Char.between 9 13 c || Ascii.eqb c " ".

Fixpoint lstrip (s : string) : string :=
  match s with
  | EmptyString => EmptyString
  | String c r => if isspace c then lstrip r else s
  end.

Fixpoint rstrip (s : string) : string :=
  match s with
  | EmptyString => EmptyString
  | String c r =>
      match rstrip r with
      | EmptyString => if isspace c then EmptyString else String c EmptyString
      | r' => String c r'
      end
  end.

Definition strip (s : string) : string := rstrip (lstrip s).

(** The number of digits of a digit string: its characters other than
    underscores. *)
Fixpoint digits (s : string) : Z :=
  match s with
  | EmptyString => 0
  | String c r => if Ascii.eqb c "_" then digits r else 1 + digits r
  end.

(** The default of [sys.get_int_max_str_digits()]. *)
Definition max_str_digits : Z := 4300.

(** A base that is a power of two is converted without limit on the number
    of digits. *)
Definition binary_base (base : Z) : bool := Z.land base (base - 1) =? 0.

(** For the other bases a text of more than 640 digits is refused when the
    interpreter's limit [limit] is positive and exceeded. *)
Definition too_long (limit base : Z) (s : string) : bool :=
  negb (binary_base base) && (640 <? digits s) && (0 <? limit)
  && (limit <? digits s).

Definition unsigned_limited (limit base : Z) (s : string) : option Z :=
  match skip_prefix base s with
  | EmptyString => None
  | String c r =>
      if Ascii.eqb c "_" then None
      else if too_long limit base (String c r) then None
      else scan base false 0 (String c r)
  end.

(** [int(s, base)] in an interpreter whose digit limit is [limit]; [None]
    stands for the [ValueError] it raises. *)
Definition int_limited (limit : Z) (s : string) (base : Z) : option Z :=
  match strip s with
  | String c r =>
      if Ascii.eqb c "+" then unsigned_limited limit base r
      else if Ascii.eqb c "-" then Z.opp <$> unsigned_limited limit base r
      else unsigned_limited limit base (String c r)
  | EmptyString => None
  end.

Definition unsigned (base : Z) (s : string) : option Z :=
  unsigned_limited max_str_digits base s.

(** [int(s, base)] with the default digit limit. *)
Definition int (s : string) (base : Z) : option Z :=
  int_limited max_str_digits s base.

End PyInt.

(** [int(tok, base)] as a fallible step of the assembler. *)
Definition int_of (tok : string) (base : Z) : result Z :=
  match PyInt.int tok base with
  | Some v => Ok v
  | None => Err (InvalidNumericLiteral tok)
  end.

(** ** Helper functions of the source *)

(** [re.fullmatch(r"0b[01]+", s) is not None] *)
Definition fullmatch_0b_bits (s : string) : bool :=
  match s with
  | String c0 (String c1 ds) =>
      Ascii.eqb c0 "0" && Ascii.eqb c1 "b" && negb (Str.is_empty ds) && Str.all Char.is_bit ds
  | _ => false
  end.

Definition is_binary_token (s : string) : bool :=
  Str.startswith "0b" (Str.lower s) && fullmatch_0b_bits (Str.lower s).

Definition parse_number (tok : string) : result Z :=
  let tok := Str.strip tok in
  if is_binary_token tok then int_of tok 2
  else if Str.startswith "0x" tok || Str.startswith "0X" tok then int_of tok 16
  else if Str.startswith "0b" (Str.lower tok) then int_of tok 2
  else int_of tok 10.

Definition tokenize (src : string) : list string :=
  filter (fun line => Str.is_empty line = false)
    ((fun raw => Str.strip (Str.before "#" (Str.before ";" raw))) <$> Str.splitlines src).

(** ** The instruction set *)

Definition ISA : gmap string (Z * bool) :=
  list_to_map
    [ ("LDA", (1, true)); ("LDB", (2, true)); ("ADD", (3, false));
      ("SHL_A", (4, false)); ("SHR_A", (5, false)); ("SHL_B", (6, false));
      ("SHR_B", (7, false)); ("JUMP", (8, true)); ("HLT", (9, false)) ].

(** ** Pass 1: label collection and token parsing *)

(** An entry of [out]: the tuple [(op, args, at)]. *)
Definition operation : Type := string * list string * Z.

(** The three variables of the loop of [first_pass]. *)
Record pass1 : Type := Pass1 {
  pc : Z;
  labels : gmap string Z;
  out : list operation
}.

(** [if lab: if lab in labels: raise ...; labels[lab] = pc] *)
Definition define_label (labels : gmap string Z) (lab : string) (pc : Z)
  : result (gmap string Z) :=
  if Str.is_empty lab then Ok labels
  else match labels !! lab with
       | Some _ => Err (DuplicateLabel lab)
       | None => Ok (<[lab := pc]> labels)
       end.

(** The last three lines of the loop body: the statement [line] is split
    into tokens, recorded, and moves the program counter. *)
Definition first_pass_statement (st : pass1) (line : string) : result pass1 :=
  match Str.split (Str.replace_char "," " " line) with
  | [] => Err IndexError                                   (* toks[0] *)
  | t0 :: args =>
      let out' := out st ++ [(Str.upper t0, args, pc st)] in
      if String.eqb (Str.upper t0) "ORG" then
        match args with
        | [] => Err IndexError                             (* toks[1] *)
        | a :: _ =>
            v ← parse_number a;
            Ok (Pass1 (Z.land v 15) (labels st) out')
        end
      else Ok (Pass1 (Z.land (pc st + 1) 15) (labels st) out')
  end.

(** One iteration of the loop of [first_pass]. *)
Definition first_pass_line (st : pass1) (line : string) : result pass1 :=
  if Str.contains ":" line then
    let lab := Str.strip (Str.before ":" line) in
    let line := Str.strip (Str.after ":" line) in
    labels' ← define_label (labels st) lab (pc st);
    if Str.is_empty line
    then Ok (Pass1 (pc st) labels' (out st ++ [("NOPLINE", [], pc st)]))
    else first_pass_statement (Pass1 (pc st) labels' (out st)) line
  else first_pass_statement st line.

Fixpoint first_pass_loop (lines : list string) (st : pass1) : result pass1 :=
  match lines with
  | [] => Ok st
  | line :: rest => st' ← first_pass_line st line; first_pass_loop rest st'
  end.

Definition first_pass (lines : list string)
  : result (gmap string Z * list operation) :=
  st ← first_pass_loop lines (Pass1 0 ∅ []);
  Ok (labels st, out st).

(** ** Pass 2: the assembler core *)

(** [mem[i] = v] on a Python list: indices from [-len] to [len - 1] are
    accepted, negative ones counting from the end; others raise. *)
Definition store (mem : list Z) (i v : Z) : result (list Z) :=
  let n := Z.of_nat (length mem) in
  if (0 <=? i) && (i <? n) then Ok (<[Z.to_nat i := v]> mem)
  else if (- n <=? i) && (i <? 0) then Ok (<[Z.to_nat (n + i) := v]> mem)
  else Err IndexError.

(** [(labels[a] & 0xF) if a in labels else (parse_number(a) & 0xF)] *)
Definition operand_of (labels : gmap string Z) (a : string) : result Z :=
  match labels !! a with
  | Some addr => Ok (Z.land addr 15)
  | None => v ← parse_number a; Ok (Z.land v 15)
  end.

(** One iteration of the loop of [assemble] on the state [(mem, pc)]. *)
Definition assemble_step (labels : gmap string Z) (st : list Z * Z)
    (o : operation) : result (list Z * Z) :=
  let '(mem, pc) := st in
  let '(op, args, at_pc) := o in
  if String.eqb op "NOPLINE" then Ok (mem, at_pc)
  else if String.eqb op "ORG" then
    match args with
    | [] => Err IndexError                                 (* args[0] *)
    | a :: _ => v ← parse_number a; Ok (mem, Z.land v 15)
    end
  else if String.eqb op "DATA" then
    match args with
    | [] => Err IndexError                                 (* args[0] *)
    | a :: _ =>
        v ← parse_number a;
        mem' ← store mem pc (Z.land v 255);
        Ok (mem', Z.land (pc + 1) 15)
    end
  else
    match (ISA !! op : option (Z * bool)) with
    | None => Err (UnknownInstruction op)
    | Some (opcode, needs) =>
        operand ← (if needs then
                     match args with
                     | [] => Err (MissingOperand op pc)
                     | a :: _ => operand_of labels a
                     end
                   else Ok 0);
        mem' ← store mem pc
                 (Z.lor (Z.shiftl (Z.land opcode 15) 4) (Z.land operand 15));
        Ok (mem', Z.land (pc + 1) 15)
    end.

Fixpoint assemble_loop (labels : gmap string Z) (lines : list operation)
    (st : list Z * Z) : result (list Z * Z) :=
  match lines with
  | [] => Ok st
  | o :: rest => st' ← assemble_step labels st o; assemble_loop labels rest st'
  end.

(** [assemble] together with the value of [pc] when its loop ends. *)
Definition assemble_run (src : string) : result (list Z * Z) :=
  p ← first_pass (tokenize src);
  assemble_loop p.1 p.2 (replicate 16 0, 0).

Definition assemble (src : string) : result (list Z) :=
  st ← assemble_run src; Ok st.1.

(** A line feed, to write sources of several lines. *)
Definition LF : string := String "010" EmptyString.

(** ** The main program

    [main] reads the source, calls [assemble] and prints the image.  Its
    input and output are modelled as values: the text of the file named on
    the command line if there is one, the lines [input()] returns until the
    end of input, and the lines printed. *)

(** [sep.join(l)] *)
Fixpoint join (sep : string) (l : list string) : string :=
  match l with
  | [] => EmptyString
  | x :: rest =>
      match rest with
      | [] => x
      | _ :: _ => x +:+ sep +:+ join sep rest
      end
  end.

(** The loop that fills [buf]: it ends when [input()] raises [EOFError]
    (no line left) or returns a line that is [END] once stripped. *)
Fixpoint read_lines (inputs : list string) : list string :=
  match inputs with
  | [] => []
  | line :: rest =>
      if String.eqb (Str.strip line) "END" then []
      else line :: read_lines rest
  end.

(** One digit of ["0123456789ABCDEF"]. *)
Definition hex_digit (d : Z) : ascii :=
  if d <? 10 then ascii_of_N (Z.to_N (48 + d)) else ascii_of_N (Z.to_N (55 + d)).

(** The upper-case hexadecimal digits of [n >= 0], written in front of
    [acc]; [fuel] bounds the number of digits. *)
Fixpoint hex_go (fuel : nat) (n : Z) (acc : string) : string :=
  match fuel with
  | O => acc
  | S fuel' =>
      let acc' := String (hex_digit (n mod 16)) acc in
      if n / 16 =? 0 then acc' else hex_go fuel' (n / 16) acc'
  end.

Definition hex (n : Z) : string :=
  hex_go (S (Z.to_nat (Z.log2 n))) n EmptyString.

(** [f"{b:02X}"]: upper-case hexadecimal, a minus sign for negative numbers,
    padded with a zero to two characters. *)
Definition format_02X (b : Z) : string :=
  if b <? 0 then "-" +:+ hex (- b)
  else
    let s := hex b in
    if (String.length s <? 2)%nat then "0" +:+ s else s.

(** [" ".join(f"{b:02X}" for b in mem)], the line [main] prints. *)
Definition render (mem : list Z) : string :=
  join " " (format_02X <$> mem).

Definition prompt : string :=
  "Enter SAP-1 assembly. Type END on a line by itself to finish:".

(** [main]: [file] is the text [read()] returns for the file given on the
    command line, [None] without one; [inputs] are the lines [input()]
    returns, one after the other.  The result is the list of lines printed
    and the exception that ended the run, if any. *)
Definition main (file : option string) (inputs : list string)
  : list string * option error :=
  let '(printed, src) :=
    match file with
    | Some text => ([], text)
    | None => ([prompt], join LF (read_lines inputs))
    end in
  match assemble src with
  | Ok mem => (printed ++ [render mem], None)
  | Err e => (printed, Some e)
  end.

(** ** Vocabulary of the statements below *)

(** The label a line defines: the text before its first colon, stripped,
    when the line has a colon and that text is not empty. *)
Definition label_of (line : string) : option string :=
  if Str.contains ":" line then
    let lab := Str.strip (Str.before ":" line) in
    if Str.is_empty lab then None else Some lab
  else None.

(** The statement of a line: the text after the label, or the whole line
    when it has no colon; [None] for a line that holds a label only. *)
Definition statement_of (line : string) : option string :=
  if Str.contains ":" line then
    let rest := Str.strip (Str.after ":" line) in
    if Str.is_empty rest then None else Some rest
  else Some line.

(** The tokens of a statement, as [first_pass] splits them. *)
Definition tokens (stmt : string) : list string :=
  Str.split (Str.replace_char "," " " stmt).

(** Every subscript of pass 1 is in range on this line: its statement has
    a first token, and a second one when the first is [ORG]. *)
Definition has_operands (line : string) : bool :=
  match statement_of line with
  | None => true
  | Some stmt =>
      match tokens stmt with
      | [] => false
      | t0 :: args =>
          if String.eqb (Str.upper t0) "ORG"
          then match args with [] => false | _ :: _ => true end
          else true
      end
  end.

(** The statement of the line cannot fail in pass 1: as [has_operands], and
    the argument of an [ORG] is a numeric literal. *)
Definition statement_runs (line : string) : bool :=
  match statement_of line with
  | None => true
  | Some stmt =>
      match tokens stmt with
      | [] => false
      | t0 :: args =>
          if String.eqb (Str.upper t0) "ORG"
          then match args with [] => false | a :: _ => is_ok (parse_number a) end
          else true
      end
  end.

(** [name] is defined on two different lines. *)
Definition defined_twice (lines : list string) (name : string) : Prop :=
  exists (i j : nat) (li lj : string),
    (i < j)%nat /\ lines !! i = Some li /\ lines !! j = Some lj
    /\ label_of li = Some name /\ label_of lj = Some name.

(** The value of a digit string in a base, most significant digit first. *)
Fixpoint digits_value (base acc : Z) (ds : string) : Z :=
  match ds with
  | EmptyString => acc
  | String c r => digits_value base (acc * base + Char.digit_value c) r
  end.

(** Bytes, addresses, and the states pass 2 may be in. *)
Definition is_byte (b : Z) : Prop := 0 <= b <= 255.
Definition is_address (a : Z) : Prop := 0 <= a <= 15.
Definition image_ok (st : list Z * Z) : Prop :=
  length st.1 = 16%nat /\ Forall is_byte st.1 /\ is_address st.2.

(** The state of pass 1 holds addresses only. *)
Definition pass1_ok (st : pass1) : Prop :=
  is_address (pc st) /\ Forall (fun o : operation => is_address o.2) (out st).

(** The operation writes a cell in pass 2: it is neither the marker of a
    label line nor an [ORG]. *)
Definition occupies (o : operation) : bool :=
  negb (String.eqb o.1.1 "NOPLINE") && negb (String.eqb o.1.1 "ORG").

(** The statement of the line, if any, does not have [NOPLINE] as its
    first token (in any case). *)
Definition plain_statement (line : string) : bool :=
  match statement_of line with
  | None => true
  | Some stmt =>
      match tokens stmt with
      | [] => true
      | t0 :: _ => negb (String.eqb (Str.upper t0) "NOPLINE")
      end
  end.

(** The raw line as [tokenize] keeps it: comments cut, stripped. *)
Definition normalized (raw : string) : string :=
  Str.strip (Str.before "#" (Str.before ";" raw)).

(** What [tokenize] makes of raw lines: normalized, empty ones dropped. *)
Definition clean (raws : list string) : list string :=
  filter (fun line => Str.is_empty line = false) (normalized <$> raws).

Definition no_linebreak (s : string) : bool :=
  Str.all (fun c => negb (Char.islinebreak c)) s.

(** Binary digits in groups separated by single underscores.  [prev_us]
    tells that a digit must come next: at the start and after an underscore;
    so [bit_groups] holds of a text that starts and ends with a binary digit
    and has no two underscores side by side. *)
Fixpoint grouped (prev_us : bool) (s : string) : bool :=
  match s with
  | EmptyString => negb prev_us
  | String c r =>
      if Ascii.eqb c "_" then negb prev_us && grouped true r
      else Char.is_bit c && grouped false r
  end.

Definition bit_groups (s : string) : bool := grouped true s.

Fixpoint without_underscores (s : string) : string :=
  match s with
  | EmptyString => EmptyString
  | String c r =>
      if Ascii.eqb c "_" then without_underscores r
      else String c (without_underscores r)
  end.

(** The argument of the [ORG] of a line: the second token of its
    statement when the first, upper-cased, is [ORG]. *)
Definition org_argument (line : string) : option string :=
  match statement_of line with
  | None => None
  | Some stmt =>
      match tokens stmt with
      | t0 :: a :: _ =>
          if String.eqb (Str.upper t0) "ORG" then Some a else None
      | _ => None
      end
  end.

(** ** The assembler under a configuration *)

(** Two things [assemble] reads are not among its arguments: the dict [ISA]
    of the module, which any code of the process can change, and the limit
    the interpreter sets on the digits of an [int] conversion
    ([sys.get_int_max_str_digits()], 0 for none).  The functions of this
    section are those above with the two made parameters. *)
Section Configured.

Variable isa : gmap string (Z * bool).
Variable limit : Z.

Definition int_of_under (tok : string) (base : Z) : result Z :=
  match PyInt.int_limited limit tok base with
  | Some v => Ok v
  | None => Err (InvalidNumericLiteral tok)
  end.

Definition parse_number_under (tok : string) : result Z :=
  let tok := Str.strip tok in
  if is_binary_token tok then int_of_under tok 2
  else if Str.startswith "0x" tok || Str.startswith "0X" tok
       then int_of_under tok 16
  else if Str.startswith "0b" (Str.lower tok) then int_of_under tok 2
  else int_of_under tok 10.

Definition first_pass_statement_under (st : pass1) (line : string)
  : result pass1 :=
  match Str.split (Str.replace_char "," " " line) with
  | [] => Err IndexError
  | t0 :: args =>
      let out' := out st ++ [(Str.upper t0, args, pc st)] in
      if String.eqb (Str.upper t0) "ORG" then
        match args with
        | [] => Err IndexError
        | a :: _ =>
            v ← parse_number_under a;
            Ok (Pass1 (Z.land v 15) (labels st) out')
        end
      else Ok (Pass1 (Z.land (pc st + 1) 15) (labels st) out')
  end.

Definition first_pass_line_under (st : pass1) (line : string) : result pass1 :=
  if Str.contains ":" line then
    let lab := Str.strip (Str.before ":" line) in
    let line := Str.strip (Str.after ":" line) in
    labels' ← define_label (labels st) lab (pc st);
    if Str.is_empty line
    then Ok (Pass1 (pc st) labels' (out st ++ [("NOPLINE", [], pc st)]))
    else first_pass_statement_under (Pass1 (pc st) labels' (out st)) line
  else first_pass_statement_under st line.

Fixpoint first_pass_loop_under (lines : list string) (st : pass1)
  : result pass1 :=
  match lines with
  | [] => Ok st
  | line :: rest =>
      st' ← first_pass_line_under st line; first_pass_loop_under rest st'
  end.

Definition operand_of_under (labels : gmap string Z) (a : string) : result Z :=
  match labels !! a with
  | Some addr => Ok (Z.land addr 15)
  | None => v ← parse_number_under a; Ok (Z.land v 15)
  end.

Definition assemble_step_under (labels : gmap string Z) (st : list Z * Z)
    (o : operation) : result (list Z * Z) :=
  let '(mem, pc) := st in
  let '(op, args, at_pc) := o in
  if String.eqb op "NOPLINE" then Ok (mem, at_pc)
  else if String.eqb op "ORG" then
    match args with
    | [] => Err IndexError
    | a :: _ => v ← parse_number_under a; Ok (mem, Z.land v 15)
    end
  else if String.eqb op "DATA" then
    match args with
    | [] => Err IndexError
    | a :: _ =>
        v ← parse_number_under a;
        mem' ← store mem pc (Z.land v 255);
        Ok (mem', Z.land (pc + 1) 15)
    end
  else
    match (isa !! op : option (Z * bool)) with
    | None => Err (UnknownInstruction op)
    | Some (opcode, needs) =>
        operand ← (if needs then
                     match args with
                     | [] => Err (MissingOperand op pc)
                     | a :: _ => operand_of_under labels a
                     end
                   else Ok 0);
        mem' ← store mem pc
                 (Z.lor (Z.shiftl (Z.land opcode 15) 4) (Z.land operand 15));
        Ok (mem', Z.land (pc + 1) 15)
    end.

Fixpoint assemble_loop_under (labels : gmap string Z) (lines : list operation)
    (st : list Z * Z) : result (list Z * Z) :=
  match lines with
  | [] => Ok st
  | o :: rest =>
      st' ← assemble_step_under labels st o;
      assemble_loop_under labels rest st'
  end.

Definition assemble_under (src : string) : result (list Z) :=
  st1 ← first_pass_loop_under (tokenize src) (Pass1 0 ∅ []);
  st2 ← assemble_loop_under (labels st1) (out st1) (replicate 16 0, 0);
  Ok st2.1.

End Configured.

(** ** The interpreter process *)

(** The objects the assembler creates and mutates in place. *)
Inductive object : Type :=
| Labels (d : gmap string Z)          (* a dict, as [labels] *)
| Operations (l : list operation)     (* a list of tuples, as [out] *)
| Cells (l : list Z).                 (* a list of ints, as [mem] *)

(** What outlives a call of [assemble]: the dict [ISA] of the module, the
    digit limit of the interpreter, and the heap.  An object is named by
    its position in the heap. *)
Record process : Type := Process {
  module_ISA : gmap string (Z * bool);
  int_max_str_digits : Z;
  heap : list object
}.

(** The process when the module has been loaded by an interpreter with
    its default settings. *)
Definition fresh_process : process := Process ISA PyInt.max_str_digits [].

Definition labels_of (p : process) (l : nat) : gmap string Z :=
  match heap p !! l with Some (Labels d) => d | _ => ∅ end.

Definition operations_of (p : process) (l : nat) : list operation :=
  match heap p !! l with Some (Operations o) => o | _ => [] end.

Definition cells_of (p : process) (l : nat) : list Z :=
  match heap p !! l with Some (Cells c) => c | _ => [] end.

Module Run.

(** A computation in a process: it returns or raises, and leaves the
    process behind in either case. *)
Definition run (A : Type) : Type := process -> result A * process.

Definition ret {A : Type} (a : A) : run A := fun p => (Ok a, p).

Definition raise {A : Type} (e : error) : run A := fun p => (Err e, p).

Definition lift {A : Type} (r : result A) : run A := fun p => (r, p).

Definition bind {A B : Type} (m : run A) (k : A -> run B) : run B :=
  fun p => match m p with
           | (Ok a, p') => k a p'
           | (Err e, p') => (Err e, p')
           end.

Notation "'let*' x ':=' m 'in' k" := (bind m (fun x => k))
  (at level 10, x name, m at level 100, k at level 200).

(** A new object: [{}], [[]], [[0x00]*16]. *)
Definition new (o : object) : run nat :=
  fun p => (Ok (length (heap p)),
            Process (module_ISA p) (int_max_str_digits p) (heap p ++ [o])).

(** Mutation in place of the object at [l]. *)
Definition put (l : nat) (o : object) : run unit :=
  fun p => (Ok tt,
            Process (module_ISA p) (int_max_str_digits p) (<[l := o]> (heap p))).

Definition labels_at (l : nat) : run (gmap string Z) :=
  fun p => (Ok (labels_of p l), p).

Definition operations_at (l : nat) : run (list operation) :=
  fun p => (Ok (operations_of p l), p).

Definition cells_at (l : nat) : run (list Z) :=
  fun p => (Ok (cells_of p l), p).

(** The global [ISA], looked up when the name is evaluated. *)
Definition the_ISA : run (gmap string (Z * bool)) :=
  fun p => (Ok (module_ISA p), p).

(** [int] reads the limit of the interpreter at every call. *)
Definition parse_number (tok : string) : run Z :=
  fun p => (parse_number_under (int_max_str_digits p) tok, p).

(** [out.append(o)] *)
Definition append (out : nat) (o : operation) : run unit :=
  let* l := operations_at out in put out (Operations (l ++ [o])).

Definition first_pass_statement (out : nat) (pc : Z) (line : string) : run Z :=
  match Str.split (Str.replace_char "," " " line) with
  | [] => raise IndexError
  | t0 :: args =>
      let* _ := append out (Str.upper t0, args, pc) in
      if String.eqb (Str.upper t0) "ORG" then
        match args with
        | [] => raise IndexError
        | a :: _ => let* v := parse_number a in ret (Z.land v 15)
        end
      else ret (Z.land (pc + 1) 15)
  end.

(** One iteration of the loop of [first_pass]; the result is the new [pc]. *)
Definition first_pass_line (labels out : nat) (pc : Z) (line : string)
  : run Z :=
  if Str.contains ":" line then
    let lab := Str.strip (Str.before ":" line) in
    let line := Str.strip (Str.after ":" line) in
    let* _ := (if Str.is_empty lab then ret tt
               else
                 let* d := labels_at labels in
                 match d !! lab with
                 | Some _ => raise (DuplicateLabel lab)
                 | None => put labels (Labels (<[lab := pc]> d))
                 end) in
    if Str.is_empty line
    then let* _ := append out ("NOPLINE", [], pc) in ret pc
    else first_pass_statement out pc line
  else first_pass_statement out pc line.

Fixpoint first_pass_loop (labels out : nat) (lines : list string) (pc : Z)
  : run Z :=
  match lines with
  | [] => ret pc
  | line :: rest =>
      let* pc' := first_pass_line labels out pc line in
      first_pass_loop labels out rest pc'
  end.

(** [pc=0; labels={}; out=[]; for ...; return labels,out]: both objects
    are created by the call. *)
Definition first_pass (lines : list string) : run (nat * nat) :=
  let* labels := new (Labels ∅) in
  let* out := new (Operations []) in
  let* _ := first_pass_loop labels out lines 0 in
  ret (labels, out).

(** [mem[i] = v] *)
Definition store (mem : nat) (i v : Z) : run unit :=
  let* cells := cells_at mem in
  let* cells' := lift (store cells i v) in
  put mem (Cells cells').

Definition operand_of (labels : nat) (a : string) : run Z :=
  let* d := labels_at labels in
  match d !! a with
  | Some addr => ret (Z.land addr 15)
  | None => let* v := parse_number a in ret (Z.land v 15)
  end.

(** One iteration of the loop of [assemble]; the result is the new [pc]. *)
Definition assemble_step (labels mem : nat) (pc : Z) (o : operation) : run Z :=
  let '(op, args, at_pc) := o in
  if String.eqb op "NOPLINE" then ret at_pc
  else if String.eqb op "ORG" then
    match args with
    | [] => raise IndexError
    | a :: _ => let* v := parse_number a in ret (Z.land v 15)
    end
  else if String.eqb op "DATA" then
    match args with
    | [] => raise IndexError
    | a :: _ =>
        let* v := parse_number a in
        let* _ := store mem pc (Z.land v 255) in
        ret (Z.land (pc + 1) 15)
    end
  else
    let* isa := the_ISA in
    match (isa !! op : option (Z * bool)) with
    | None => raise (UnknownInstruction op)
    | Some (opcode, needs) =>
        let* operand := (if needs then
                           match args with
                           | [] => raise (MissingOperand op pc)
                           | a :: _ => operand_of labels a
                           end
                         else ret 0) in
        let* _ := store mem pc
                    (Z.lor (Z.shiftl (Z.land opcode 15) 4)
                           (Z.land operand 15)) in
        ret (Z.land (pc + 1) 15)
    end.

Fixpoint assemble_loop (labels mem : nat) (lines : list operation) (pc : Z)
  : run Z :=
  match lines with
  | [] => ret pc
  | o :: rest =>
      let* pc' := assemble_step labels mem pc o in
      assemble_loop labels mem rest pc'
  end.

(** [assemble]: the image is created by the call, and returned. *)
Definition assemble (src : string) : run nat :=
  let* mem := new (Cells (replicate 16 0)) in
  let* r := first_pass (tokenize src) in
  let* lines := operations_at r.2 in
  let* _ := assemble_loop r.1 mem lines 0 in
  ret mem.

End Run.

(** What the caller of a run gets: the cells of the list returned, or the
    error raised. *)
Definition outcome (r : result nat * process) : result (list Z) :=
  match r.1 with
  | Ok l => Ok (cells_of r.2 l)
  | Err e => Err e
  end.

(** [p'] is [p] up to the contents of the objects at [ls]. *)
Definition frame (ls : list nat) (p p' : process) : Prop :=
  module_ISA p' = module_ISA p
  /\ int_max_str_digits p' = int_max_str_digits p
  /\ length (heap p') = length (heap p)
  /\ forall l : nat, l ∉ ls -> heap p' !! l = heap p !! l.

(** The process after [assemble] has been run on each of [srcs] in turn,
    whatever the runs returned or raised. *)
Fixpoint runs (srcs : list string) (p : process) : process :=
  match srcs with
  | [] => p
  | src :: rest => runs rest (Run.assemble src p).2
  end.

(** * Properties *)

(** ** Worked programs *)

(** C6: [ORG 0x0A / DATA 0xFF] assembles; bytes 0 to 9 stay [0x00], byte 10
    is [0xFF], and the program counter of pass 2 is 11 once [DATA] is done. *)
Theorem org_then_data :
  exists mem : list Z,
    assemble_run ("ORG 0x0A" +:+ LF +:+ "DATA 0xFF") = Ok (mem, 11)
    /\ assemble ("ORG 0x0A" +:+ LF +:+ "DATA 0xFF") = Ok mem
    /\ take 10 mem = replicate 10 0
    /\ mem !! 10%nat = Some 255.
Proof.
  eexists; split; [vm_compute; reflexivity|]. repeat split.
Qed.

(** ** Operands and directive arguments *)

Lemma ISA_not_directive (op : string) (e : Z * bool) :
  ISA !! op = Some e ->
  String.eqb op "NOPLINE" = false /\ String.eqb op "ORG" = false
  /\ String.eqb op "DATA" = false.
Proof.
  intros H. repeat split.
  all: match goal with
       | |- String.eqb ?o ?s = false =>
           destruct (String.eqb_spec o s) as [->|];
           [vm_compute in H; discriminate | reflexivity]
       end.
Qed.

Lemma assemble_step_instruction (labels : gmap string Z) (mem : list Z)
    (pc : Z) (op : string) (args : list string) (at_pc opcode : Z)
    (needs : bool) :
  ISA !! op = Some (opcode, needs) ->
  assemble_step labels (mem, pc) (op, args, at_pc) =
    (operand ← (if needs then
                  match args with
                  | [] => Err (MissingOperand op pc)
                  | a :: _ => operand_of labels a
                  end
                else Ok 0);
     mem' ← store mem pc
              (Z.lor (Z.shiftl (Z.land opcode 15) 4) (Z.land operand 15));
     Ok (mem', Z.land (pc + 1) 15)).
Proof.
  intros H. destruct (ISA_not_directive _ _ H) as (H1 & H2 & H3).
  unfold assemble_step. rewrite H1, H2, H3, H. reflexivity.
Qed.

(** C9: the argument of a directive is never looked up in the label table.
    Let [lbl] be a key of the table.  [DATA lbl] and [ORG lbl] in pass 2,
    and [ORG lbl] in pass 1, hand [lbl] to [parse_number] and use its value;
    when [lbl] is no numeric literal, all three fail with the error of
    [parse_number], which is [InvalidNumericLiteral]. *)
Theorem directive_argument_is_a_number :
  forall (labels : gmap string Z) (lbl : string) (addr : Z),
    labels !! lbl = Some addr ->
    (forall (mem : list Z) (pc at_pc : Z) (rest : list string),
        assemble_step labels (mem, pc) ("DATA", lbl :: rest, at_pc) =
          (v ← parse_number lbl;
           mem' ← store mem pc (Z.land v 255);
           Ok (mem', Z.land (pc + 1) 15))
        /\ assemble_step labels (mem, pc) ("ORG", lbl :: rest, at_pc) =
          (v ← parse_number lbl; Ok (mem, Z.land v 15)))
    /\ (forall (pc : Z) (out : list operation) (line t0 : string)
               (rest : list string),
        tokens line = t0 :: lbl :: rest ->
        Str.upper t0 = "ORG" ->
        first_pass_statement (Pass1 pc labels out) line =
          (v ← parse_number lbl;
           Ok (Pass1 (Z.land v 15) labels (out ++ [("ORG", lbl :: rest, pc)]))))
    /\ (forall e : error,
        parse_number lbl = Err e ->
        e = InvalidNumericLiteral (Str.strip lbl)
        /\ (forall (mem : list Z) (pc at_pc : Z) (rest : list string),
              assemble_step labels (mem, pc) ("DATA", lbl :: rest, at_pc) = Err e
              /\ assemble_step labels (mem, pc) ("ORG", lbl :: rest, at_pc) = Err e)
        /\ (forall (pc : Z) (out : list operation) (line t0 : string)
                   (rest : list string),
              tokens line = t0 :: lbl :: rest ->
              Str.upper t0 = "ORG" ->
              first_pass_statement (Pass1 pc labels out) line = Err e)).
Proof.
  intros labels lbl addr _.
  assert (P1 : forall pc out line t0 rest,
             tokens line = t0 :: lbl :: rest -> Str.upper t0 = "ORG" ->
             first_pass_statement (Pass1 pc labels out) line =
               (v ← parse_number lbl;
                Ok (Pass1 (Z.land v 15) labels (out ++ [("ORG", lbl :: rest, pc)])))).
  { intros pc out line t0 rest Ht Hu. unfold first_pass_statement.
    unfold tokens in Ht. rewrite Ht, Hu. reflexivity. }
  split; [intros; split; reflexivity|]. split; [exact P1|].
  intros e He. split.
  - unfold parse_number, int_of in He.
    repeat match type of He with
           | (if ?b then _ else _) = _ => destruct b
           | match ?o with Some _ => _ | None => _ end = _ => destruct o
           end; congruence.
  - split.
    + intros. cbn. rewrite He. split; reflexivity.
    + intros pc out line t0 rest Ht Hu. rewrite (P1 _ _ _ _ _ Ht Hu), He.
      reflexivity.
Qed.

(** The label [x], defined at address 0, as argument of [DATA] and [ORG]. *)
Lemma directive_argument_is_a_number_witness :
  parse_number "x" = Err (InvalidNumericLiteral "x")
  /\ assemble_step {["x" := 0]} (replicate 16 0, 0) ("DATA", ["x"], 0)
     = Err (InvalidNumericLiteral "x")
  /\ assemble_step {["x" := 0]} (replicate 16 0, 0) ("ORG", ["x"], 0)
     = Err (InvalidNumericLiteral "x")
  /\ first_pass_statement (Pass1 0 {["x" := 0]} []) "org x"
     = Err (InvalidNumericLiteral "x")
  /\ assemble "x: DATA x" = Err (InvalidNumericLiteral "x").
Proof.
  assert (HL : ({["x" := 0]} : gmap string Z) !! "x" = Some 0)
    by (vm_compute; reflexivity).
  assert (HP : parse_number "x" = Err (InvalidNumericLiteral "x"))
    by (vm_compute; reflexivity).
  destruct (directive_argument_is_a_number {["x" := 0]} "x" 0 HL)
    as (_ & _ & H).
  destruct (H _ HP) as (_ & H2 & H1).
  split; [exact HP|].
  split; [exact (proj1 (H2 (replicate 16 0) 0 0 []))|].
  split; [exact (proj2 (H2 (replicate 16 0) 0 0 []))|].
  split; [|vm_compute; reflexivity].
  apply (H1 0 [] "org x" "org" []); vm_compute; reflexivity.
Defined.

(** ** Case of mnemonics and of labels *)

(** C10: the first token of a statement is upper-cased before it is
    recorded, so two statements whose first tokens agree up to case, with
    the same arguments, are recorded alike ([hlt] and [HLT] give the same
    image).  Labels are compared as written: a second label that differs
    from a defined one, be it in case only, is a new entry and raises no
    duplicate; an operand token that differs from a defined label, be it in
    case only, is not resolved through that label's entry, and is parsed as
    a number unless it is a key itself. *)
Theorem mnemonic_case_folded_label_case_kept :
  (forall (st : pass1) (line1 line2 t1 t2 : string) (args : list string),
      tokens line1 = t1 :: args -> tokens line2 = t2 :: args ->
      Str.upper t1 = Str.upper t2 ->
      first_pass_statement st line1 = first_pass_statement st line2)
  /\ (assemble "hlt" = assemble "HLT"
      /\ assemble "HLT" = Ok (144 :: replicate 15 0))
  /\ (forall (labels : gmap string Z) (lab1 lab2 : string) (pc1 pc2 : Z),
      Str.upper lab1 = Str.upper lab2 -> lab1 <> lab2 ->
      Str.is_empty lab2 = false -> labels !! lab2 = None ->
      define_label (<[lab1 := pc1]> labels) lab2 pc2
        = Ok (<[lab2 := pc2]> (<[lab1 := pc1]> labels)))
  /\ (is_ok (first_pass ["end:"; "END:"]) = true)
  /\ (forall (labels : gmap string Z) (lbl a : string) (addr : Z),
      Str.upper a = Str.upper lbl -> a <> lbl ->
      operand_of (<[lbl := addr]> labels) a = operand_of labels a
      /\ (labels !! a = None ->
          operand_of (<[lbl := addr]> labels) a
            = (v ← parse_number a; Ok (Z.land v 15))))
  /\ assemble ("end: HLT" +:+ LF +:+ "JUMP END")
       = Err (InvalidNumericLiteral "END").
Proof.
  split.
  { intros st line1 line2 t1 t2 args H1 H2 Hu. unfold first_pass_statement.
    unfold tokens in H1, H2. rewrite H1, H2, Hu. reflexivity. }
  split; [split; vm_compute; reflexivity|].
  split.
  { intros labels lab1 lab2 pc1 pc2 _ Hne Hnz Hl. unfold define_label.
    rewrite Hnz, lookup_insert_ne, Hl by exact Hne. reflexivity. }
  split; [vm_compute; reflexivity|].
  split; [|vm_compute; reflexivity].
  intros labels lbl a addr _ Hne.
  assert (E : operand_of (<[lbl := addr]> labels) a = operand_of labels a).
  { unfold operand_of. rewrite lookup_insert_ne by congruence. reflexivity. }
  split; [exact E|]. intros Ha. rewrite E. unfold operand_of. rewrite Ha.
  reflexivity.
Qed.

(** [end] is defined; [End] and [END] agree with it up to case only. *)
Lemma mnemonic_case_folded_label_case_kept_witness :
  first_pass_statement (Pass1 0 ∅ []) "jump 3"
    = first_pass_statement (Pass1 0 ∅ []) "Jump, 3"
  /\ define_label (<["end" := 2]> ∅) "END" 5
     = Ok (<["END" := 5]> (<["end" := 2]> ∅))
  /\ operand_of (<["end" := 2]> ∅) "End" = Err (InvalidNumericLiteral "End").
Proof.
  destruct mnemonic_case_folded_label_case_kept as (H1 & _ & H2 & _ & H3 & _).
  split.
  { apply (H1 _ "jump 3" "Jump, 3" "jump" "Jump" ["3"]); vm_compute; reflexivity. }
  split.
  { apply H2; [vm_compute; reflexivity | discriminate | reflexivity
              | apply lookup_empty]. }
  destruct (H3 ∅ "end" "End" 2) as [_ H]; [vm_compute; reflexivity|discriminate|].
  rewrite H by apply lookup_empty. vm_compute. reflexivity.
Defined.

(** ** Bounds of the image and of the program counter *)

Lemma land_15_address (v : Z) : is_address (Z.land v 15).
Proof.
  assert (E : Z.land v 15 = v mod 2 ^ 4)
    by (change 15 with (Z.ones 4); apply Z.land_ones; lia).
  unfold is_address. rewrite E. pose proof (Z.mod_pos_bound v (2 ^ 4)). lia.
Qed.

Lemma land_255_byte (v : Z) : is_byte (Z.land v 255).
Proof.
  assert (E : Z.land v 255 = v mod 2 ^ 8)
    by (change 255 with (Z.ones 8); apply Z.land_ones; lia).
  unfold is_byte. rewrite E. pose proof (Z.mod_pos_bound v (2 ^ 8)). lia.
Qed.

Lemma encoded_is_byte (opcode operand : Z) :
  is_byte (Z.lor (Z.shiftl (Z.land opcode 15) 4) (Z.land operand 15)).
Proof.
  pose proof (land_15_address opcode) as Ho.
  pose proof (land_15_address operand) as Hp.
  unfold is_address in Ho, Hp. unfold is_byte.
  set (x := Z.land opcode 15) in *. set (y := Z.land operand 15) in *.
  assert (Hx : x * 16 = Z.shiftl x 4) by (rewrite Z.shiftl_mul_pow2; lia).
  rewrite <- Hx.
  assert (Hy : Z.lor (x * 16) y = x * 16 + y).
  { assert (x = 0 \/ x = 1 \/ x = 2 \/ x = 3 \/ x = 4 \/ x = 5 \/ x = 6
            \/ x = 7 \/ x = 8 \/ x = 9 \/ x = 10 \/ x = 11 \/ x = 12
            \/ x = 13 \/ x = 14 \/ x = 15) as Cx by lia.
    assert (y = 0 \/ y = 1 \/ y = 2 \/ y = 3 \/ y = 4 \/ y = 5 \/ y = 6
            \/ y = 7 \/ y = 8 \/ y = 9 \/ y = 10 \/ y = 11 \/ y = 12
            \/ y = 13 \/ y = 14 \/ y = 15) as Cy by lia.
    clearbody x y.
    repeat (destruct Cx as [-> | Cx]); try subst x;
      repeat (destruct Cy as [-> | Cy]); try subst y; reflexivity. }
  rewrite Hy. lia.
Qed.

Lemma store_in_bounds (mem : list Z) (i v : Z) :
  0 <= i < Z.of_nat (length mem) ->
  store mem i v = Ok (<[Z.to_nat i := v]> mem).
Proof.
  intros H. unfold store.
  destruct (Z.leb_spec 0 i); [|lia].
  destruct (Z.ltb_spec i (Z.of_nat (length mem))); [|lia]. reflexivity.
Qed.

Lemma store_image_ok (mem : list Z) (pc v pc' : Z) :
  image_ok (mem, pc) -> is_byte v -> is_address pc' ->
  exists mem', store mem pc v = Ok mem' /\ image_ok (mem', pc').
Proof.
  intros (Hl & Hb & Hp) Hv Hp'. cbn in Hl, Hb, Hp. unfold is_address in Hp.
  exists (<[Z.to_nat pc := v]> mem). split.
  - apply store_in_bounds. lia.
  - split; [|split]; cbn.
    + rewrite length_insert. exact Hl.
    + apply Forall_insert; assumption.
    + exact Hp'.
Qed.

Lemma first_pass_statement_ok (st st' : pass1) (line : string) :
  pass1_ok st -> first_pass_statement st line = Ok st' -> pass1_ok st'.
Proof.
  intros [Hp Ho] H. unfold first_pass_statement in H.
  destruct (Str.split _) as [|t0 args]; [discriminate|].
  assert (Ho' : Forall (fun o : operation => is_address o.2)
                  (out st ++ [(Str.upper t0, args, pc st)])).
  { apply Forall_app. split; [exact Ho|]. constructor; [exact Hp|constructor]. }
  destruct (String.eqb _ _).
  - destruct args as [|a args']; [discriminate|].
    destruct (parse_number a) as [v|]; [|discriminate]. cbn in H.
    injection H as <-. split; [apply land_15_address|exact Ho'].
  - injection H as <-. split; [apply land_15_address|exact Ho'].
Qed.

Lemma first_pass_line_ok (st st' : pass1) (line : string) :
  pass1_ok st -> first_pass_line st line = Ok st' -> pass1_ok st'.
Proof.
  intros Hst H. unfold first_pass_line in H.
  destruct (Str.contains ":" line).
  - destruct (define_label _ _ _) as [labels'|]; [|discriminate]. cbn in H.
    destruct Hst as [Hp Ho]. destruct (Str.is_empty _).
    + injection H as <-. split; [exact Hp|]. cbn.
      apply Forall_app. split; [exact Ho|]. constructor; [exact Hp|constructor].
    + eapply first_pass_statement_ok; [|exact H]. split; assumption.
  - eapply first_pass_statement_ok; eassumption.
Qed.

Lemma first_pass_loop_ok (lines : list string) :
  forall st st' : pass1,
    pass1_ok st -> first_pass_loop lines st = Ok st' -> pass1_ok st'.
Proof.
  induction lines as [|line rest IH]; intros st st' Hst H; cbn in H.
  - injection H as <-. exact Hst.
  - destruct (first_pass_line st line) as [st1|] eqn:E; [|discriminate].
    cbn in H. eapply IH; [|exact H]. eapply first_pass_line_ok; eassumption.
Qed.

Lemma first_pass_addresses (lines : list string) (labels : gmap string Z)
    (ops : list operation) :
  first_pass lines = Ok (labels, ops) ->
  Forall (fun o : operation => is_address o.2) ops.
Proof.
  unfold first_pass. intros H.
  destruct (first_pass_loop lines _) as [st|] eqn:E; [|discriminate].
  cbn in H. injection H as _ <-.
  destruct (first_pass_loop_ok lines (Pass1 0 ∅ []) st) as [_ Ho];
    [|exact E|exact Ho].
  split; [unfold is_address; cbn; lia|constructor].
Qed.

Lemma assemble_step_ok (labels : gmap string Z) (st st' : list Z * Z)
    (o : operation) :
  image_ok st -> is_address o.2 ->
  assemble_step labels st o = Ok st' -> image_ok st'.
Proof.
  destruct st as [mem pc], o as [[op args] at_pc]. intros Hst Hat H.
  cbn in Hat. unfold assemble_step in H.
  destruct (String.eqb op "NOPLINE").
  { injection H as <-. unfold image_ok in *; cbn in *; destruct Hst as (? & ? & ?). split; [|split]; assumption. }
  destruct (String.eqb op "ORG").
  { destruct args as [|a ?]; [discriminate|].
    destruct (parse_number a) as [v|]; [|discriminate]. cbn in H.
    injection H as <-. unfold image_ok in *; cbn in *.
    destruct Hst as (? & ? & ?).
    split; [|split]; try assumption; apply land_15_address. }
  destruct (String.eqb op "DATA").
  { destruct args as [|a ?]; [discriminate|].
    destruct (parse_number a) as [v|]; [|discriminate]. cbn in H.
    destruct (store_image_ok mem pc (Z.land v 255) (Z.land (pc + 1) 15) Hst
                (land_255_byte v) (land_15_address _)) as (mem' & Hs & Hok).
    rewrite Hs in H. cbn in H. injection H as <-. exact Hok. }
  destruct (ISA !! op) as [[opcode needs]|]; [|discriminate].
  match type of H with
  | (?r ≫= _) = _ => destruct r as [operand|]; [|discriminate]
  end.
  cbn in H.
  destruct (store_image_ok mem pc _ (Z.land (pc + 1) 15) Hst
              (encoded_is_byte opcode operand) (land_15_address _))
    as (mem' & Hs & Hok).
  rewrite Hs in H. cbn in H. injection H as <-. exact Hok.
Qed.

Lemma assemble_loop_app (labels : gmap string Z) (l1 l2 : list operation) :
  forall st : list Z * Z,
    assemble_loop labels (l1 ++ l2) st =
      (st' ← assemble_loop labels l1 st; assemble_loop labels l2 st').
Proof.
  induction l1 as [|o l1 IH]; intros st; cbn; [reflexivity|].
  destruct (assemble_step labels st o); cbn; [apply IH|reflexivity].
Qed.

Lemma assemble_loop_ok (labels : gmap string Z) (ops : list operation) :
  forall st st' : list Z * Z,
    image_ok st -> Forall (fun o : operation => is_address o.2) ops ->
    assemble_loop labels ops st = Ok st' -> image_ok st'.
Proof.
  induction ops as [|o ops IH]; intros st st' Hst Hops H; cbn in H.
  - injection H as <-. exact Hst.
  - apply Forall_cons in Hops as [Ho Hops].
    destruct (assemble_step labels st o) as [st1|] eqn:E; [|discriminate].
    cbn in H. eapply IH; [|exact Hops|exact H].
    eapply assemble_step_ok; eassumption.
Qed.

Lemma image_ok_init : image_ok (replicate 16 0, 0).
Proof.
  split; [|split]; cbn; [reflexivity| |unfold is_address; lia].
  apply Forall_forall. intros b Hb.
  repeat (apply elem_of_cons in Hb as [->|Hb]; [unfold is_byte; lia|]).
  inversion Hb.
Qed.

Lemma assemble_run_ok (src : string) (st : list Z * Z) :
  assemble_run src = Ok st -> image_ok st.
Proof.
  unfold assemble_run. intros H.
  destruct (first_pass (tokenize src)) as [[labels ops]|] eqn:E; [|discriminate].
  cbn in H. eapply assemble_loop_ok; [apply image_ok_init| |exact H].
  eapply first_pass_addresses. exact E.
Qed.

Lemma assemble_returns_image (src : string) (mem : list Z) :
  assemble src = Ok mem -> length mem = 16%nat /\ Forall is_byte mem.
Proof.
  unfold assemble. intros H.
  destruct (assemble_run src) as [st|] eqn:E; [|discriminate].
  cbn in H. injection H as <-.
  destruct (assemble_run_ok _ _ E) as (Hl & Hb & _). split; assumption.
Qed.

(** C5: when [assemble] returns, the image has exactly 16 entries, each in
    0..255.  Throughout pass 2 the program counter is an address: after any
    number [k] of operations the state exists, its counter is in 0..15, the
    image still has 16 cells, and a write at the counter is a plain in-range
    update.  An operation that occupies a cell at address 15 leaves the
    counter at 0. *)
Theorem image_and_counter_in_bounds :
  forall (src : string) (mem : list Z),
    assemble src = Ok mem ->
    length mem = 16%nat /\ Forall is_byte mem
    /\ (forall (labels : gmap string Z) (ops : list operation),
          first_pass (tokenize src) = Ok (labels, ops) ->
          forall k : nat,
          exists st : list Z * Z,
            assemble_loop labels (take k ops) (replicate 16 0, 0) = Ok st
            /\ is_address st.2 /\ length st.1 = 16%nat
            /\ forall v : Z, store st.1 st.2 v = Ok (<[Z.to_nat st.2 := v]> st.1))
    /\ (forall (labels : gmap string Z) (cells : list Z) (o : operation)
               (st' : list Z * Z),
          String.eqb o.1.1 "NOPLINE" = false ->
          String.eqb o.1.1 "ORG" = false ->
          assemble_step labels (cells, 15) o = Ok st' -> st'.2 = 0).
Proof.
  intros src mem H. destruct (assemble_returns_image _ _ H) as [Hl Hb].
  split; [exact Hl|]. split; [exact Hb|].
  unfold assemble in H.
  destruct (assemble_run src) as [st|] eqn:E; [|discriminate].
  clear H. split.
  - intros labels ops Hfp k. unfold assemble_run in E. rewrite Hfp in E.
    cbn in E. rewrite <- (take_drop k ops), assemble_loop_app in E.
    destruct (assemble_loop labels (take k ops) _) as [stk|] eqn:Ek;
      [|discriminate].
    exists stk. split; [reflexivity|].
    assert (Hk : image_ok stk).
    { eapply assemble_loop_ok; [apply image_ok_init| |exact Ek].
      apply Forall_take. eapply first_pass_addresses. exact Hfp. }
    destruct Hk as (Hkl & _ & Hkp). split; [exact Hkp|]. split; [exact Hkl|].
    intros v. apply store_in_bounds. unfold is_address in Hkp. lia.
  - intros labels cells [[op args] at_pc] st' H1 H2 Hs. cbn in H1, H2.
    unfold assemble_step in Hs. rewrite H1, H2 in Hs.
    destruct (String.eqb op "DATA").
    + destruct args as [|a ?]; [discriminate|].
      destruct (parse_number a); [|discriminate]. cbn in Hs.
      destruct (store cells 15 _); [|discriminate]. cbn in Hs.
      injection Hs as <-. reflexivity.
    + destruct (ISA !! op) as [[opcode needs]|]; [|discriminate].
      match type of Hs with
      | (?r ≫= _) = _ => destruct r as [operand|]; [|discriminate]
      end.
      cbn in Hs. destruct (store cells 15 _); [|discriminate]. cbn in Hs.
      injection Hs as <-. reflexivity.
Qed.

(** [ORG 15 / HLT / HLT]: the second [HLT] lands in cell 0. *)
Lemma image_and_counter_in_bounds_witness :
  assemble ("ORG 15" +:+ LF +:+ "HLT" +:+ LF +:+ "HLT")
    = Ok (144 :: replicate 14 0 ++ [144])
  /\ length (144 :: replicate 14 0 ++ [144]) = 16%nat
  /\ Forall is_byte (144 :: replicate 14 0 ++ [144]).
Proof.
  assert (H : assemble ("ORG 15" +:+ LF +:+ "HLT" +:+ LF +:+ "HLT")
              = Ok (144 :: replicate 14 0 ++ [144])) by (vm_compute; reflexivity).
  split; [exact H|].
  destruct (image_and_counter_in_bounds _ _ H) as (H1 & H2 & _).
  split; assumption.
Defined.

(** ** Determinism *)

(** Under the table of the source and the default limit, the configured
    functions are the functions of the source. *)
Lemma first_pass_loop_under_default (lines : list string) :
  forall st : pass1,
    first_pass_loop_under PyInt.max_str_digits lines st
    = first_pass_loop lines st.
Proof.
  induction lines as [|line rest IH]; intros st; [reflexivity|].
  cbn [first_pass_loop_under first_pass_loop].
  change (first_pass_line_under PyInt.max_str_digits st line)
    with (first_pass_line st line).
  destruct (first_pass_line st line) as [st1|e]; [|reflexivity].
  cbn. apply IH.
Qed.

Lemma assemble_loop_under_default (L : gmap string Z) (ops : list operation) :
  forall st : list Z * Z,
    assemble_loop_under ISA PyInt.max_str_digits L ops st
    = assemble_loop L ops st.
Proof.
  induction ops as [|o rest IH]; intros st; [reflexivity|].
  cbn [assemble_loop_under assemble_loop].
  change (assemble_step_under ISA PyInt.max_str_digits L st o)
    with (assemble_step L st o).
  destruct (assemble_step L st o) as [st1|e]; [|reflexivity].
  cbn. apply IH.
Qed.

Lemma assemble_under_default (src : string) :
  assemble_under ISA PyInt.max_str_digits src = assemble src.
Proof.
  unfold assemble_under, assemble, assemble_run.
  rewrite first_pass_loop_under_default. unfold first_pass.
  destruct (first_pass_loop (tokenize src) _) as [st1|e]; [|reflexivity].
  cbn. rewrite assemble_loop_under_default. reflexivity.
Qed.

(** Frames. *)
Lemma frame_refl (ls : list nat) (p : process) : frame ls p p.
Proof. unfold frame. auto. Qed.

Lemma frame_trans (ls : list nat) (p q r : process) :
  frame ls p q -> frame ls q r -> frame ls p r.
Proof.
  intros (H1 & H2 & H3 & H4) (G1 & G2 & G3 & G4). unfold frame.
  split; [congruence|]. split; [congruence|]. split; [congruence|].
  intros l Hl. rewrite (G4 l Hl). apply H4, Hl.
Qed.

Lemma frame_weaken (ls ls' : list nat) (p q : process) :
  (forall l : nat, l ∈ ls -> l ∈ ls') -> frame ls p q -> frame ls' p q.
Proof.
  intros Hs (H1 & H2 & H3 & H4). unfold frame.
  split; [exact H1|]. split; [exact H2|]. split; [exact H3|].
  intros l Hl. apply H4. intros C. apply Hl, Hs, C.
Qed.

Lemma put_frame (l : nat) (o o0 : object) (p : process) :
  heap p !! l = Some o0 ->
  (Run.put l o p).1 = Ok tt
  /\ frame [l] p (Run.put l o p).2
  /\ heap (Run.put l o p).2 !! l = Some o.
Proof.
  intros H. apply lookup_lt_Some in H. unfold Run.put, frame. cbn.
  split; [reflexivity|]. split.
  - split; [reflexivity|]. split; [reflexivity|].
    split; [apply length_insert|].
    intros l' Hl'. apply list_lookup_insert_ne. intros ->. apply Hl'. left.
  - apply list_lookup_insert_eq, H.
Qed.

Lemma append_sim (O : nat) (o : operation) (l : list operation) (p : process) :
  heap p !! O = Some (Operations l) ->
  exists p' : process,
    Run.append O o p = (Ok tt, p')
    /\ frame [O] p p'
    /\ heap p' !! O = Some (Operations (l ++ [o])).
Proof.
  intros H. unfold Run.append, Run.bind, Run.operations_at, operations_of.
  rewrite H.
  destruct (put_frame O (Operations (l ++ [o])) _ p H) as (H1 & H2 & H3).
  destruct (Run.put O _ p) as [r p'] eqn:E. cbn in H1, H2, H3. subst r.
  exists p'. auto.
Qed.

Lemma frame_lookup (ls : list nat) (p q : process) (l : nat) (o : object) :
  frame ls p q -> l ∉ ls -> heap p !! l = Some o -> heap q !! l = Some o.
Proof. intros (_ & _ & _ & H) Hl Ho. rewrite (H l Hl). exact Ho. Qed.

Lemma not_elem_of_1 (a b : nat) : a <> b -> a ∉ [b].
Proof. intros H C. apply list_elem_of_singleton in C. contradiction. Qed.

(** Pass 1 in a process does what pass 1 does on the contents of the two
    objects at [L] and [O], and touches no other object. *)
Lemma first_pass_statement_sim (L O : nat) (k : Z) (d : gmap string Z)
    (o : list operation) (line : string) (p : process) :
  L <> O ->
  heap p !! L = Some (Labels d) -> heap p !! O = Some (Operations o) ->
  exists (r : result Z) (p' : process) (d' : gmap string Z)
         (o' : list operation),
    Run.first_pass_statement O k line p = (r, p')
    /\ frame [L; O] p p'
    /\ heap p' !! L = Some (Labels d') /\ heap p' !! O = Some (Operations o')
    /\ match first_pass_statement_under (int_max_str_digits p)
               (Pass1 k d o) line with
       | Ok st' => r = Ok (pc st') /\ labels st' = d' /\ out st' = o'
       | Err e => r = Err e
       end.
Proof.
  intros Hne HL HO.
  unfold Run.first_pass_statement, first_pass_statement_under.
  destruct (Str.split _) as [|t0 args].
  - exists (Err IndexError), p, d, o. unfold Run.raise.
    split; [reflexivity|]. split; [apply frame_refl|]. auto.
  - cbn [pc labels out].
    destruct (append_sim O (Str.upper t0, args, k) o p HO)
      as (p1 & Ha & Hf & HO1).
    assert (Hf' : frame [L; O] p p1).
    { eapply frame_weaken; [|exact Hf]. intros l Hl. right. exact Hl. }
    assert (HL1 : heap p1 !! L = Some (Labels d)).
    { eapply frame_lookup; [exact Hf| |exact HL]. apply not_elem_of_1, Hne. }
    unfold Run.bind at 1. rewrite Ha.
    destruct (String.eqb (Str.upper t0) "ORG").
    + destruct args as [|a rest].
      * exists (Err IndexError), p1, d, (o ++ [(Str.upper t0, [], k)]).
        unfold Run.raise. auto.
      * unfold Run.bind, Run.parse_number, Run.ret.
        destruct Hf as (_ & -> & _).
        destruct (parse_number_under (int_max_str_digits p) a) as [v|e].
        -- exists (Ok (Z.land v 15)), p1, d,
             (o ++ [(Str.upper t0, a :: rest, k)]).
           cbn. auto 10.
        -- exists (Err e), p1, d, (o ++ [(Str.upper t0, a :: rest, k)]).
           cbn. auto 10.
    + exists (Ok (Z.land (k + 1) 15)), p1, d, (o ++ [(Str.upper t0, args, k)]).
      unfold Run.ret. cbn. auto 10.
Qed.

Lemma first_pass_line_sim (L O : nat) (k : Z) (d : gmap string Z)
    (o : list operation) (line : string) (p : process) :
  L <> O ->
  heap p !! L = Some (Labels d) -> heap p !! O = Some (Operations o) ->
  exists (r : result Z) (p' : process) (d' : gmap string Z)
         (o' : list operation),
    Run.first_pass_line L O k line p = (r, p')
    /\ frame [L; O] p p'
    /\ heap p' !! L = Some (Labels d') /\ heap p' !! O = Some (Operations o')
    /\ match first_pass_line_under (int_max_str_digits p)
               (Pass1 k d o) line with
       | Ok st' => r = Ok (pc st') /\ labels st' = d' /\ out st' = o'
       | Err e => r = Err e
       end.
Proof.
  intros Hne HL HO. unfold Run.first_pass_line, first_pass_line_under.
  destruct (Str.contains ":" line);
    [|apply first_pass_statement_sim; assumption].
  cbn [pc labels out].
  set (lab := Str.strip (Str.before ":" line)).
  set (stmt := Str.strip (Str.after ":" line)).
  assert (Hd : exists (r : result unit) (p1 : process) (d1 : gmap string Z),
             (if Str.is_empty lab then Run.ret tt
              else Run.bind (Run.labels_at L)
                     (fun d0 => match d0 !! lab with
                                | Some _ => Run.raise (DuplicateLabel lab)
                                | None => Run.put L (Labels (<[lab := k]> d0))
                                end)) p = (r, p1)
             /\ frame [L; O] p p1
             /\ heap p1 !! L = Some (Labels d1)
             /\ heap p1 !! O = Some (Operations o)
             /\ match define_label d lab k with
                | Ok d2 => r = Ok tt /\ d1 = d2
                | Err e => r = Err e
                end).
  { unfold define_label. destruct (Str.is_empty lab).
    - exists (Ok tt), p, d. unfold Run.ret.
      split; [reflexivity|]. split; [apply frame_refl|]. auto.
    - unfold Run.bind, Run.labels_at, labels_of. rewrite HL.
      destruct (d !! lab) as [addr|].
      + exists (Err (DuplicateLabel lab)), p, d. unfold Run.raise.
        split; [reflexivity|]. split; [apply frame_refl|]. auto.
      + destruct (put_frame L (Labels (<[lab := k]> d)) _ p HL)
          as (H1 & H2 & H3).
        destruct (Run.put L _ p) as [r p1] eqn:E. cbn in H1, H2, H3. subst r.
        exists (Ok tt), p1, (<[lab := k]> d).
        split; [reflexivity|]. split.
        { eapply frame_weaken; [|exact H2]. intros l Hl.
          apply list_elem_of_singleton in Hl as ->. left. }
        split; [exact H3|]. split; [|auto].
        eapply frame_lookup; [exact H2| |exact HO].
        apply not_elem_of_1. congruence. }
  destruct Hd as (r & p1 & d1 & Hr & Hf1 & HL1 & HO1 & Hm).
  unfold Run.bind at 1. rewrite Hr.
  destruct (define_label d lab k) as [d2|e].
  - destruct Hm as [-> ->]. cbn.
    destruct (Str.is_empty stmt).
    + destruct (append_sim O ("NOPLINE", [], k) o p1 HO1)
        as (p2 & Ha & Hf2 & HO2).
      unfold Run.bind. rewrite Ha. unfold Run.ret.
      exists (Ok k), p2, d2, (o ++ [("NOPLINE", [], k)]).
      split; [reflexivity|]. split.
      { eapply frame_trans; [exact Hf1|].
        eapply frame_weaken; [|exact Hf2]. intros l Hl. right. exact Hl. }
      split.
      { eapply frame_lookup; [exact Hf2| |exact HL1].
        apply not_elem_of_1, Hne. }
      cbn. auto.
    + destruct (first_pass_statement_sim L O k d2 o stmt p1 Hne HL1 HO1)
        as (r & p2 & d' & o' & Hs & Hf2 & HL2 & HO2 & Hm).
      exists r, p2, d', o'. split; [exact Hs|].
      split; [eapply frame_trans; eassumption|].
      split; [exact HL2|]. split; [exact HO2|].
      destruct Hf1 as (_ & <- & _). exact Hm.
  - subst r. cbn. exists (Err e), p1, d1, o. auto.
Qed.

Lemma first_pass_loop_sim (L O : nat) (lines : list string) :
  forall (k : Z) (d : gmap string Z) (o : list operation) (p : process),
    L <> O ->
    heap p !! L = Some (Labels d) -> heap p !! O = Some (Operations o) ->
    exists (r : result Z) (p' : process) (d' : gmap string Z)
           (o' : list operation),
      Run.first_pass_loop L O lines k p = (r, p')
      /\ frame [L; O] p p'
      /\ heap p' !! L = Some (Labels d') /\ heap p' !! O = Some (Operations o')
      /\ match first_pass_loop_under (int_max_str_digits p) lines
                 (Pass1 k d o) with
         | Ok st' => r = Ok (pc st') /\ labels st' = d' /\ out st' = o'
         | Err e => r = Err e
         end.
Proof.
  induction lines as [|line rest IH]; intros k d o p Hne HL HO.
  - exists (Ok k), p, d, o. cbn. unfold Run.ret.
    split; [reflexivity|]. split; [apply frame_refl|]. auto.
  - cbn [Run.first_pass_loop first_pass_loop_under].
    destruct (first_pass_line_sim L O k d o line p Hne HL HO)
      as (r & p1 & d1 & o1 & Hs & Hf1 & HL1 & HO1 & Hm).
    unfold Run.bind. rewrite Hs.
    destruct (first_pass_line_under _ _ line) as [st1|e].
    + destruct Hm as (-> & <- & <-). cbn.
      destruct (IH (pc st1) (labels st1) (out st1) p1 Hne HL1 HO1)
        as (r & p2 & d2 & o2 & Hs2 & Hf2 & HL2 & HO2 & Hm2).
      exists r, p2, d2, o2. split; [exact Hs2|].
      split; [eapply frame_trans; eassumption|].
      split; [exact HL2|]. split; [exact HO2|].
      destruct Hf1 as (_ & <- & _). destruct st1. exact Hm2.
    + subst r. cbn. exists (Err e), p1, d1, o1. auto.
Qed.

(** The objects an allocation leaves in place. *)
Lemma new_spec (o : object) (p : process) :
  exists p' : process,
    Run.new o p = (Ok (length (heap p)), p')
    /\ module_ISA p' = module_ISA p
    /\ int_max_str_digits p' = int_max_str_digits p
    /\ heap p' = heap p ++ [o].
Proof. eexists. unfold Run.new. repeat split. Qed.

Lemma first_pass_sim (lines : list string) (p : process) :
  exists (r : result (nat * nat)) (p' : process),
    Run.first_pass lines p = (r, p')
    /\ module_ISA p' = module_ISA p
    /\ int_max_str_digits p' = int_max_str_digits p
    /\ length (heap p') = (length (heap p) + 2)%nat
    /\ (forall l : nat, (l < length (heap p))%nat -> heap p' !! l = heap p !! l)
    /\ match first_pass_loop_under (int_max_str_digits p) lines
               (Pass1 0 ∅ []) with
       | Ok st' =>
           r = Ok (length (heap p), S (length (heap p)))
           /\ heap p' !! length (heap p) = Some (Labels (labels st'))
           /\ heap p' !! S (length (heap p)) = Some (Operations (out st'))
       | Err e => r = Err e
       end.
Proof.
  set (L := length (heap p)). set (O := S L).
  set (p2 := Process (module_ISA p) (int_max_str_digits p)
               ((heap p ++ [Labels ∅]) ++ [Operations []])).
  assert (HL : heap p2 !! L = Some (Labels ∅)).
  { cbn. rewrite lookup_app_l by (rewrite length_app; cbn; lia).
    apply list_lookup_middle. reflexivity. }
  assert (HO : heap p2 !! O = Some (Operations [])).
  { cbn. apply list_lookup_middle. rewrite length_app. cbn. lia. }
  destruct (first_pass_loop_sim L O lines 0 ∅ [] p2 ltac:(lia) HL HO)
    as (r & p3 & d' & o' & Hs & (Hf1 & Hf2 & Hf3 & Hf4) & HL3 & HO3 & Hm).
  assert (Hrun : Run.first_pass lines p
                 = match r with
                   | Ok _ => (Ok (L, O), p3)
                   | Err e => (Err e, p3)
                   end).
  { unfold Run.first_pass, Run.bind, Run.new.
    cbn [heap module_ISA int_max_str_digits].
    rewrite length_app. cbn [length].
    replace (length (heap p) + 1)%nat with O by (unfold O, L; lia).
    fold L. fold p2. rewrite Hs. destruct r; reflexivity. }
  exists (match r with Ok _ => Ok (L, O) | Err e => Err e end), p3.
  split; [rewrite Hrun; destruct r; reflexivity|].
  split; [exact Hf1|]. split; [exact Hf2|].
  split; [rewrite Hf3; cbn; rewrite !length_app; cbn; lia|].
  split.
  - intros l Hl. rewrite Hf4.
    + cbn. rewrite !lookup_app_l; [reflexivity|lia|rewrite length_app; lia].
    + intros C. apply elem_of_cons in C as [->|C]; [unfold L in Hl; lia|].
      apply list_elem_of_singleton in C as ->. unfold O, L in Hl. lia.
  - change (int_max_str_digits p2) with (int_max_str_digits p) in Hm.
    destruct (first_pass_loop_under _ lines _) as [st'|e].
    + destruct Hm as (-> & -> & ->). auto.
    + subst r. reflexivity.
Qed.

(** Pass 2 in a process does what pass 2 does on the contents of the image
    at [M], given the label table at [L], and touches no other object. *)
Lemma store_sim (M : nat) (c : list Z) (i v : Z) (p : process) :
  heap p !! M = Some (Cells c) ->
  exists (r : result unit) (p' : process) (c' : list Z),
    Run.store M i v p = (r, p')
    /\ frame [M] p p'
    /\ heap p' !! M = Some (Cells c')
    /\ match store c i v with
       | Ok c2 => r = Ok tt /\ c' = c2
       | Err e => r = Err e
       end.
Proof.
  intros HM. unfold Run.store, Run.bind, Run.cells_at, Run.lift, cells_of.
  rewrite HM. destruct (store c i v) as [c2|e].
  - destruct (put_frame M (Cells c2) _ p HM) as (H1 & H2 & H3).
    destruct (Run.put M _ p) as [r p1] eqn:E. cbn in H1, H2, H3. subst r.
    exists (Ok tt), p1, c2. auto.
  - exists (Err e), p, c. split; [reflexivity|].
    split; [apply frame_refl|]. auto.
Qed.

Lemma operand_of_sim (L : nat) (d : gmap string Z) (a : string) (p : process) :
  heap p !! L = Some (Labels d) ->
  Run.operand_of L a p = (operand_of_under (int_max_str_digits p) d a, p).
Proof.
  intros HL.
  unfold Run.operand_of, operand_of_under, Run.bind, Run.labels_at, labels_of.
  rewrite HL. destruct (d !! a) as [addr|]; [reflexivity|].
  unfold Run.parse_number, Run.ret.
  destruct (parse_number_under _ a); reflexivity.
Qed.

Lemma assemble_step_sim (L M : nat) (k : Z) (d : gmap string Z) (c : list Z)
    (o : operation) (p : process) :
  L <> M ->
  heap p !! L = Some (Labels d) -> heap p !! M = Some (Cells c) ->
  exists (r : result Z) (p' : process) (c' : list Z),
    Run.assemble_step L M k o p = (r, p')
    /\ frame [M] p p'
    /\ heap p' !! M = Some (Cells c')
    /\ match assemble_step_under (module_ISA p) (int_max_str_digits p) d
               (c, k) o with
       | Ok st' => r = Ok st'.2 /\ c' = st'.1
       | Err e => r = Err e
       end.
Proof.
  intros Hne HL HM. destruct o as [[op args] at_pc].
  unfold Run.assemble_step, assemble_step_under.
  assert (Stay : forall r : result Z,
             exists (r0 : result Z) (p' : process) (c' : list Z),
               (r, p) = (r0, p') /\ frame [M] p p'
               /\ heap p' !! M = Some (Cells c')
               /\ match (v ← r; Ok (c, v)) with
                  | Ok st' => r0 = Ok st'.2 /\ c' = st'.1
                  | Err e => r0 = Err e
                  end).
  { intros r. exists r, p, c. split; [reflexivity|].
    split; [apply frame_refl|]. split; [exact HM|].
    destruct r; cbn; auto. }
  assert (Write : forall (r : result Z) (f : Z -> Z),
             exists (r0 : result Z) (p' : process) (c' : list Z),
               Run.bind (Run.lift r)
                 (fun v => Run.bind (Run.store M k (f v))
                             (fun _ => Run.ret (Z.land (k + 1) 15))) p
               = (r0, p')
               /\ frame [M] p p'
               /\ heap p' !! M = Some (Cells c')
               /\ match (v ← r; mem' ← store c k (f v);
                         Ok (mem', Z.land (k + 1) 15)) with
                  | Ok st' => r0 = Ok st'.2 /\ c' = st'.1
                  | Err e => r0 = Err e
                  end).
  { intros r f. unfold Run.bind at 1. unfold Run.lift.
    destruct r as [v|e]; cbn [mbind result_bind].
    - destruct (store_sim M c k (f v) p HM) as (r1 & p1 & c1 & Hs & Hf & HM1 & Hm).
      unfold Run.bind. rewrite Hs.
      destruct (store c k (f v)) as [c2|e].
      + destruct Hm as [-> ->]. exists (Ok (Z.land (k + 1) 15)), p1, c2.
        unfold Run.ret. cbn. auto.
      + subst r1. exists (Err e), p1, c1. cbn. auto.
    - exists (Err e), p, c. split; [reflexivity|].
      split; [apply frame_refl|]. cbn. auto. }
  destruct (String.eqb op "NOPLINE").
  { exact (Stay (Ok at_pc)). }
  destruct (String.eqb op "ORG").
  { destruct args as [|a rest]; [exact (Stay (Err IndexError))|].
    destruct (Stay (v ← parse_number_under (int_max_str_digits p) a;
                    Ok (Z.land v 15)))
      as (r0 & p' & c' & He & Hf & HM' & Hm).
    exists r0, p', c'. split.
    - rewrite <- He. unfold Run.bind, Run.parse_number, Run.ret.
      destruct (parse_number_under _ a); reflexivity.
    - split; [exact Hf|]. split; [exact HM'|].
      destruct (parse_number_under _ a); exact Hm. }
  destruct (String.eqb op "DATA").
  { destruct args as [|a rest]; [exact (Stay (Err IndexError))|].
    destruct (Write (parse_number_under (int_max_str_digits p) a)
                (fun v => Z.land v 255))
      as (r0 & p' & c' & He & Hf & HM' & Hm).
    exists r0, p', c'. split; [|auto].
    rewrite <- He. unfold Run.bind at 1 3. unfold Run.parse_number, Run.lift.
    reflexivity. }
  unfold Run.bind at 1. unfold Run.the_ISA.
  destruct (module_ISA p !! op) as [[opcode needs]|];
    [|exact (Stay (Err (UnknownInstruction op)))].
  destruct (Write (if needs
                   then match args with
                        | [] => Err (MissingOperand op k)
                        | a :: _ =>
                            operand_of_under (int_max_str_digits p) d a
                        end
                   else Ok 0)
              (fun operand =>
                 Z.lor (Z.shiftl (Z.land opcode 15) 4) (Z.land operand 15)))
    as (r0 & p' & c' & He & Hf & HM' & Hm).
  exists r0, p', c'. split; [|auto].
  rewrite <- He. unfold Run.bind at 1 3. unfold Run.lift.
  destruct needs; [|reflexivity].
  destruct args as [|a rest]; [reflexivity|].
  rewrite (operand_of_sim L d a p HL). reflexivity.
Qed.

Lemma assemble_loop_sim (L M : nat) (d : gmap string Z) (ops : list operation) :
  forall (k : Z) (c : list Z) (p : process),
    L <> M ->
    heap p !! L = Some (Labels d) -> heap p !! M = Some (Cells c) ->
    exists (r : result Z) (p' : process) (c' : list Z),
      Run.assemble_loop L M ops k p = (r, p')
      /\ frame [M] p p'
      /\ heap p' !! M = Some (Cells c')
      /\ match assemble_loop_under (module_ISA p) (int_max_str_digits p) d
                 ops (c, k) with
         | Ok st' => r = Ok st'.2 /\ c' = st'.1
         | Err e => r = Err e
         end.
Proof.
  induction ops as [|o rest IH]; intros k c p Hne HL HM.
  - exists (Ok k), p, c. cbn. unfold Run.ret.
    split; [reflexivity|]. split; [apply frame_refl|]. auto.
  - cbn [Run.assemble_loop assemble_loop_under].
    destruct (assemble_step_sim L M k d c o p Hne HL HM)
      as (r & p1 & c1 & Hs & Hf1 & HM1 & Hm).
    unfold Run.bind. rewrite Hs.
    destruct (assemble_step_under _ _ d (c, k) o) as [[c2 k2]|e].
    + destruct Hm as [-> ->]. cbn.
      assert (HL1 : heap p1 !! L = Some (Labels d)).
      { eapply frame_lookup; [exact Hf1| |exact HL].
        apply not_elem_of_1, Hne. }
      destruct (IH k2 c2 p1 Hne HL1 HM1) as (r & p2 & c3 & Hs2 & Hf2 & HM2 & Hm2).
      exists r, p2, c3. split; [exact Hs2|].
      split; [eapply frame_trans; eassumption|]. split; [exact HM2|].
      destruct Hf1 as (<- & <- & _). exact Hm2.
    + subst r. cbn. exists (Err e), p1, c1. auto.
Qed.

(** A run of [assemble] in a process: its outcome is that of the
    configured assembler, whatever the heap holds; the table and the limit
    are as before, and so is every object that was there. *)
Lemma assemble_sim (src : string) (p : process) :
  exists (r : result nat) (p' : process),
    Run.assemble src p = (r, p')
    /\ outcome (r, p')
       = assemble_under (module_ISA p) (int_max_str_digits p) src
    /\ module_ISA p' = module_ISA p
    /\ int_max_str_digits p' = int_max_str_digits p
    /\ forall (l : nat) (o : object),
        heap p !! l = Some o -> heap p' !! l = Some o.
Proof.
  set (M := length (heap p)).
  set (p1 := Process (module_ISA p) (int_max_str_digits p)
               (heap p ++ [Cells (replicate 16 0)])).
  assert (HM1 : heap p1 !! M = Some (Cells (replicate 16 0))).
  { cbn. apply list_lookup_middle. reflexivity. }
  assert (Hlen1 : length (heap p1) = S M).
  { cbn. rewrite length_app. cbn. unfold M. lia. }
  destruct (first_pass_sim (tokenize src) p1)
    as (r & p2 & Hs & Hi2 & Hl2 & Hlen2 & Hold2 & Hm).
  change (int_max_str_digits p1) with (int_max_str_digits p) in Hm, Hl2.
  change (module_ISA p1) with (module_ISA p) in Hi2.
  assert (Hstart : Run.assemble src p
                   = match Run.first_pass (tokenize src) p1 with
                     | (Ok r, p') =>
                         Run.bind (Run.operations_at r.2)
                           (fun lines =>
                              Run.bind (Run.assemble_loop r.1 M lines 0)
                                (fun _ => Run.ret M)) p'
                     | (Err e, p') => (Err e, p')
                     end) by reflexivity.
  rewrite Hs in Hstart.
  assert (Hold : forall (l : nat) (o : object),
             heap p !! l = Some o -> heap p2 !! l = Some o).
  { intros l o Ho. pose proof (lookup_lt_Some _ _ _ Ho) as Hl.
    rewrite Hold2 by (rewrite Hlen1; unfold M; lia).
    cbn. rewrite lookup_app_l by exact Hl. exact Ho. }
  unfold assemble_under.
  destruct (first_pass_loop_under _ (tokenize src) _) as [st1|e].
  - destruct Hm as (-> & HL2 & HO2). rewrite Hlen1 in HL2, HO2.
    assert (HM2 : heap p2 !! M = Some (Cells (replicate 16 0))).
    { rewrite Hold2 by (rewrite Hlen1; lia). exact HM1. }
    destruct (assemble_loop_sim (S M) M (labels st1) (out st1) 0
                (replicate 16 0) p2 ltac:(lia) HL2 HM2)
      as (r & p3 & c3 & Hs3 & (Hf1 & Hf2 & Hf3 & Hf4) & HM3 & Hm3).
    rewrite Hi2, Hl2 in Hm3.
    assert (Hrun : Run.assemble src p
                   = (match r with Ok _ => Ok M | Err e => Err e end, p3)).
    { rewrite Hstart. unfold Run.bind, Run.operations_at, operations_of.
      cbn [fst snd]. rewrite Hlen1, HO2, Hs3. destruct r; reflexivity. }
    exists (match r with Ok _ => Ok M | Err e => Err e end), p3.
    split; [exact Hrun|]. split.
    + cbn [mbind result_bind].
      destruct (assemble_loop_under _ _ (labels st1) (out st1) _) as [st2|e].
      * destruct Hm3 as [-> ->]. unfold outcome, cells_of. cbn.
        rewrite HM3. reflexivity.
      * subst r. reflexivity.
    + split; [congruence|]. split; [congruence|].
      intros l o Ho. pose proof (lookup_lt_Some _ _ _ Ho) as Hl.
      rewrite Hf4; [apply Hold, Ho|].
      apply not_elem_of_1. unfold M. lia.
  - subst r. exists (Err e), p2. split; [exact Hstart|].
    split; [reflexivity|]. split; [exact Hi2|]. split; [exact Hl2|].
    exact Hold.
Qed.

Lemma assemble_in_process (src : string) (p : process) :
  outcome (Run.assemble src p)
    = assemble_under (module_ISA p) (int_max_str_digits p) src
  /\ module_ISA (Run.assemble src p).2 = module_ISA p
  /\ int_max_str_digits (Run.assemble src p).2 = int_max_str_digits p
  /\ forall (l : nat) (o : object),
      heap p !! l = Some o -> heap (Run.assemble src p).2 !! l = Some o.
Proof.
  destruct (assemble_sim src p) as (r & p' & -> & H). exact H.
Qed.

Lemma runs_keep (srcs : list string) :
  forall p : process,
    module_ISA (runs srcs p) = module_ISA p
    /\ int_max_str_digits (runs srcs p) = int_max_str_digits p
    /\ forall (l : nat) (o : object),
        heap p !! l = Some o -> heap (runs srcs p) !! l = Some o.
Proof.
  induction srcs as [|src rest IH]; intros p; [cbn; auto|].
  cbn [runs]. destruct (assemble_in_process src p) as (_ & H1 & H2 & H3).
  destruct (IH (Run.assemble src p).2) as (G1 & G2 & G3).
  split; [congruence|]. split; [congruence|]. auto.
Qed.

(** C8: two runs of [assemble] on identical sources have identical
    outcomes: both return an image holding the same bytes, or both raise
    the same error.  In any process, a run on [src] and a later run on
    [src], any runs of the assembler in between, have the same outcome:
    a run creates its image, its label table and its operations anew,
    changes no object that was there (the images of earlier runs among
    them), and leaves the table [ISA] and the digit limit of the
    interpreter, which are all it reads of the process, as they were.  So
    have two runs in two processes that agree on that table and that
    limit, whatever their heaps hold.  Under the table of the source and
    the default limit the outcome is that of [assemble]: an image of 16
    bytes, or an error. *)
Theorem assemble_deterministic :
  forall (src : string) (between : list string) (p : process),
    outcome (Run.assemble src (runs (src :: between) p))
      = outcome (Run.assemble src p)
    /\ (forall p2 : process,
          module_ISA p2 = module_ISA p ->
          int_max_str_digits p2 = int_max_str_digits p ->
          outcome (Run.assemble src p2) = outcome (Run.assemble src p))
    /\ (module_ISA (Run.assemble src p).2 = module_ISA p
        /\ int_max_str_digits (Run.assemble src p).2 = int_max_str_digits p
        /\ forall (l : nat) (o : object),
            heap p !! l = Some o ->
            heap (Run.assemble src p).2 !! l = Some o)
    /\ (module_ISA p = ISA ->
        int_max_str_digits p = PyInt.max_str_digits ->
        outcome (Run.assemble src p) = assemble src
        /\ ((exists mem : list Z,
                assemble src = Ok mem
                /\ length mem = 16%nat /\ Forall is_byte mem)
            \/ (exists e : error, assemble src = Err e))).
Proof.
  intros src between p.
  destruct (assemble_in_process src p) as (Ho & Hi & Hl & Hh).
  assert (Same : forall p2 : process,
             module_ISA p2 = module_ISA p ->
             int_max_str_digits p2 = int_max_str_digits p ->
             outcome (Run.assemble src p2) = outcome (Run.assemble src p)).
  { intros p2 H1 H2. destruct (assemble_in_process src p2) as (Ho2 & _).
    rewrite Ho, Ho2, H1, H2. reflexivity. }
  split; [|split; [exact Same|split; [auto|]]].
  - destruct (runs_keep (src :: between) p) as (H1 & H2 & _).
    apply Same; assumption.
  - intros H1 H2. rewrite Ho, H1, H2, assemble_under_default.
    split; [reflexivity|].
    destruct (assemble src) as [mem|e] eqn:E; [left|right; eauto].
    exists mem. destruct (assemble_returns_image src mem E).
    repeat split; assumption.
Qed.

(** [JUMP end / HLT / end: HLT] in the process as the interpreter starts
    it, and in a process whose heap holds an image and a label table
    already. *)
Lemma assemble_deterministic_witness :
  outcome (Run.assemble ("JUMP end" +:+ LF +:+ "HLT" +:+ LF +:+ "end: HLT")
             (Process ISA PyInt.max_str_digits
                [Cells [1; 2; 3]; Labels {["end" := 7]}]))
    = Ok (130 :: 144 :: 144 :: replicate 13 0)
  /\ outcome (Run.assemble ("JUMP end" +:+ LF +:+ "HLT" +:+ LF +:+ "end: HLT")
                fresh_process)
     = Ok (130 :: 144 :: 144 :: replicate 13 0)
  /\ assemble ("JUMP end" +:+ LF +:+ "HLT" +:+ LF +:+ "end: HLT")
     = Ok (130 :: 144 :: 144 :: replicate 13 0).
Proof.
  destruct (assemble_deterministic
              ("JUMP end" +:+ LF +:+ "HLT" +:+ LF +:+ "end: HLT") []
              fresh_process) as (_ & Same & _ & Hd).
  destruct (Hd eq_refl eq_refl) as [He _].
  rewrite (Same (Process ISA PyInt.max_str_digits
                   [Cells [1; 2; 3]; Labels {["end" := 7]}])
             eq_refl eq_refl).
  rewrite He.
  assert (H : assemble ("JUMP end" +:+ LF +:+ "HLT" +:+ LF +:+ "end: HLT")
              = Ok (130 :: 144 :: 144 :: replicate 13 0))
    by (vm_compute; reflexivity).
  split; [exact H|]. split; exact H.
Defined.

(** The table and the limit are read: [NOP] assembles once the table has
    it, and a decimal literal of 4301 digits once the limit is off. *)
Example table_and_limit_are_read :
  outcome (Run.assemble "NOP" fresh_process) = Err (UnknownInstruction "NOP")
  /\ outcome (Run.assemble "NOP"
                (Process (<["NOP" := (0, false)]> ISA) PyInt.max_str_digits []))
     = Ok (replicate 16 0)
  /\ outcome (Run.assemble
                ("DATA " +:+ String.string_of_list_ascii (repeat "1"%char 4301))
                fresh_process)
     = Err (InvalidNumericLiteral
              (String.string_of_list_ascii (repeat "1"%char 4301)))
  /\ outcome (Run.assemble
                ("DATA " +:+ String.string_of_list_ascii (repeat "1"%char 4301))
                (Process ISA 0 []))
     = Ok (199 :: replicate 15 0).
Proof.
  split; [vm_compute; reflexivity|]. split; [vm_compute; reflexivity|].
  split; vm_compute; reflexivity.
Qed.

(** ** Failures of pass 1 *)

Lemma parse_number_error (tok : string) (e : error) :
  parse_number tok = Err e -> e = InvalidNumericLiteral (Str.strip tok).
Proof.
  unfold parse_number, int_of. intros He.
  repeat match type of He with
         | (if ?b then _ else _) = _ => destruct b
         | match ?o with Some _ => _ | None => _ end = _ => destruct o
         end; congruence.
Qed.

Lemma define_label_named (labels : gmap string Z) (lab : string) (pc : Z) :
  Str.is_empty lab = false ->
  define_label labels lab pc =
    match labels !! lab with
    | Some _ => Err (DuplicateLabel lab)
    | None => Ok (<[lab := pc]> labels)
    end.
Proof. intros H. unfold define_label. rewrite H. reflexivity. Qed.

(** The loop body of [first_pass], read through [label_of] and
    [statement_of]. *)
Lemma first_pass_line_eq (st : pass1) (line : string) :
  first_pass_line st line =
    (labels' ← match label_of line with
               | Some lab =>
                   match labels st !! lab with
                   | Some _ => Err (DuplicateLabel lab)
                   | None => Ok (<[lab := pc st]> (labels st))
                   end
               | None => Ok (labels st)
               end;
     match statement_of line with
     | None => Ok (Pass1 (pc st) labels' (out st ++ [("NOPLINE", [], pc st)]))
     | Some stmt => first_pass_statement (Pass1 (pc st) labels' (out st)) stmt
     end).
Proof.
  unfold first_pass_line, label_of, statement_of.
  destruct (Str.contains ":" line).
  - destruct (Str.is_empty (Str.strip (Str.before ":" line))) eqn:El.
    + unfold define_label. rewrite El. cbn.
      destruct (Str.is_empty (Str.strip (Str.after ":" line))); reflexivity.
    + rewrite (define_label_named _ _ _ El).
      destruct (labels st !! _); cbn; [reflexivity|].
      destruct (Str.is_empty (Str.strip (Str.after ":" line))); reflexivity.
  - cbn. destruct st; reflexivity.
Qed.

Lemma first_pass_statement_labels (st st' : pass1) (stmt : string) :
  first_pass_statement st stmt = Ok st' -> labels st' = labels st.
Proof.
  unfold first_pass_statement. intros H.
  destruct (Str.split _) as [|t0 args]; [discriminate|].
  destruct (String.eqb _ _).
  - destruct args as [|a ?]; [discriminate|].
    destruct (parse_number a); [|discriminate]. cbn in H.
    injection H as <-. reflexivity.
  - injection H as <-. reflexivity.
Qed.

Lemma first_pass_statement_error (st : pass1) (stmt : string) (e : error) :
  first_pass_statement st stmt = Err e ->
  match tokens stmt with
  | [] => e = IndexError
  | t0 :: args =>
      String.eqb (Str.upper t0) "ORG" = true
      /\ match args with
         | [] => e = IndexError
         | a :: _ => parse_number a = Err e
                     /\ e = InvalidNumericLiteral (Str.strip a)
         end
  end.
Proof.
  unfold first_pass_statement, tokens. intros H.
  destruct (Str.split _) as [|t0 args]; [congruence|].
  destruct (String.eqb _ _); [|discriminate]. split; [reflexivity|].
  destruct args as [|a ?]; [congruence|].
  destruct (parse_number a) as [v|e'] eqn:E; [discriminate|]. cbn in H.
  injection H as <-. split; [reflexivity|]. apply parse_number_error, E.
Qed.

(** What a failure of one line of pass 1 can be. *)
Lemma first_pass_line_error (st : pass1) (line : string) (e : error) :
  first_pass_line st line = Err e ->
  (exists name : string,
      e = DuplicateLabel name /\ label_of line = Some name
      /\ is_Some (labels st !! name))
  \/ (exists stmt : string,
      statement_of line = Some stmt
      /\ match tokens stmt with
         | [] => e = IndexError
         | t0 :: args =>
             String.eqb (Str.upper t0) "ORG" = true
             /\ match args with
                | [] => e = IndexError
                | a :: _ => parse_number a = Err e
                            /\ e = InvalidNumericLiteral (Str.strip a)
                end
         end).
Proof.
  rewrite first_pass_line_eq. intros H.
  destruct (label_of line) as [lab|].
  - destruct (labels st !! lab) as [addr|] eqn:El; cbn in H.
    + left. exists lab. injection H as <-. rewrite El. eauto.
    + right. destruct (statement_of line) as [stmt|]; [|discriminate].
      exists stmt. split; [reflexivity|].
      eapply first_pass_statement_error, H.
  - cbn in H. right. destruct (statement_of line) as [stmt|]; [|discriminate].
    exists stmt. split; [reflexivity|]. eapply first_pass_statement_error, H.
Qed.

(** The label table after a line that did not fail. *)
Lemma first_pass_line_labels (st st' : pass1) (line : string) :
  first_pass_line st line = Ok st' ->
  match label_of line with
  | Some lab => labels st !! lab = None /\ labels st' = <[lab := pc st]> (labels st)
  | None => labels st' = labels st
  end.
Proof.
  rewrite first_pass_line_eq. intros H.
  destruct (label_of line) as [lab|].
  - destruct (labels st !! lab) as [addr|] eqn:El; cbn in H; [discriminate|].
    split; [reflexivity|].
    destruct (statement_of line) as [stmt|].
    + apply first_pass_statement_labels in H. exact H.
    + injection H as <-. reflexivity.
  - cbn in H. destruct (statement_of line) as [stmt|].
    + apply first_pass_statement_labels in H. exact H.
    + injection H as <-. reflexivity.
Qed.

Lemma first_pass_line_keeps (st st' : pass1) (line name : string) :
  first_pass_line st line = Ok st' ->
  is_Some (labels st !! name) -> is_Some (labels st' !! name).
Proof.
  intros H Hn. apply first_pass_line_labels in H.
  destruct (label_of line) as [lab|].
  - destruct H as [_ ->]. rewrite lookup_insert_is_Some. 
    destruct (decide (lab = name)); [left; assumption|right; split; assumption].
  - rewrite H. exact Hn.
Qed.

Lemma first_pass_eq (lines : list string) :
  first_pass lines =
    match first_pass_loop lines (Pass1 0 ∅ []) with
    | Ok st => Ok (labels st, out st)
    | Err e => Err e
    end.
Proof. reflexivity. Qed.

(** ** Duplicate labels *)

Lemma defined_twice_tail (line : string) (rest : list string) (name : string) :
  defined_twice rest name -> defined_twice (line :: rest) name.
Proof.
  intros (i & j & li & lj & Hij & Hi & Hj & Hli & Hlj).
  exists (S i), (S j), li, lj. repeat split; try assumption. lia.
Qed.

Lemma defined_twice_head (line : string) (rest : list string) (name : string)
    (j : nat) (lj : string) :
  label_of line = Some name -> rest !! j = Some lj -> label_of lj = Some name ->
  defined_twice (line :: rest) name.
Proof.
  intros Hl Hj Hlj. exists 0%nat, (S j), line, lj.
  repeat split; try assumption. lia.
Qed.

(** A [DuplicateLabel] names a label that the table holds and a later line
    defines again, or one that two of the lines define. *)
Lemma first_pass_loop_duplicate (lines : list string) :
  forall (st : pass1) (name : string),
    first_pass_loop lines st = Err (DuplicateLabel name) ->
    (is_Some (labels st !! name)
     /\ exists (j : nat) (lj : string),
         lines !! j = Some lj /\ label_of lj = Some name)
    \/ defined_twice lines name.
Proof.
  induction lines as [|line rest IH]; intros st name H; cbn in H;
    [discriminate|].
  destruct (first_pass_line st line) as [st1|e1] eqn:E; cbn in H.
  - destruct (IH _ _ H) as [[Hs (j & lj & Hj & Hlj)]|Ht].
    + apply first_pass_line_labels in E.
      destruct (label_of line) as [lab|] eqn:El.
      * destruct E as [_ E]. rewrite E in Hs.
        apply lookup_insert_is_Some in Hs as [->|[_ Hs]].
        -- right. eapply defined_twice_head; eassumption.
        -- left. split; [exact Hs|]. exists (S j), lj. split; assumption.
      * rewrite E in Hs. left. split; [exact Hs|].
        exists (S j), lj. split; assumption.
    + right. apply defined_twice_tail, Ht.
  - injection H as ->.
    apply first_pass_line_error in E as [(n & Hn & Hl & Hs)|(stmt & _ & Ht)].
    + injection Hn as <-. left. split; [exact Hs|].
      exists 0%nat, line. split; [reflexivity|exact Hl].
    + destruct (tokens stmt) as [|t0 args]; [discriminate|].
      destruct Ht as [_ Ht]. destruct args as [|a ?]; [discriminate|].
      destruct Ht as [_ Ht]. discriminate.
Qed.

(** Pass 1 cannot get past a line that defines a label of the table. *)
Lemma first_pass_loop_redefinition (lines : list string) :
  forall (st : pass1) (name : string) (j : nat) (lj : string),
    is_Some (labels st !! name) ->
    lines !! j = Some lj -> label_of lj = Some name ->
    is_ok (first_pass_loop lines st) = false.
Proof.
  induction lines as [|line rest IH]; intros st name j lj Hs Hj Hlj;
    [discriminate|].
  cbn. destruct (first_pass_line st line) as [st1|e1] eqn:E; cbn;
    [|reflexivity].
  destruct j as [|j]; cbn in Hj.
  - injection Hj as ->. rewrite first_pass_line_eq, Hlj in E.
    destruct Hs as [addr Hs]. rewrite Hs in E. discriminate.
  - eapply IH; [|exact Hj|exact Hlj].
    eapply first_pass_line_keeps; eassumption.
Qed.

Lemma first_pass_loop_twice (lines : list string) (name : string) :
  defined_twice lines name ->
  forall st : pass1, is_ok (first_pass_loop lines st) = false.
Proof.
  intros (i & j & li & lj & Hij & Hi & Hj & Hli & Hlj).
  revert i j Hij Hi Hj.
  induction lines as [|line rest IH]; intros i j Hij Hi Hj st;
    [discriminate|].
  cbn. destruct (first_pass_line st line) as [st1|e1] eqn:E; cbn;
    [|reflexivity].
  destruct j as [|j]; [lia|]. cbn in Hj. destruct i as [|i]; cbn in Hi.
  - injection Hi as ->. apply first_pass_line_labels in E.
    rewrite Hli in E. destruct E as [_ E].
    eapply first_pass_loop_redefinition; [|exact Hj|exact Hlj].
    rewrite E, lookup_insert_eq. eauto.
  - apply (IH i j); [lia|assumption|assumption].
Qed.

Lemma first_pass_loop_runs (lines : list string) :
  forall (st : pass1) (e : error),
    Forall (fun line => statement_runs line = true) lines ->
    first_pass_loop lines st = Err e ->
    exists name : string, e = DuplicateLabel name.
Proof.
  induction lines as [|line rest IH]; intros st e Hr H; cbn in H;
    [discriminate|].
  apply Forall_cons in Hr as [Hl Hr].
  destruct (first_pass_line st line) as [st1|e1] eqn:E; cbn in H.
  - eapply IH; eassumption.
  - injection H as <-.
    apply first_pass_line_error in E as [(name & -> & _)|(stmt & Hs & Ht)];
      [eauto|].
    unfold statement_runs in Hl. rewrite Hs in Hl.
    destruct (tokens stmt) as [|t0 args]; [discriminate|].
    destruct Ht as [Ho Ht]. rewrite Ho in Hl.
    destruct args as [|a ?]; [discriminate|]. destruct Ht as [Ht _].
    rewrite Ht in Hl. discriminate.
Qed.

(** C7 (as the code has it): when pass 1 raises [DuplicateLabel name], two
    different lines define [name]; so without a label defined twice there is
    no [DuplicateLabel].  When two different lines define the same label,
    pass 1 does not return; and if moreover no statement can fail (every
    subscript in range, every [ORG] argument a numeric literal), its failure
    is a [DuplicateLabel] that names a label defined twice, which is that
    label whenever it is the only one. *)
Theorem duplicate_label_exactly_when_defined_twice :
  forall lines : list string,
    (forall name : string,
        first_pass lines = Err (DuplicateLabel name) ->
        defined_twice lines name)
    /\ ((forall name : string, ~ defined_twice lines name) ->
        forall name : string, first_pass lines <> Err (DuplicateLabel name))
    /\ (forall name : string,
        defined_twice lines name ->
        is_ok (first_pass lines) = false
        /\ (Forall (fun line => statement_runs line = true) lines ->
            exists other : string,
              first_pass lines = Err (DuplicateLabel other)
              /\ defined_twice lines other
              /\ ((forall n : string, defined_twice lines n -> n = name) ->
                  other = name))).
Proof.
  intros lines.
  assert (A : forall name, first_pass lines = Err (DuplicateLabel name) ->
                           defined_twice lines name).
  { intros name H. rewrite first_pass_eq in H.
    destruct (first_pass_loop lines _) as [st|e] eqn:E; [discriminate|].
    injection H as ->.
    apply first_pass_loop_duplicate in E as [[[addr Hs] _]|Ht]; [|exact Ht].
    cbn in Hs. rewrite lookup_empty in Hs. discriminate. }
  split; [exact A|]. split.
  { intros Hn name H. exact (Hn name (A name H)). }
  intros name Ht.
  pose proof (first_pass_loop_twice lines name Ht (Pass1 0 ∅ [])) as Hf.
  split.
  { rewrite first_pass_eq. destruct (first_pass_loop lines _); [discriminate|].
    reflexivity. }
  intros Hr.
  destruct (first_pass_loop lines (Pass1 0 ∅ [])) as [st|e] eqn:E;
    [discriminate|].
  destruct (first_pass_loop_runs _ _ _ Hr E) as [other ->].
  assert (Hfp : first_pass lines = Err (DuplicateLabel other))
    by (rewrite first_pass_eq, E; reflexivity).
  exists other. split; [exact Hfp|]. split; [exact (A other Hfp)|].
  intros Hu. exact (Hu other (A other Hfp)).
Qed.

Lemma duplicate_label_exactly_when_defined_twice_witness :
  defined_twice ["loop: LDA 14"; "HLT"; "loop: ADD"] "loop"
  /\ Forall (fun line => statement_runs line = true)
       ["loop: LDA 14"; "HLT"; "loop: ADD"]
  /\ first_pass ["loop: LDA 14"; "HLT"; "loop: ADD"]
     = Err (DuplicateLabel "loop").
Proof.
  assert (Ht : defined_twice ["loop: LDA 14"; "HLT"; "loop: ADD"] "loop").
  { exists 0%nat, 2%nat, "loop: LDA 14", "loop: ADD".
    repeat split; [lia|vm_compute; reflexivity..]. }
  assert (Hr : Forall (fun line => statement_runs line = true)
                 ["loop: LDA 14"; "HLT"; "loop: ADD"])
    by (repeat constructor).
  split; [exact Ht|]. split; [exact Hr|].
  destruct (duplicate_label_exactly_when_defined_twice
              ["loop: LDA 14"; "HLT"; "loop: ADD"]) as (_ & _ & H).
  destruct (H "loop" Ht) as [_ H']. destruct (H' Hr) as (other & Ho & _ & _).
  rewrite Ho. vm_compute in Ho. injection Ho as <-. reflexivity.
Defined.

(** C7 as stated fails: [a] is defined on two lines, yet pass 1 fails on the
    [ORG] before them, with another error. *)
Lemma duplicate_label_preempted :
  tokenize ("ORG zz" +:+ LF +:+ "a:" +:+ LF +:+ "a:") = ["ORG zz"; "a:"; "a:"]
  /\ defined_twice ["ORG zz"; "a:"; "a:"] "a"
  /\ first_pass ["ORG zz"; "a:"; "a:"] = Err (InvalidNumericLiteral "zz")
  /\ first_pass ["ORG zz"; "a:"; "a:"] <> Err (DuplicateLabel "a").
Proof.
  split; [vm_compute; reflexivity|]. split.
  { exists 1%nat, 2%nat, "a:", "a:".
    repeat split; [lia|vm_compute; reflexivity..]. }
  assert (H : first_pass ["ORG zz"; "a:"; "a:"] = Err (InvalidNumericLiteral "zz"))
    by (vm_compute; reflexivity).
  split; [exact H|]. rewrite H. discriminate.
Qed.

(** ** Outcomes of pass 1 *)

Lemma first_pass_loop_errors (lines : list string) :
  forall (st : pass1) (e : error),
    Forall (fun line => has_operands line = true) lines ->
    first_pass_loop lines st = Err e ->
    (exists name : string, e = DuplicateLabel name)
    \/ (exists line a : string,
          line ∈ lines /\ org_argument line = Some a
          /\ is_ok (parse_number a) = false
          /\ e = InvalidNumericLiteral (Str.strip a)).
Proof.
  induction lines as [|line rest IH]; intros st e Hw H; cbn in H;
    [discriminate|].
  apply Forall_cons in Hw as [Hl Hw].
  destruct (first_pass_line st line) as [st1|e1] eqn:E; cbn in H.
  - destruct (IH _ _ Hw H) as [Hd|(l & a & Hin & Ha & Hp & He)];
      [left; exact Hd|].
    right. exists l, a. split; [right; exact Hin|]. split; [exact Ha|].
    split; assumption.
  - injection H as <-.
    apply first_pass_line_error in E as [(name & -> & _)|(stmt & Hs & Ht)];
      [left; eauto|].
    right. unfold has_operands in Hl. rewrite Hs in Hl.
    destruct (tokens stmt) as [|t0 args] eqn:Et; [discriminate|].
    destruct Ht as [Ho Ht]. rewrite Ho in Hl.
    destruct args as [|a rest']; [discriminate|]. destruct Ht as [Hp ->].
    exists line, a. split; [left|]. split.
    + unfold org_argument. rewrite Hs, Et, Ho. reflexivity.
    + split; [rewrite Hp; reflexivity|reflexivity].
Qed.

(** A line whose [ORG] has an argument [parse_number] rejects fails. *)
Lemma first_pass_line_bad_org (st : pass1) (line a : string) :
  org_argument line = Some a -> is_ok (parse_number a) = false ->
  is_ok (first_pass_line st line) = false.
Proof.
  unfold org_argument. intros Ha Hp. rewrite first_pass_line_eq.
  destruct (statement_of line) as [stmt|]; [|discriminate].
  destruct (match label_of line with Some _ => _ | None => _ end)
    as [labels'|]; [|reflexivity].
  cbn. unfold first_pass_statement. unfold tokens in Ha.
  destruct (Str.split _) as [|t0 [|a' rest]]; try discriminate.
  destruct (String.eqb (Str.upper t0) "ORG"); [|discriminate].
  injection Ha as ->. destruct (parse_number a); [discriminate|reflexivity].
Qed.

Lemma first_pass_loop_bad_org (lines : list string) :
  forall (st : pass1) (line a : string),
    line ∈ lines -> org_argument line = Some a ->
    is_ok (parse_number a) = false ->
    is_ok (first_pass_loop lines st) = false.
Proof.
  induction lines as [|l rest IH]; intros st line a Hin Ha Hp;
    [inversion Hin|].
  cbn. destruct (first_pass_line st l) as [st1|e1] eqn:E; [|reflexivity].
  cbn. apply elem_of_cons in Hin as [<-|Hin].
  - pose proof (first_pass_line_bad_org st line a Ha Hp) as C.
    rewrite E in C. discriminate.
  - eapply IH; eassumption.
Qed.

(** C2 (as the code has it): on lines whose subscripts are in range (every
    statement has a first token, every [ORG] an argument), pass 1 returns the
    label table and the operations, or fails with [DuplicateLabel] naming a
    label that two lines define, or fails with [InvalidNumericLiteral]
    carrying the stripped argument of an [ORG] of the source that
    [parse_number] rejects: [ORG] parses its argument in pass 1 already.
    And whenever the argument of some [ORG] is rejected by [parse_number],
    pass 1 does not return. *)
Theorem first_pass_outcomes :
  forall lines : list string,
    Forall (fun line => has_operands line = true) lines ->
    ((exists (labels : gmap string Z) (ops : list operation),
         first_pass lines = Ok (labels, ops))
     \/ (exists name : string,
         first_pass lines = Err (DuplicateLabel name)
         /\ defined_twice lines name)
     \/ (exists line a : string,
         line ∈ lines /\ org_argument line = Some a
         /\ is_ok (parse_number a) = false
         /\ first_pass lines = Err (InvalidNumericLiteral (Str.strip a))))
    /\ (forall line a : string,
          line ∈ lines -> org_argument line = Some a ->
          is_ok (parse_number a) = false ->
          is_ok (first_pass lines) = false).
Proof.
  intros lines Hw. split.
  - rewrite first_pass_eq.
    destruct (first_pass_loop lines _) as [st|e] eqn:E; [left; eauto|].
    right.
    destruct (first_pass_loop_errors _ _ _ Hw E)
      as [[n ->]|(line & a & Hin & Ha & Hp & ->)].
    + left. exists n. split; [reflexivity|].
      apply first_pass_loop_duplicate in E as [[[addr Hl] _]|Hd]; [|exact Hd].
      cbn in Hl. rewrite lookup_empty in Hl. discriminate.
    + right. exists line, a. repeat split; assumption.
  - intros line a Hin Ha Hp. rewrite first_pass_eq.
    pose proof (first_pass_loop_bad_org lines (Pass1 0 ∅ []) line a Hin Ha Hp)
      as C.
    destruct (first_pass_loop lines _); [discriminate|reflexivity].
Qed.

Lemma first_pass_outcomes_witness :
  Forall (fun line => has_operands line = true) ["loop: LDA 14"; "ORG 0b2"]
  /\ first_pass ["loop: LDA 14"; "ORG 0b2"] = Err (InvalidNumericLiteral "0b2").
Proof.
  assert (Hw : Forall (fun line => has_operands line = true)
                 ["loop: LDA 14"; "ORG 0b2"])
    by (repeat constructor).
  split; [exact Hw|].
  destruct (first_pass_outcomes _ Hw) as [[(l & o & H)|[(n & H & _)|H]] _].
  - vm_compute in H. discriminate.
  - vm_compute in H. discriminate.
  - destruct H as (line & a & _ & _ & _ & _). vm_compute. reflexivity.
Defined.

(** C2 as stated fails: a malformed [ORG] argument makes pass 1 itself fail,
    and not with [DuplicateLabel]. *)
Lemma first_pass_fails_on_bad_org :
  tokenize ("ORG zz" +:+ LF +:+ "HLT") = ["ORG zz"; "HLT"]
  /\ first_pass (tokenize ("ORG zz" +:+ LF +:+ "HLT"))
     = Err (InvalidNumericLiteral "zz")
  /\ ~ ((exists (labels : gmap string Z) (ops : list operation),
           first_pass (tokenize ("ORG zz" +:+ LF +:+ "HLT")) = Ok (labels, ops))
        \/ (exists name : string,
           first_pass (tokenize ("ORG zz" +:+ LF +:+ "HLT"))
             = Err (DuplicateLabel name))).
Proof.
  assert (H : first_pass (tokenize ("ORG zz" +:+ LF +:+ "HLT"))
              = Err (InvalidNumericLiteral "zz")) by (vm_compute; reflexivity).
  split; [vm_compute; reflexivity|]. split; [exact H|].
  rewrite H. intros [(l & o & C)|(n & C)]; discriminate.
Qed.

(** ** Numeric literals *)

Ltac by_chars c :=
  destruct c as [[] [] [] [] [] [] [] []]; vm_compute; intros;
  try discriminate; try reflexivity; auto.

Lemma digit_below_2_is_bit (c : ascii) :
  (Char.digit_value c <? 2) = Char.is_bit c.
Proof. by_chars c. Qed.

Lemma bit_lower (c : ascii) : Char.is_bit c = true -> Char.lower c = c.
Proof. by_chars c. Qed.

Lemma lower_is_0 (c : ascii) : Char.lower c = "0"%char -> c = "0"%char.
Proof. by_chars c. Qed.

Lemma lower_is_b (c : ascii) :
  Char.lower c = "b"%char -> c = "b"%char \/ c = "B"%char.
Proof. by_chars c. Qed.

Lemma underscore_no_digit (c : ascii) (base : Z) :
  base <= 36 -> (Char.digit_value c <? base) = true -> Ascii.eqb c "_" = false.
Proof.
  intros Hb Hd. destruct (Ascii.eqb_spec c "_") as [->|]; [|reflexivity].
  apply Z.ltb_lt in Hd. change (Char.digit_value "_") with 37 in Hd. lia.
Qed.

Lemma rstrip_idem (s : string) : Str.rstrip (Str.rstrip s) = Str.rstrip s.
Proof.
  induction s as [|c r IH]; [reflexivity|]. cbn.
  destruct (Str.rstrip r) as [|c' r'] eqn:E.
  - destruct (Char.isspace c) eqn:Ec; cbn; [reflexivity|]. rewrite Ec.
    reflexivity.
  - cbn. cbn in IH. rewrite IH. reflexivity.
Qed.

Lemma lstrip_head (s : string) (c : ascii) (r : string) :
  Str.lstrip s = String c r -> Char.isspace c = false.
Proof.
  induction s as [|c0 r0 IH]; cbn; [discriminate|].
  destruct (Char.isspace c0) eqn:E; [exact IH|]. intros [= <- <-]. exact E.
Qed.

Lemma rstrip_head (c : ascii) (r : string) :
  Char.isspace c = false -> exists r', Str.rstrip (String c r) = String c r'.
Proof.
  intros E. cbn. destruct (Str.rstrip r); rewrite ?E; eauto.
Qed.

Lemma strip_idem (s : string) : Str.strip (Str.strip s) = Str.strip s.
Proof.
  unfold Str.strip. destruct (Str.lstrip s) as [|c r] eqn:E; [reflexivity|].
  apply lstrip_head in E.
  destruct (rstrip_head c r E) as [r' Hr]. rewrite Hr.
  assert (Hl : Str.lstrip (String c r') = String c r') by (cbn; rewrite E; reflexivity).
  rewrite Hl, <- Hr. apply rstrip_idem.
Qed.

Lemma startswith_2 (a b : ascii) (t : string) :
  Str.startswith (String a (String b EmptyString)) t = true ->
  exists r : string, t = String a (String b r).
Proof.
  unfold Str.startswith. destruct t as [|c0 [|c1 r]]; cbn; try discriminate.
  - destruct (ascii_dec a c0); discriminate.
  - destruct (ascii_dec a c0) as [<-|]; [|discriminate].
    destruct (ascii_dec b c1) as [<-|]; [|discriminate]. eauto.
Qed.

Lemma startswith_0b_lower (t : string) :
  Str.startswith "0b" (Str.lower t) = true ->
  exists body : string, t = "0b" +:+ body \/ t = "0B" +:+ body.
Proof.
  intros H. apply startswith_2 in H as [r Hr].
  destruct t as [|c0 [|c1 body]]; try discriminate.
  cbn in Hr. injection Hr as H0 H1 _.
  apply lower_is_0 in H0 as ->. exists body.
  apply lower_is_b in H1 as [-> | ->]; [left|right]; reflexivity.
Qed.

(** [int()] on a digit string: all digits of the base, at least one. *)
Lemma scan_digits (base : Z) (ds : string) :
  base <= 36 ->
  Str.all (fun c => Char.digit_value c <? base) ds = true ->
  forall acc : Z,
    PyInt.scan base false acc ds = Some (digits_value base acc ds).
Proof.
  intros Hb. induction ds as [|c r IH]; intros Hd acc; [reflexivity|].
  cbn in Hd. apply andb_true_iff in Hd as [Hc Hr]. cbn.
  rewrite (underscore_no_digit c base Hb Hc), Hc. apply IH, Hr.
Qed.

(** [int(_, 2)] rejects digits that hold a character other than a binary
    digit or an underscore. *)
Lemma scan_rejects (body : string) :
  Str.all (fun c => Char.is_bit c || Ascii.eqb c "_") body = false ->
  forall (prev_us : bool) (acc : Z), PyInt.scan 2 prev_us acc body = None.
Proof.
  induction body as [|c r IH]; intros H prev_us acc; [discriminate|].
  cbn in H. cbn. destruct (Ascii.eqb c "_") eqn:Eu.
  - rewrite orb_true_r in H. cbn in H. destruct prev_us; [reflexivity|].
    apply IH, H.
  - rewrite digit_below_2_is_bit. rewrite orb_false_r in H.
    destruct (Char.is_bit c); [|reflexivity]. cbn in H. apply IH, H.
Qed.

Lemma pyint_isspace_isspace (c : ascii) :
  PyInt.isspace c = true -> Char.isspace c = true.
Proof. by_chars c. Qed.

Lemma pyint_rstrip_stripped (s : string) :
  PyInt.rstrip (Str.rstrip s) = Str.rstrip s.
Proof.
  induction s as [|c r IH]; [reflexivity|]. cbn.
  destruct (Str.rstrip r) as [|c' r'] eqn:E.
  - destruct (Char.isspace c) eqn:Ec; [reflexivity|]. cbn.
    destruct (PyInt.isspace c) eqn:Ep; [|reflexivity].
    apply pyint_isspace_isspace in Ep. congruence.
  - cbn. cbn in IH. rewrite IH. reflexivity.
Qed.

(** On a stripped token [int()] finds no white space of its own to skip. *)
Lemma pyint_strip_stripped (s : string) :
  PyInt.strip (Str.strip s) = Str.strip s.
Proof.
  unfold PyInt.strip, Str.strip.
  destruct (Str.lstrip s) as [|c r] eqn:E; [reflexivity|].
  apply lstrip_head in E.
  destruct (rstrip_head c r E) as [r' Hr]. rewrite Hr.
  assert (Hl : PyInt.lstrip (String c r') = String c r').
  { cbn. destruct (PyInt.isspace c) eqn:Ep; [|reflexivity].
    apply pyint_isspace_isspace in Ep. congruence. }
  rewrite Hl, <- Hr. apply pyint_rstrip_stripped.
Qed.

(** A text of digits only has as many digits as characters. *)
Lemma digits_all (base : Z) (ds : string) :
  base <= 36 ->
  Str.all (fun c => Char.digit_value c <? base) ds = true ->
  PyInt.digits ds = Z.of_nat (String.length ds).
Proof.
  intros Hb. induction ds as [|c r IH]; intros Hd; [reflexivity|].
  cbn in Hd. apply andb_true_iff in Hd as [Hc Hr]. cbn [PyInt.digits].
  rewrite (underscore_no_digit c base Hb Hc), (IH Hr).
  cbn [String.length]. lia.
Qed.

(** The bases with a prefix are powers of two: no limit on their digits. *)
Lemma too_long_prefixed (limit base : Z) (p : ascii) (s : string) :
  PyInt.prefix_letter base p = true -> PyInt.too_long limit base s = false.
Proof.
  unfold PyInt.prefix_letter, PyInt.too_long. intros H.
  destruct (Z.eqb_spec base 2) as [->|]; [reflexivity|].
  destruct (Z.eqb_spec base 16) as [->|]; [reflexivity|discriminate].
Qed.

(** In base 10 the default limit refuses more than 4300 digits. *)
Lemma too_long_decimal (s : string) :
  PyInt.too_long PyInt.max_str_digits 10 s = (4300 <? PyInt.digits s).
Proof.
  unfold PyInt.too_long, PyInt.max_str_digits.
  change (PyInt.binary_base 10) with false. change (0 <? 4300) with true.
  cbn [negb andb]. rewrite andb_true_r.
  destruct (Z.ltb_spec 4300 (PyInt.digits s)), (Z.ltb_spec 640 (PyInt.digits s));
    try reflexivity; lia.
Qed.

Lemma int_stripped (tok : string) (base : Z) :
  PyInt.int (Str.strip tok) base =
    match Str.strip tok with
    | String c r =>
        if Ascii.eqb c "+" then PyInt.unsigned base r
        else if Ascii.eqb c "-" then Z.opp <$> PyInt.unsigned base r
        else PyInt.unsigned base (String c r)
    | EmptyString => None
    end.
Proof.
  unfold PyInt.int, PyInt.int_limited. rewrite pyint_strip_stripped.
  reflexivity.
Qed.

(** [int()] on a prefix of the base followed by digits only. *)
Lemma int_of_prefixed (tok : string) (base : Z) (p : ascii) (ds : string) :
  Str.strip tok = String "0" (String p ds) ->
  PyInt.prefix_letter base p = true -> base <= 36 ->
  Str.is_empty ds = false ->
  Str.all (fun c => Char.digit_value c <? base) ds = true ->
  int_of (Str.strip tok) base = Ok (digits_value base 0 ds).
Proof.
  intros Ht Hp Hb Hn Hd. unfold int_of. rewrite int_stripped, Ht.
  change (Ascii.eqb "0" "+") with false. change (Ascii.eqb "0" "-") with false.
  cbn iota. unfold PyInt.unsigned, PyInt.unsigned_limited, PyInt.skip_prefix.
  rewrite Hp. change (Ascii.eqb "0" "0") with true. cbn [andb].
  destruct ds as [|c r]; [discriminate|].
  assert (Hu : Ascii.eqb c "_" = false).
  { cbn in Hd. apply andb_true_iff in Hd as [Hc _].
    exact (underscore_no_digit c base Hb Hc). }
  rewrite Hu. cbn iota. rewrite Hu, (too_long_prefixed _ base p _ Hp).
  rewrite (scan_digits base (String c r) Hb Hd). reflexivity.
Qed.

Lemma int_of_0b_rejects (tok body : string) (p : ascii) :
  Str.strip tok = String "0" (String p body) ->
  PyInt.prefix_letter 2 p = true ->
  Str.all (fun c => Char.is_bit c || Ascii.eqb c "_") body = false ->
  int_of (Str.strip tok) 2 = Err (InvalidNumericLiteral (Str.strip tok)).
Proof.
  intros Ht Hp Hbad. unfold int_of. rewrite int_stripped, Ht.
  change (Ascii.eqb "0" "+") with false. change (Ascii.eqb "0" "-") with false.
  cbn iota. unfold PyInt.unsigned, PyInt.unsigned_limited, PyInt.skip_prefix.
  rewrite Hp. change (Ascii.eqb "0" "0") with true. cbn [andb].
  destruct body as [|c r]; [reflexivity|].
  destruct (Ascii.eqb c "_") eqn:Eu.
  - cbn in Hbad. rewrite Eu, orb_true_r in Hbad. cbn in Hbad.
    destruct r as [|c' r']; [reflexivity|].
    destruct (Ascii.eqb c' "_"); [reflexivity|].
    rewrite (scan_rejects _ Hbad). destruct (PyInt.too_long _ _ _); reflexivity.
  - rewrite (scan_rejects _ Hbad), Eu.
    destruct (PyInt.too_long _ _ _); reflexivity.
Qed.

Lemma hex_prefix_not_binary (t : string) :
  Str.startswith "0x" t || Str.startswith "0X" t = true ->
  Str.startswith "0b" (Str.lower t) = false.
Proof.
  intros H. apply orb_true_iff in H as [H|H];
    apply startswith_2 in H as [r ->]; reflexivity.
Qed.

Lemma all_ext (f g : ascii -> bool) (s : string) :
  (forall c : ascii, f c = g c) -> Str.all f s = Str.all g s.
Proof.
  intros H. induction s as [|c r IH]; [reflexivity|]. cbn. rewrite H, IH.
  reflexivity.
Qed.

Lemma lower_bits (ds : string) :
  Str.all Char.is_bit ds = true -> Str.lower ds = ds.
Proof.
  induction ds as [|c r IH]; [reflexivity|]. cbn.
  intros H. apply andb_true_iff in H as [Hc Hr].
  rewrite (bit_lower c Hc), (IH Hr). reflexivity.
Qed.

Lemma digit_is_not (c x : ascii) (base : Z) :
  base <= 36 -> Char.digit_value x = 37 ->
  (Char.digit_value c <? base) = true -> Ascii.eqb c x = false.
Proof.
  intros Hb Hx Hd. destruct (Ascii.eqb_spec c x) as [->|]; [|reflexivity].
  apply Z.ltb_lt in Hd. lia.
Qed.

Lemma int_of_decimal (tok : string) :
  Str.is_empty (Str.strip tok) = false ->
  Str.all (fun c => Char.digit_value c <? 10) (Str.strip tok) = true ->
  int_of (Str.strip tok) 10 =
    if (String.length (Str.strip tok) <=? 4300)%nat
    then Ok (digits_value 10 0 (Str.strip tok))
    else Err (InvalidNumericLiteral (Str.strip tok)).
Proof.
  intros Hn Hd. unfold int_of. rewrite int_stripped.
  destruct (Str.strip tok) as [|c r] eqn:Et; [discriminate|].
  assert (Hc : (Char.digit_value c <? 10) = true).
  { cbn in Hd. apply andb_true_iff in Hd as [Hc _]. exact Hc. }
  rewrite (digit_is_not c "+" 10), (digit_is_not c "-" 10), ?Hc
    by (try exact Hc; try reflexivity; lia).
  assert (Hs : PyInt.skip_prefix 10 (String c r) = String c r).
  { unfold PyInt.skip_prefix. destruct r as [|c1 r1]; [reflexivity|].
    change (PyInt.prefix_letter 10 c1) with false. rewrite andb_false_r.
    reflexivity. }
  unfold PyInt.unsigned, PyInt.unsigned_limited. rewrite Hs.
  rewrite (digit_is_not c "_" 10) by (try exact Hc; try reflexivity; lia).
  rewrite too_long_decimal, (digits_all 10 (String c r)) by (try exact Hd; lia).
  destruct (Nat.leb_spec (String.length (String c r)) 4300) as [Hle|Hgt].
  - destruct (Z.ltb_spec 4300 (Z.of_nat (String.length (String c r)))); [lia|].
    rewrite (scan_digits 10 (String c r)) by (try exact Hd; lia). reflexivity.
  - destruct (Z.ltb_spec 4300 (Z.of_nat (String.length (String c r)))); [|lia].
    reflexivity.
Qed.

(** [int(_, 2)] after the prefix: one underscore may follow the prefix, then
    groups of binary digits separated by single underscores. *)
Lemma scan_grouped (s : string) :
  forall (prev_us : bool) (acc : Z),
    PyInt.scan 2 prev_us acc s =
      if grouped prev_us s
      then Some (digits_value 2 acc (without_underscores s))
      else None.
Proof.
  induction s as [|c r IH]; intros prev_us acc.
  - destruct prev_us; reflexivity.
  - cbn. destruct (Ascii.eqb c "_").
    + destruct prev_us; [reflexivity|]. cbn. apply IH.
    + rewrite digit_below_2_is_bit. destruct (Char.is_bit c); [|reflexivity].
      cbn. apply IH.
Qed.

Lemma int_of_0b_grouped (tok body : string) (p : ascii) :
  Str.strip tok = String "0" (String p body) ->
  PyInt.prefix_letter 2 p = true ->
  int_of (Str.strip tok) 2 =
    if bit_groups match body with
                  | String c r => if Ascii.eqb c "_" then r else body
                  | EmptyString => body
                  end
    then Ok (digits_value 2 0 (without_underscores body))
    else Err (InvalidNumericLiteral (Str.strip tok)).
Proof.
  intros Ht Hp. unfold int_of. rewrite int_stripped, Ht.
  change (Ascii.eqb "0" "+") with false. change (Ascii.eqb "0" "-") with false.
  cbn iota. unfold PyInt.unsigned, PyInt.unsigned_limited, PyInt.skip_prefix.
  rewrite Hp. change (Ascii.eqb "0" "0") with true. cbn [andb].
  assert (G : forall s : string,
             match s with
             | EmptyString => None
             | String c r =>
                 if Ascii.eqb c "_" then None
                 else if PyInt.too_long PyInt.max_str_digits 2 (String c r)
                      then None
                      else PyInt.scan 2 false 0 (String c r)
             end
             = if bit_groups s
               then Some (digits_value 2 0 (without_underscores s))
               else None).
  { intros [|c r]; [reflexivity|]. unfold bit_groups.
    destruct (Ascii.eqb c "_") eqn:Eu; [cbn; rewrite Eu; reflexivity|].
    rewrite (too_long_prefixed _ 2 p _ Hp), scan_grouped. cbn. rewrite Eu.
    reflexivity. }
  destruct body as [|c r]; [reflexivity|].
  destruct (Ascii.eqb c "_") eqn:Eu.
  - cbv iota. rewrite (G r). cbn [without_underscores]. rewrite Eu.
    destruct (bit_groups r); reflexivity.
  - pose proof (G (String c r)) as Gc. cbv iota in Gc. rewrite Gc.
    destruct (bit_groups (String c r)); reflexivity.
Qed.

(** C1 (as the code has it), for the token [t] left by [strip]:
    - [0b] or [0B] followed by one or more binary digits: a binary token,
      and the base-2 value is returned;
    - a token that starts with [0x] or [0X] goes to [int(_, 16)], which
      returns the base-16 value of hexadecimal digits;
    - any other token that starts with [0b] or [0B] goes to [int(_, 2)] as
      well, and is accepted exactly when, after the prefix and one optional
      underscore, it is made of groups of binary digits separated by single
      underscores: then the base-2 value of the digits is returned, else a
      numeric-literal error is raised, as for [0b2] and for every text with
      a character that is neither binary digit nor underscore;
    - every remaining token goes to [int(_, 10)], which returns the base-10
      value of up to 4300 decimal digits and raises a numeric-literal error
      for more. *)
Theorem parse_number_priority :
  forall tok : string,
    let t := Str.strip tok in
    (forall ds : string,
        t = "0b" +:+ ds \/ t = "0B" +:+ ds ->
        Str.is_empty ds = false -> Str.all Char.is_bit ds = true ->
        is_binary_token t = true
        /\ parse_number tok = Ok (digits_value 2 0 ds))
    /\ (Str.startswith "0x" t || Str.startswith "0X" t = true ->
        parse_number tok = int_of t 16
        /\ forall ds : string,
            t = "0x" +:+ ds \/ t = "0X" +:+ ds ->
            Str.is_empty ds = false ->
            Str.all (fun c => Char.digit_value c <? 16) ds = true ->
            parse_number tok = Ok (digits_value 16 0 ds))
    /\ (Str.startswith "0b" (Str.lower t) = true ->
        parse_number tok = int_of t 2
        /\ forall body : string,
            t = "0b" +:+ body \/ t = "0B" +:+ body ->
            (bit_groups body = true ->
             parse_number tok
               = Ok (digits_value 2 0 (without_underscores body)))
            /\ (forall body' : string,
                  body = String "_" body' -> bit_groups body' = true ->
                  parse_number tok
                    = Ok (digits_value 2 0 (without_underscores body')))
            /\ (bit_groups body = false ->
                (forall body' : string,
                    body = String "_" body' -> bit_groups body' = false) ->
                parse_number tok = Err (InvalidNumericLiteral t))
            /\ (Str.all (fun c => Char.is_bit c || Ascii.eqb c "_") body = false ->
                parse_number tok = Err (InvalidNumericLiteral t)))
    /\ (Str.startswith "0x" t || Str.startswith "0X" t = false ->
        Str.startswith "0b" (Str.lower t) = false ->
        parse_number tok = int_of t 10
        /\ (Str.is_empty t = false ->
            Str.all (fun c => Char.digit_value c <? 10) t = true ->
            ((String.length t <= 4300)%nat ->
             parse_number tok = Ok (digits_value 10 0 t))
            /\ ((4300 < String.length t)%nat ->
                parse_number tok = Err (InvalidNumericLiteral t)))).
Proof.
  intros tok. cbv zeta. set (t := Str.strip tok).
  assert (Et : t = Str.strip tok) by reflexivity. clearbody t.
  assert (P : parse_number tok =
              if is_binary_token t then int_of t 2
              else if Str.startswith "0x" t || Str.startswith "0X" t
                   then int_of t 16
                   else if Str.startswith "0b" (Str.lower t) then int_of t 2
                        else int_of t 10)
    by (rewrite Et; reflexivity).
  assert (B : Str.startswith "0b" (Str.lower t) = true ->
              parse_number tok = int_of t 2).
  { intros Hb. rewrite P.
    destruct (is_binary_token t); [reflexivity|].
    destruct (Str.startswith "0x" t || Str.startswith "0X" t) eqn:Ex.
    - apply hex_prefix_not_binary in Ex. congruence.
    - rewrite Hb. reflexivity. }
  assert (X : Str.startswith "0x" t || Str.startswith "0X" t = true ->
              parse_number tok = int_of t 16).
  { intros Hx. rewrite P.
    unfold is_binary_token. rewrite (hex_prefix_not_binary t Hx), Hx.
    reflexivity. }
  split; [|split; [|split]].
  - intros ds Ht Hn Hd.
    assert (Hl : Str.lower t = "0b" +:+ ds).
    { destruct Ht as [Ht | Ht]; rewrite Ht;
        [change (Str.lower ("0b" +:+ ds)) with ("0b" +:+ Str.lower ds)
        |change (Str.lower ("0B" +:+ ds)) with ("0b" +:+ Str.lower ds)];
        rewrite (lower_bits ds Hd); reflexivity. }
    assert (Hbin : is_binary_token t = true).
    { unfold is_binary_token. rewrite Hl.
      change ("0b" +:+ ds) with (String "0" (String "b" ds)).
      unfold Str.startswith, fullmatch_0b_bits. rewrite Hn, Hd.
      destruct ds; reflexivity. }
    split; [exact Hbin|].
    rewrite B by (rewrite Hl; destruct ds; reflexivity).
    rewrite (all_ext _ _ ds (fun c => eq_sym (digit_below_2_is_bit c))) in Hd.
    rewrite Et in Ht |- *.
    destruct Ht as [Ht | Ht];
      eapply int_of_prefixed; try exact Ht; try exact Hd; try exact Hn;
      try reflexivity; lia.
  - intros Hx. split; [exact (X Hx)|]. intros ds Ht Hn Hd. rewrite (X Hx).
    rewrite Et in Ht |- *.
    destruct Ht as [Ht | Ht];
      eapply int_of_prefixed; try exact Ht; try exact Hd; try exact Hn;
      try reflexivity; lia.
  - intros Hb. split; [exact (B Hb)|]. intros body Ht. rewrite (B Hb).
    rewrite Et in Ht |- *.
    assert (G : int_of (Str.strip tok) 2 =
                if bit_groups match body with
                              | String c r => if Ascii.eqb c "_" then r else body
                              | EmptyString => body
                              end
                then Ok (digits_value 2 0 (without_underscores body))
                else Err (InvalidNumericLiteral (Str.strip tok))).
    { destruct Ht as [Ht | Ht];
        exact (int_of_0b_grouped tok body _ Ht eq_refl). }
    split; [|split; [|split]].
    + intros Hg. rewrite G. destruct body as [|c r]; [discriminate|].
      destruct (Ascii.eqb c "_") eqn:Eu.
      * unfold bit_groups in Hg. cbn in Hg. rewrite Eu in Hg. discriminate.
      * rewrite Hg. reflexivity.
    + intros body' -> Hg. rewrite G.
      change (bit_groups _) with (bit_groups body'). rewrite Hg. reflexivity.
    + intros Hg Hg'. rewrite G. destruct body as [|c r]; [reflexivity|].
      destruct (Ascii.eqb c "_") eqn:Eu.
      * apply Ascii.eqb_eq in Eu. subst c.
        change (bit_groups _) with (bit_groups r).
        rewrite (Hg' r eq_refl). reflexivity.
      * rewrite Hg. reflexivity.
    + intros Hbad.
      destruct Ht as [Ht | Ht];
        eapply int_of_0b_rejects; try exact Ht; try exact Hbad; reflexivity.
  - intros Hx Hb.
    assert (D : parse_number tok = int_of t 10).
    { rewrite P. unfold is_binary_token. rewrite Hb, Hx. reflexivity. }
    split; [exact D|]. intros Hn Hd. rewrite D. rewrite Et in Hn, Hd |- *.
    rewrite (int_of_decimal tok Hn Hd). split; intros Hlen.
    + destruct (Nat.leb_spec (String.length (Str.strip tok)) 4300);
        [reflexivity|lia].
    + destruct (Nat.leb_spec (String.length (Str.strip tok)) 4300);
        [lia|reflexivity].
Qed.

(** [ 0B101 ] is 5, [0x1F] is 31, [0b2] fails, [0B_11_01] is 13, [14] is
    14. *)
Lemma parse_number_priority_witness :
  parse_number " 0B101 " = Ok 5
  /\ parse_number "0x1F" = Ok 31
  /\ parse_number "0b2" = Err (InvalidNumericLiteral "0b2")
  /\ parse_number "0B_11_01" = Ok 13
  /\ parse_number "14" = Ok 14.
Proof.
  split; [|split; [|split; [|split]]].
  - pose proof (parse_number_priority " 0B101 ") as H. cbv zeta in H.
    destruct H as (H & _).
    destruct (H "101") as [_ E];
      [right; vm_compute; reflexivity | reflexivity | reflexivity |].
    rewrite E. reflexivity.
  - pose proof (parse_number_priority "0x1F") as H. cbv zeta in H.
    destruct H as (_ & H & _).
    destruct H as [_ H]; [vm_compute; reflexivity|].
    rewrite (H "1F");
      [reflexivity | left; vm_compute; reflexivity | reflexivity
      | vm_compute; reflexivity].
  - pose proof (parse_number_priority "0b2") as H. cbv zeta in H.
    destruct H as (_ & _ & H & _).
    destruct H as [_ H]; [vm_compute; reflexivity|].
    destruct (H "2") as (_ & _ & _ & H4); [left; vm_compute; reflexivity|].
    rewrite H4; vm_compute; reflexivity.
  - pose proof (parse_number_priority "0B_11_01") as H. cbv zeta in H.
    destruct H as (_ & _ & H & _).
    destruct H as [_ H]; [vm_compute; reflexivity|].
    destruct (H "_11_01") as (_ & H2 & _); [right; vm_compute; reflexivity|].
    rewrite (H2 "11_01"); vm_compute; reflexivity.
  - pose proof (parse_number_priority "14") as H. cbv zeta in H.
    destruct H as (_ & _ & _ & H).
    destruct H as [_ H]; [vm_compute; reflexivity | vm_compute; reflexivity |].
    destruct H as [H _]; [vm_compute; reflexivity..|].
    rewrite H; [reflexivity | vm_compute; lia].
Defined.

(** C1 as stated fails: [0b1_0] starts with [0b] and does not match
    [0b[01]+], yet it is neither rejected nor read in base 10: [int(_, 2)]
    accepts the underscore and returns 2. *)
Lemma parse_number_accepts_underscore :
  Str.startswith "0b" "0b1_0" = true
  /\ fullmatch_0b_bits "0b1_0" = false
  /\ is_binary_token "0b1_0" = false
  /\ parse_number "0b1_0" = Ok 2
  /\ int_of "0b1_0" 10 = Err (InvalidNumericLiteral "0b1_0")
  /\ ~ (exists e : error, parse_number "0b1_0" = Err e).
Proof.
  repeat (split; [vm_compute; reflexivity|]).
  intros [e H]. vm_compute in H. discriminate.
Qed.

(** * Further properties of the pipeline *)

(** ** The line normalizer *)

Lemma append_cons (c : ascii) (r s : string) :
  String c r +:+ s = String c (r +:+ s).
Proof. reflexivity. Qed.

Lemma append_nil_r (s : string) : s +:+ EmptyString = s.
Proof.
  induction s as [|c r IH]; [reflexivity|]. rewrite append_cons, IH.
  reflexivity.
Qed.

Lemma append_assoc (a b c : string) : (a +:+ b) +:+ c = a +:+ (b +:+ c).
Proof.
  induction a as [|x r IH]; [reflexivity|]. rewrite !append_cons, IH.
  reflexivity.
Qed.

Lemma snoc_append (cur : string) (c : ascii) (r : string) :
  Str.snoc cur c +:+ r = cur +:+ String c r.
Proof. unfold Str.snoc. rewrite append_assoc. reflexivity. Qed.

Lemma all_append (p : ascii -> bool) (a b : string) :
  Str.all p (a +:+ b) = Str.all p a && Str.all p b.
Proof.
  induction a as [|c r IH]; [reflexivity|].
  rewrite append_cons. cbn. rewrite IH, andb_assoc. reflexivity.
Qed.

Lemma all_before (p : ascii -> bool) (sep : ascii) (s : string) :
  Str.all p s = true -> Str.all p (Str.before sep s) = true.
Proof.
  induction s as [|c r IH]; cbn; [reflexivity|]. intros H.
  apply andb_true_iff in H as [Hc Hr].
  destruct (Ascii.eqb c sep); cbn; [reflexivity|]. rewrite Hc, (IH Hr).
  reflexivity.
Qed.

Lemma all_lstrip (p : ascii -> bool) (s : string) :
  Str.all p s = true -> Str.all p (Str.lstrip s) = true.
Proof.
  induction s as [|c r IH]; cbn; [reflexivity|]. intros H.
  destruct (Char.isspace c); [|exact H].
  apply andb_true_iff in H as [_ Hr]. exact (IH Hr).
Qed.

Lemma all_rstrip (p : ascii -> bool) (s : string) :
  Str.all p s = true -> Str.all p (Str.rstrip s) = true.
Proof.
  induction s as [|c r IH]; cbn; [reflexivity|]. intros H.
  apply andb_true_iff in H as [Hc Hr]. specialize (IH Hr).
  destruct (Str.rstrip r) as [|c' r'].
  - destruct (Char.isspace c); cbn; [reflexivity|]. rewrite Hc. reflexivity.
  - cbn. cbn in IH. rewrite Hc, IH. reflexivity.
Qed.

Lemma all_normalized (p : ascii -> bool) (raw : string) :
  Str.all p raw = true -> Str.all p (normalized raw) = true.
Proof.
  intros H. unfold normalized, Str.strip.
  apply all_rstrip, all_lstrip, all_before, all_before, H.
Qed.

Lemma before_free (sep : ascii) (s : string) :
  Str.all (fun c => negb (Ascii.eqb c sep)) (Str.before sep s) = true.
Proof.
  induction s as [|c r IH]; cbn; [reflexivity|].
  destruct (Ascii.eqb c sep) eqn:E; cbn; [reflexivity|]. rewrite E, IH.
  reflexivity.
Qed.

Lemma contains_all (sep : ascii) (s : string) :
  Str.contains sep s = negb (Str.all (fun c => negb (Ascii.eqb c sep)) s).
Proof.
  induction s as [|c r IH]; cbn; [reflexivity|]. rewrite IH.
  destruct (Ascii.eqb c sep); reflexivity.
Qed.

Lemma clean_cons (raw : string) (raws : list string) :
  clean (raw :: raws) =
    if Str.is_empty (normalized raw) then clean raws
    else normalized raw :: clean raws.
Proof.
  unfold clean. cbn.
  destruct (Str.is_empty (normalized raw)) eqn:E.
  - rewrite decide_False by congruence. reflexivity.
  - rewrite decide_True by reflexivity. reflexivity.
Qed.

Lemma clean_empty_line (raws : list string) :
  clean (EmptyString :: raws) = clean raws.
Proof. rewrite clean_cons. reflexivity. Qed.

Lemma tokenize_clean (src : string) : tokenize src = clean (Str.splitlines src).
Proof. reflexivity. Qed.

(** The lines cut from a text hold no line boundary. *)
Lemma splitlines_go_no_linebreak (n : nat) :
  forall s cur : string,
    (String.length s <= n)%nat -> no_linebreak cur = true ->
    Forall (fun l => no_linebreak l = true) (Str.splitlines_go cur s).
Proof.
  induction n as [|n IH]; intros s cur Hn Hc.
  - destruct s; [|cbn in Hn; lia]. cbn.
    destruct (Str.is_empty cur); repeat constructor. exact Hc.
  - destruct s as [|c r]; cbn.
    { destruct (Str.is_empty cur); repeat constructor. exact Hc. }
    cbn in Hn. destruct (Char.islinebreak c) eqn:Eb.
    + destruct r as [|c' r'].
      * constructor; [exact Hc|]. apply IH; [cbn; lia|reflexivity].
      * cbn in Hn.
        destruct (Ascii.eqb c "013" && Ascii.eqb c' "010");
          (constructor; [exact Hc|]); apply IH; cbn; try lia; reflexivity.
    + apply IH; [lia|]. unfold no_linebreak, Str.snoc.
      rewrite all_append. cbn. unfold no_linebreak in Hc.
      rewrite Hc, Eb. reflexivity.
Qed.

(** X1: every line [tokenize] yields is non-empty, has no white space at
    either end, holds no comment marker and no line boundary. *)
Theorem tokenize_lines_normal :
  forall src line : string,
    line ∈ tokenize src ->
    Str.is_empty line = false
    /\ Str.strip line = line
    /\ Str.contains ";" line = false
    /\ Str.contains "#" line = false
    /\ no_linebreak line = true.
Proof.
  intros src line H. rewrite tokenize_clean in H. unfold clean in H.
  apply list_elem_of_filter in H as [Hne H].
  apply list_elem_of_fmap in H as (raw & -> & Hraw).
  split; [exact Hne|]. split; [apply strip_idem|].
  rewrite !contains_all. repeat split.
  - unfold normalized, Str.strip.
    rewrite all_rstrip; [reflexivity|].
    apply all_lstrip, all_before, before_free.
  - unfold normalized, Str.strip.
    rewrite all_rstrip; [reflexivity|]. apply all_lstrip, before_free.
  - apply all_normalized.
    pose proof (splitlines_go_no_linebreak (String.length src) src EmptyString
                  (le_n _) eq_refl) as HF.
    rewrite Forall_forall in HF. apply HF, Hraw.
Qed.

Lemma tokenize_lines_normal_witness :
  "x: LDA 5" ∈ tokenize ("  x: LDA 5 ; load # five" +:+ LF +:+ "# only a comment")
  /\ Str.strip "x: LDA 5" = "x: LDA 5"
  /\ Str.contains ";" "x: LDA 5" = false.
Proof.
  assert (H : "x: LDA 5" ∈ tokenize ("  x: LDA 5 ; load # five" +:+ LF
                                       +:+ "# only a comment"))
    by (vm_compute; constructor).
  split; [exact H|].
  destruct (tokenize_lines_normal _ _ H) as (_ & H1 & H2 & _).
  split; assumption.
Defined.

Lemma clean_app (l1 l2 : list string) : clean (l1 ++ l2) = clean l1 ++ clean l2.
Proof. unfold clean. rewrite fmap_app, filter_app. reflexivity. Qed.

Lemma clean_pending (cur : string) :
  clean (if Str.is_empty cur then [] else [cur]) = clean [cur].
Proof. destruct cur; reflexivity. Qed.

Lemma before_app_sep (sep : ascii) (u v : string) :
  Str.before sep (u +:+ String sep v) = Str.before sep u.
Proof.
  induction u as [|c r IH]; rewrite ?append_cons;
    change (EmptyString +:+ String sep v) with (String sep v); cbn.
  - rewrite Ascii.eqb_refl. reflexivity.
  - destruct (Ascii.eqb c sep); [reflexivity|]. rewrite IH. reflexivity.
Qed.

Lemma before_before_app (a b : ascii) (u v : string) :
  Str.before a (Str.before b (u +:+ String a v))
    = Str.before a (Str.before b u).
Proof.
  induction u as [|c r IH]; rewrite ?append_cons;
    change (EmptyString +:+ String a v) with (String a v); cbn.
  - destruct (Ascii.eqb a b); cbn; [reflexivity|]. rewrite Ascii.eqb_refl.
    reflexivity.
  - destruct (Ascii.eqb c b); [reflexivity|]. cbn.
    destruct (Ascii.eqb c a); [reflexivity|]. rewrite IH. reflexivity.
Qed.

(** A comment marker and what follows it do not change the line. *)
Lemma normalized_comment (m : ascii) (code comment : string) :
  m = ";"%char \/ m = "#"%char ->
  normalized (code +:+ String m comment) = normalized code.
Proof.
  unfold normalized. intros [-> | ->].
  - rewrite before_app_sep. reflexivity.
  - rewrite before_before_app. reflexivity.
Qed.

Lemma splitlines_go_single (s : string) :
  no_linebreak s = true ->
  forall cur : string,
    Str.splitlines_go cur s =
      if Str.is_empty (cur +:+ s) then [] else [cur +:+ s].
Proof.
  induction s as [|c r IH]; intros H cur.
  - rewrite append_nil_r. reflexivity.
  - unfold no_linebreak in H. cbn in H.
    apply andb_true_iff in H as [Hc Hr]. apply negb_true_iff in Hc.
    cbn. rewrite Hc, (IH Hr), snoc_append. reflexivity.
Qed.

Lemma tokenize_comment_go (m : ascii) (comment : string) (n : nat) :
  m = ";"%char \/ m = "#"%char -> no_linebreak comment = true ->
  forall code cur : string,
    (String.length code <= n)%nat ->
    clean (Str.splitlines_go cur (code +:+ String m comment))
      = clean (Str.splitlines_go cur code).
Proof.
  intros Hm Hc.
  assert (Hb : Char.islinebreak m = false) by (destruct Hm as [-> | ->]; reflexivity).
  assert (Hlf : Ascii.eqb m "010" = false) by (destruct Hm as [-> | ->]; reflexivity).
  assert (Base : forall cur,
             clean (Str.splitlines_go cur (String m comment))
               = clean (Str.splitlines_go cur EmptyString)).
  { intros cur. cbn [Str.splitlines_go]. rewrite Hb.
    rewrite (splitlines_go_single comment Hc), snoc_append.
    rewrite !clean_pending, !clean_cons, normalized_comment by exact Hm.
    reflexivity. }
  induction n as [|n IH]; intros code cur Hn.
  - destruct code; [|cbn in Hn; lia]. apply Base.
  - destruct code as [|c r]; [apply Base|]. cbn in Hn. rewrite append_cons.
    cbn [Str.splitlines_go]. destruct (Char.islinebreak c) eqn:Eb.
    + destruct r as [|c' r'].
      * change (EmptyString +:+ String m comment) with (String m comment).
        cbn iota. rewrite Hlf, andb_false_r. rewrite !clean_cons, Base.
        reflexivity.
      * rewrite append_cons. cbn in Hn.
        destruct (Ascii.eqb c "013" && Ascii.eqb c' "010").
        -- rewrite !clean_cons, IH by lia. reflexivity.
        -- rewrite <- append_cons, !clean_cons, IH by (cbn; lia). reflexivity.
    + apply IH. lia.
Qed.

(** X2: a comment at the end of a source is ignored: appending [;] or [#]
    and any text without a line boundary leaves the lines of [tokenize]
    unchanged, so the same holds for [assemble]. *)
Theorem tokenize_ignores_comment :
  forall (m : ascii) (code comment : string),
    m = ";"%char \/ m = "#"%char -> no_linebreak comment = true ->
    tokenize (code +:+ String m comment) = tokenize code
    /\ assemble (code +:+ String m comment) = assemble code.
Proof.
  intros m code comment Hm Hc.
  assert (E : tokenize (code +:+ String m comment) = tokenize code).
  { rewrite !tokenize_clean. unfold Str.splitlines.
    apply (tokenize_comment_go m comment (String.length code) Hm Hc).
    apply le_n. }
  split; [exact E|]. unfold assemble, assemble_run. rewrite E. reflexivity.
Qed.

Lemma tokenize_ignores_comment_witness :
  tokenize (("LDA 5" +:+ LF +:+ "HLT") +:+ String "#" " stop; really")
    = ["LDA 5"; "HLT"]
  /\ no_linebreak " stop; really" = true.
Proof.
  split; [|reflexivity].
  destruct (tokenize_ignores_comment "#" ("LDA 5" +:+ LF +:+ "HLT")
              " stop; really") as [H _]; [right; reflexivity|reflexivity|].
  rewrite H. vm_compute. reflexivity.
Defined.

Lemma tokenize_join_go (n : nat) :
  forall a cur b : string,
    (String.length a <= n)%nat ->
    clean (Str.splitlines_go cur (a +:+ LF +:+ b))
      = clean (Str.splitlines_go cur a) ++ clean (Str.splitlines_go EmptyString b).
Proof.
  assert (Step : forall cur b,
             Str.splitlines_go cur (LF +:+ b)
               = cur :: Str.splitlines_go EmptyString b).
  { intros cur b. change (LF +:+ b) with (String "010" b).
    cbn [Str.splitlines_go]. change (Char.islinebreak "010") with true.
    cbn iota. destruct b; reflexivity. }
  assert (Base : forall cur b,
             clean (Str.splitlines_go cur (LF +:+ b))
               = clean (Str.splitlines_go cur EmptyString)
                   ++ clean (Str.splitlines_go EmptyString b)).
  { intros cur b. rewrite Step. cbn [Str.splitlines_go].
    rewrite clean_pending. change (cur :: ?l) with ([cur] ++ l).
    apply clean_app. }
  induction n as [|n IH]; intros a cur b Hn.
  - destruct a; [|cbn in Hn; lia]. apply Base.
  - destruct a as [|c r]; [apply Base|]. cbn in Hn. rewrite append_cons.
    cbn [Str.splitlines_go]. destruct (Char.islinebreak c) eqn:Eb.
    + destruct r as [|c' r'].
      * change (EmptyString +:+ LF +:+ b) with (String "010" b). cbn iota.
        change (Ascii.eqb "010" "010") with true. rewrite andb_true_r.
        destruct (Ascii.eqb c "013").
        -- rewrite !clean_cons.
           destruct (Str.is_empty (normalized cur)); reflexivity.
        -- change (String "010" b) with (LF +:+ b).
           rewrite Step, !clean_cons.
           change (Str.is_empty (normalized EmptyString)) with true.
           destruct (Str.is_empty (normalized cur)); reflexivity.
      * rewrite append_cons. cbn in Hn.
        destruct (Ascii.eqb c "013" && Ascii.eqb c' "010").
        -- rewrite !clean_cons, IH by lia.
           destruct (Str.is_empty (normalized cur)); reflexivity.
        -- rewrite <- append_cons, !clean_cons, IH by (cbn; lia).
           destruct (Str.is_empty (normalized cur)); reflexivity.
    + apply IH. lia.
Qed.

Lemma tokenize_app_LF (a b : string) :
  tokenize (a +:+ LF +:+ b) = tokenize a ++ tokenize b.
Proof.
  rewrite !tokenize_clean. unfold Str.splitlines.
  apply (tokenize_join_go (String.length a)). apply le_n.
Qed.

Lemma tokenize_join (texts : list string) :
  tokenize (join LF texts) = concat (tokenize <$> texts).
Proof.
  induction texts as [|x rest IH]; [reflexivity|].
  destruct rest as [|y rest].
  - cbn. rewrite app_nil_r. reflexivity.
  - change (join LF (x :: y :: rest)) with (x +:+ LF +:+ join LF (y :: rest)).
    rewrite tokenize_app_LF, IH. reflexivity.
Qed.

(** X3: [tokenize] works line by line: the lines of two texts joined by a
    line feed are the lines of the first followed by the lines of the
    second; so the lines of [sep.join] of a list of texts are the lines of
    its members, in order. *)
Theorem tokenize_joined :
  (forall a b : string, tokenize (a +:+ LF +:+ b) = tokenize a ++ tokenize b)
  /\ (forall texts : list string,
        tokenize (join LF texts) = concat (tokenize <$> texts)).
Proof. split; [exact tokenize_app_LF|exact tokenize_join]. Qed.

(** ** Pass 1: operations, addresses and labels *)

(** What one line adds to [out] and does to the counter. *)
Lemma first_pass_line_step (st st1 : pass1) (line : string) :
  first_pass_line st line = Ok st1 ->
  exists o : operation,
    out st1 = out st ++ [o] /\ o.2 = pc st
    /\ match statement_of line with
       | None => o.1 = ("NOPLINE", []) /\ pc st1 = pc st
       | Some stmt =>
           exists (t0 : string) (args : list string),
             tokens stmt = t0 :: args /\ o.1 = (Str.upper t0, args)
             /\ if String.eqb (Str.upper t0) "ORG"
                then exists (a : string) (rest : list string) (v : Z),
                    args = a :: rest /\ parse_number a = Ok v
                    /\ pc st1 = Z.land v 15
                else pc st1 = Z.land (pc st + 1) 15
       end.
Proof.
  rewrite first_pass_line_eq. intros H.
  destruct (match label_of line with Some _ => _ | None => _ end)
    as [labels'|]; [|discriminate].
  cbn in H. destruct (statement_of line) as [stmt|].
  - unfold first_pass_statement in H. unfold tokens.
    destruct (Str.split _) as [|t0 args]; [discriminate|]. cbn in H.
    exists (Str.upper t0, args, pc st).
    destruct (String.eqb (Str.upper t0) "ORG") eqn:Eo.
    + destruct args as [|a rest]; [discriminate|].
      destruct (parse_number a) as [v|] eqn:E; [|discriminate]. cbn in H.
      injection H as <-. cbn. split; [reflexivity|]. split; [reflexivity|].
      exists t0, (a :: rest). split; [reflexivity|]. split; [reflexivity|].
      rewrite Eo. exists a, rest, v. split; [reflexivity|].
      split; [exact E|reflexivity].
    + injection H as <-. cbn. split; [reflexivity|]. split; [reflexivity|].
      exists t0, args. split; [reflexivity|]. split; [reflexivity|].
      rewrite Eo. reflexivity.
  - injection H as <-. exists ("NOPLINE", [], pc st). cbn.
    split; [reflexivity|]. split; [reflexivity|]. split; reflexivity.
Qed.

Lemma first_pass_line_lookup (st st1 : pass1) (line name : string) (addr : Z) :
  first_pass_line st line = Ok st1 ->
  labels st !! name = Some addr -> labels st1 !! name = Some addr.
Proof.
  intros H Hn. apply first_pass_line_labels in H.
  destruct (label_of line) as [lab|]; [|rewrite H; exact Hn].
  destruct H as [Hl ->]. rewrite lookup_insert_ne; [exact Hn|]. congruence.
Qed.

Lemma first_pass_loop_lookup (lines : list string) :
  forall (st st' : pass1) (name : string) (addr : Z),
    first_pass_loop lines st = Ok st' ->
    labels st !! name = Some addr -> labels st' !! name = Some addr.
Proof.
  induction lines as [|line rest IH]; intros st st' name addr H Hn; cbn in H.
  - injection H as <-. exact Hn.
  - destruct (first_pass_line st line) as [st1|] eqn:E; [|discriminate].
    cbn in H. eapply IH; [exact H|]. eapply first_pass_line_lookup; eassumption.
Qed.

(** The run of pass 1 over [lines] from any state: the operations it adds,
    one per line, and the labels it adds, each at the address of the
    operation of its line. *)
Lemma first_pass_loop_trace (lines : list string) :
  forall st st' : pass1,
    first_pass_loop lines st = Ok st' ->
    exists new : list operation,
      out st' = out st ++ new /\ length new = length lines
      /\ (forall (i : nat) (line : string),
            lines !! i = Some line ->
            exists o : operation,
              new !! i = Some o
              /\ match statement_of line with
                 | None => o.1 = ("NOPLINE", [])
                 | Some stmt =>
                     exists (t0 : string) (args : list string),
                       tokens stmt = t0 :: args /\ o.1 = (Str.upper t0, args)
                 end)
      /\ (forall (name : string) (addr : Z),
            labels st' !! name = Some addr <->
            labels st !! name = Some addr
            \/ exists (i : nat) (line : string) (o : operation),
                lines !! i = Some line /\ label_of line = Some name
                /\ new !! i = Some o /\ o.2 = addr).
Proof.
  induction lines as [|line rest IH]; intros st st' H; cbn in H.
  - injection H as <-. exists []. rewrite app_nil_r. repeat split.
    + intros i line Hi. rewrite lookup_nil in Hi. discriminate.
    + intros Hn. left. exact Hn.
    + intros [Hn|(i & line & o & Hi & _)]; [exact Hn|].
      rewrite lookup_nil in Hi. discriminate.
  - destruct (first_pass_line st line) as [st1|] eqn:E; [|discriminate].
    cbn in H. destruct (IH _ _ H) as (new & Hout & Hlen & Hops & Hlab).
    destruct (first_pass_line_step _ _ _ E) as (o & Ho & Hat & Hs).
    exists (o :: new). split; [rewrite Hout, Ho, <- app_assoc; reflexivity|].
    split; [cbn; rewrite Hlen; reflexivity|]. split.
    + intros [|i] l Hi; cbn in Hi.
      * injection Hi as <-. exists o. split; [reflexivity|].
        destruct (statement_of line) as [stmt|]; [|apply Hs].
        destruct Hs as (t0 & args & Ht & Ho1 & _). eauto.
      * apply Hops, Hi.
    + intros name addr. rewrite Hlab. split.
      * intros [Hn|(i & l & o' & Hi & Hl & Hn & Ha)].
        -- pose proof (first_pass_line_labels _ _ _ E) as HL.
           destruct (label_of line) as [lab|] eqn:El.
           ++ destruct HL as [Hnone HL]. rewrite HL in Hn.
              apply lookup_insert_Some in Hn as [[-> <-]|[_ Hn]];
                [|left; exact Hn].
              right. exists 0%nat, line, o. repeat split; try assumption.
           ++ rewrite HL in Hn. left. exact Hn.
        -- right. exists (S i), l, o'. repeat split; assumption.
      * intros [Hn|(i & l & o' & Hi & Hl & Hn & Ha)].
        -- left. eapply first_pass_line_lookup; eassumption.
        -- destruct i as [|i]; cbn in Hi, Hn.
           ++ injection Hi as ->. injection Hn as ->. left.
              pose proof (first_pass_line_labels _ _ _ E) as HL.
              rewrite Hl in HL. destruct HL as [_ ->].
              rewrite lookup_insert_eq, <- Hat, Ha. reflexivity.
           ++ right. exists i, l, o'. repeat split; assumption.
Qed.

(** X4: when pass 1 returns, it has recorded exactly one operation per
    line, in order: the marker [("NOPLINE", [])] for a line that holds a
    label only, else the upper-cased first token of the statement with the
    remaining tokens; every operation is tagged with an address 0..15. *)
Theorem first_pass_one_operation_per_line :
  forall (lines : list string) (labels : gmap string Z) (ops : list operation),
    first_pass lines = Ok (labels, ops) ->
    length ops = length lines
    /\ forall (i : nat) (line : string),
        lines !! i = Some line ->
        exists o : operation,
          ops !! i = Some o /\ is_address o.2
          /\ match statement_of line with
             | None => o.1 = ("NOPLINE", [])
             | Some stmt =>
                 exists (t0 : string) (args : list string),
                   tokens stmt = t0 :: args /\ o.1 = (Str.upper t0, args)
             end.
Proof.
  intros lines labels ops H.
  pose proof (first_pass_addresses _ _ _ H) as Haddr.
  rewrite first_pass_eq in H.
  destruct (first_pass_loop lines _) as [st|] eqn:E; [|discriminate].
  injection H as <- <-.
  destruct (first_pass_loop_trace _ _ _ E) as (new & Hout & Hlen & Hops & _).
  cbn in Hout. rewrite Hout in *. split; [exact Hlen|].
  intros i line Hi. destruct (Hops i line Hi) as (o & Ho & Hs).
  exists o. split; [exact Ho|]. split; [|exact Hs].
  rewrite Forall_forall in Haddr. apply Haddr.
  eapply list_elem_of_lookup_2, Ho.
Qed.

Lemma first_pass_one_operation_per_line_witness :
  exists (labels : gmap string Z) (ops : list operation),
    first_pass ["start:"; "lda, 14"; "x: ORG 3"] = Ok (labels, ops)
    /\ ops = [("NOPLINE", [], 0); ("LDA", ["14"], 0); ("ORG", ["3"], 1)].
Proof.
  destruct (first_pass ["start:"; "lda, 14"; "x: ORG 3"]) as [[labels ops]|]
    eqn:E; [|vm_compute in E; discriminate].
  exists labels, ops. split; [reflexivity|].
  destruct (first_pass_one_operation_per_line _ _ _ E) as [Hlen _].
  vm_compute in E. injection E as _ <-. reflexivity.
Defined.

(** X5: when pass 1 returns, the label table maps a name to an address
    exactly when some line defines that name, and the address is the tag
    of the operation recorded for that line. *)
Theorem label_table_holds_line_addresses :
  forall (lines : list string) (labels : gmap string Z) (ops : list operation),
    first_pass lines = Ok (labels, ops) ->
    forall (name : string) (addr : Z),
      labels !! name = Some addr <->
      exists (i : nat) (line : string) (o : operation),
        lines !! i = Some line /\ label_of line = Some name
        /\ ops !! i = Some o /\ o.2 = addr.
Proof.
  intros lines labels ops H. rewrite first_pass_eq in H.
  destruct (first_pass_loop lines _) as [st|] eqn:E; [|discriminate].
  injection H as <- <-.
  destruct (first_pass_loop_trace _ _ _ E) as (new & Hout & _ & _ & Hlab).
  cbn in Hout. rewrite Hout. intros name addr. rewrite Hlab. cbn.
  rewrite lookup_empty. split; [intros [C|C]; [discriminate|exact C]|].
  intros C. right. exact C.
Qed.

Lemma label_table_holds_line_addresses_witness :
  exists (labels : gmap string Z) (ops : list operation),
    first_pass ["JUMP end"; "HLT"; "end: HLT"] = Ok (labels, ops)
    /\ labels !! "end" = Some 2.
Proof.
  destruct (first_pass ["JUMP end"; "HLT"; "end: HLT"]) as [[labels ops]|]
    eqn:E; [|vm_compute in E; discriminate].
  exists labels, ops. split; [reflexivity|].
  apply (label_table_holds_line_addresses _ _ _ E).
  exists 2%nat, "end: HLT", ("HLT", [], 2). repeat split.
  vm_compute in E. injection E as _ <-. reflexivity.
Defined.

(** A failure of the loop of pass 1 is the failure of one of its lines. *)
Lemma first_pass_loop_failing_line (lines : list string) :
  forall (st : pass1) (e : error),
    first_pass_loop lines st = Err e ->
    exists (line : string) (st0 : pass1),
      line ∈ lines /\ first_pass_line st0 line = Err e.
Proof.
  induction lines as [|line rest IH]; intros st e H; cbn in H; [discriminate|].
  destruct (first_pass_line st line) as [st1|e1] eqn:E; cbn in H.
  - destruct (IH _ _ H) as (l & st0 & Hl & Hf). exists l, st0.
    split; [right; exact Hl|exact Hf].
  - injection H as <-. exists line, st. split; [left|exact E].
Qed.

(** X6: pass 1 never fails with [UnknownInstruction] or [MissingOperand]:
    it does not look mnemonics up.  When it fails, a [DuplicateLabel] names a
    label that two lines define, an [InvalidNumericLiteral] carries the
    stripped argument of an [ORG] that [parse_number] rejects, and an
    [IndexError] comes from a line with no token or an [ORG] with no
    argument. *)
Theorem first_pass_error_kinds :
  forall (lines : list string) (e : error),
    first_pass lines = Err e ->
    match e with
    | DuplicateLabel name => defined_twice lines name
    | InvalidNumericLiteral tok =>
        exists (line stmt t0 a : string) (rest : list string),
          line ∈ lines /\ statement_of line = Some stmt
          /\ tokens stmt = t0 :: a :: rest /\ Str.upper t0 = "ORG"
          /\ parse_number a = Err e /\ tok = Str.strip a
    | IndexError =>
        exists line : string, line ∈ lines /\ has_operands line = false
    | UnknownInstruction _ | MissingOperand _ _ => False
    end.
Proof.
  intros lines e H. rewrite first_pass_eq in H.
  destruct (first_pass_loop lines _) as [st|e'] eqn:E; [discriminate|].
  injection H as ->.
  destruct (first_pass_loop_failing_line _ _ _ E) as (line & st0 & Hin & Hf).
  apply first_pass_line_error in Hf as [(name & -> & _)|(stmt & Hs & Ht)].
  - apply first_pass_loop_duplicate in E as [[[addr Hl] _]|Hd]; [|exact Hd].
    cbn in Hl. rewrite lookup_empty in Hl. discriminate.
  - destruct (tokens stmt) as [|t0 args] eqn:Et.
    + subst e. exists line. split; [exact Hin|].
      unfold has_operands. rewrite Hs, Et. reflexivity.
    + destruct Ht as [Ho Ht]. destruct args as [|a rest].
      * subst e. exists line. split; [exact Hin|].
        unfold has_operands. rewrite Hs, Et, Ho. reflexivity.
      * destruct Ht as [Hp He]. rewrite He in *.
        exists line, stmt, t0, a, rest.
        apply String.eqb_eq in Ho. repeat split; assumption.
Qed.

Lemma first_pass_error_kinds_witness :
  first_pass ["HLT"; "ORG"] = Err IndexError
  /\ exists line : string, line ∈ ["HLT"; "ORG"] /\ has_operands line = false.
Proof.
  assert (H : first_pass ["HLT"; "ORG"] = Err IndexError)
    by (vm_compute; reflexivity).
  split; [exact H|]. exact (first_pass_error_kinds _ _ H).
Defined.

(** ** Pass 2 follows the addresses of pass 1 *)

Lemma store_at (mem mem' : list Z) (i v : Z) :
  0 <= i -> store mem i v = Ok mem' -> mem' = <[Z.to_nat i := v]> mem.
Proof.
  intros Hi. unfold store.
  destruct ((0 <=? i) && (i <? Z.of_nat (length mem))); [congruence|].
  destruct (Z.ltb_spec i 0); [lia|]. rewrite andb_false_r. discriminate.
Qed.

(** One step of pass 2: where the counter goes and what becomes of the
    image. *)
Lemma assemble_step_effect (L : gmap string Z) (mem mem' : list Z)
    (pc pc' : Z) (o : operation) :
  0 <= pc ->
  assemble_step L (mem, pc) o = Ok (mem', pc') ->
  (if String.eqb o.1.1 "NOPLINE" then pc' = o.2
   else if String.eqb o.1.1 "ORG"
        then exists (a : string) (rest : list string) (v : Z),
            o.1.2 = a :: rest /\ parse_number a = Ok v /\ pc' = Z.land v 15
        else pc' = Z.land (pc + 1) 15)
  /\ (if occupies o then exists b : Z, mem' = <[Z.to_nat pc := b]> mem
      else mem' = mem).
Proof.
  destruct o as [[op args] at_pc]. intros Hpc H. unfold occupies. cbn.
  unfold assemble_step in H.
  destruct (String.eqb op "NOPLINE").
  { injection H as <- <-. split; reflexivity. }
  destruct (String.eqb op "ORG").
  { destruct args as [|a rest]; [discriminate|].
    destruct (parse_number a) as [v|] eqn:E; [|discriminate]. cbn in H.
    injection H as <- <-. split; [|reflexivity]. exists a, rest, v.
    split; [reflexivity|]. split; [exact E|reflexivity]. }
  cbn. destruct (String.eqb op "DATA").
  { destruct args as [|a rest]; [discriminate|].
    destruct (parse_number a) as [v|]; [|discriminate]. cbn in H.
    destruct (store mem pc _) as [m|] eqn:Es; [|discriminate]. cbn in H.
    injection H as <- <-. split; [reflexivity|].
    eexists. eapply store_at; eassumption. }
  destruct (ISA !! op) as [[opcode needs]|]; [|discriminate].
  match type of H with
  | (?r ≫= _) = _ => destruct r as [operand|]; [|discriminate]
  end.
  cbn in H. destruct (store mem pc _) as [m|] eqn:Es; [|discriminate].
  cbn in H. injection H as <- <-. split; [reflexivity|].
  eexists. eapply store_at; eassumption.
Qed.

Lemma bind_ok_inv {A B : Type} (r : result A) (k : A -> result B) (b : B) :
  r ≫= k = Ok b -> exists a : A, r = Ok a /\ k a = Ok b.
Proof. destruct r as [a|]; [eauto|discriminate]. Qed.

Lemma assemble_loop_cons (L : gmap string Z) (o : operation)
    (rest : list operation) (st : list Z * Z) :
  assemble_loop L (o :: rest) st =
    (st' ← assemble_step L st o; assemble_loop L rest st').
Proof. reflexivity. Qed.

(** Pass 2, run over the operations pass 1 recorded for [lines], meets
    every operation with the counter at its tag and ends with the counter
    of pass 1; cells at which no operation is placed keep their content. *)
Lemma passes_agree (lines : list string) :
  forall st st' : pass1,
    first_pass_loop lines st = Ok st' ->
    Forall (fun line => plain_statement line = true) lines ->
    is_address (pc st) ->
    exists new : list operation,
      out st' = out st ++ new
      /\ forall (L : gmap string Z) (mem : list Z),
          (forall (k : nat) (st2 : list Z * Z),
              assemble_loop L (take k new) (mem, pc st) = Ok st2 ->
              st2.2 = default (pc st') (snd <$> new !! k))
          /\ (forall (st2 : list Z * Z) (j : nat),
              assemble_loop L new (mem, pc st) = Ok st2 ->
              (forall o : operation,
                  o ∈ new -> occupies o = true -> o.2 <> Z.of_nat j) ->
              st2.1 !! j = mem !! j).
Proof.
  induction lines as [|line rest IH]; intros st st' H Hp Ha; cbn in H.
  - injection H as <-. exists []. rewrite app_nil_r. split; [reflexivity|].
    intros L mem. split.
    + intros k st2 Hk. rewrite take_nil in Hk. injection Hk as <-. reflexivity.
    + intros st2 j Hk _. injection Hk as <-. reflexivity.
  - destruct (first_pass_line st line) as [st1|] eqn:E; [|discriminate].
    cbn in H. apply Forall_cons in Hp as [Hpl Hp].
    destruct (first_pass_line_step _ _ _ E) as (o & Ho & Hat & Hs).
    assert (Ha1 : is_address (pc st1)).
    { destruct (statement_of line) as [stmt|].
      - destruct Hs as (t0 & args & _ & _ & Hs).
        destruct (String.eqb (Str.upper t0) "ORG").
        + destruct Hs as (a & r & v & _ & _ & ->). apply land_15_address.
        + rewrite Hs. apply land_15_address.
      - destruct Hs as [_ ->]. exact Ha. }
    destruct (IH _ _ H Hp Ha1) as (new & Hout & Hrun).
    exists (o :: new). split; [rewrite Hout, Ho, <- app_assoc; reflexivity|].
    intros L mem.
    (* the step over [o] leaves the counter where pass 1 left it *)
    assert (Hstep : forall mem1 pc1,
               assemble_step L (mem, pc st) o = Ok (mem1, pc1) ->
               pc1 = pc st1
               /\ (if occupies o then exists b, mem1 = <[Z.to_nat (pc st) := b]> mem
                   else mem1 = mem)).
    { intros mem1 pc1 Hst.
      destruct (assemble_step_effect L mem mem1 (pc st) pc1 o
                  (proj1 Ha) Hst) as [Hpc Hmem].
      split; [|exact Hmem].
      unfold plain_statement in Hpl.
      destruct (statement_of line) as [stmt|].
      - destruct Hs as (t0 & args & Ht & Ho1 & Hs). rewrite Ht in Hpl.
        rewrite Ho1 in Hpc. cbn in Hpc.
        apply negb_true_iff in Hpl. rewrite Hpl in Hpc.
        destruct (String.eqb (Str.upper t0) "ORG").
        + destruct Hs as (a & r & v & Hargs & Hv & ->).
          destruct Hpc as (a' & r' & v' & Hargs' & Hv' & ->).
          rewrite Hargs in Hargs'. injection Hargs' as <- <-.
          rewrite Hv in Hv'. injection Hv' as <-. reflexivity.
        + rewrite Hs, Hpc. reflexivity.
      - destruct Hs as [Ho1 ->]. rewrite Ho1 in Hpc. cbn in Hpc.
        rewrite Hpc. exact Hat. }
    split.
    + intros [|k] st2 Hk.
      * cbn in Hk. injection Hk as <-. cbn. symmetry. exact Hat.
      * change (take (S k) (o :: new)) with (o :: take k new) in Hk.
        rewrite assemble_loop_cons in Hk.
        apply bind_ok_inv in Hk as ([mem1 pc1] & Es & Hk).
        destruct (Hstep _ _ Es) as [-> _].
        exact (proj1 (Hrun L mem1) k st2 Hk).
    + intros st2 j Hk Hfree. rewrite assemble_loop_cons in Hk.
      apply bind_ok_inv in Hk as ([mem1 pc1] & Es & Hk).
      destruct (Hstep _ _ Es) as [-> Hmem].
      rewrite (proj2 (Hrun L mem1) st2 j Hk).
      * destruct (occupies o) eqn:Eocc; [|rewrite Hmem; reflexivity].
        destruct Hmem as [b ->]. apply list_lookup_insert_ne.
        pose proof (Hfree o (list_elem_of_here _ _) Eocc) as Hne.
        rewrite Hat in Hne. destruct Ha as [Ha0 _]. lia.
      * intros o' Ho' Hocc. apply Hfree; [right; exact Ho'|exact Hocc].
Qed.

(** X7: pass 2 meets every operation at the address pass 1 tagged it with,
    as long as no statement has [NOPLINE] as its mnemonic: after the first
    [k] operations its counter is the tag of operation [k].  So the cell an
    instruction is written to is the address its label stands for. *)
Theorem second_pass_counter_is_tag :
  forall (lines : list string) (labels : gmap string Z) (ops : list operation),
    first_pass lines = Ok (labels, ops) ->
    Forall (fun line => plain_statement line = true) lines ->
    forall (L : gmap string Z) (mem : list Z) (k : nat) (st : list Z * Z)
           (o : operation),
      ops !! k = Some o ->
      assemble_loop L (take k ops) (mem, 0) = Ok st ->
      st.2 = o.2.
Proof.
  intros lines labels ops H Hp L mem k st o Ho Hk. rewrite first_pass_eq in H.
  destruct (first_pass_loop lines _) as [st'|] eqn:E; [|discriminate].
  injection H as <- <-.
  destruct (passes_agree _ _ _ E Hp) as (new & Hout & Hrun);
    [unfold is_address; cbn; lia|].
  cbn in Hout. rewrite Hout in *. cbn in Hrun.
  pose proof (proj1 (Hrun L mem) k st Hk) as Hx.
  unfold operation in *. rewrite Ho in Hx. exact Hx.
Qed.

Lemma second_pass_counter_is_tag_witness :
  exists (labels : gmap string Z) (ops : list operation),
    first_pass ["ORG 14"; "a: LDA a"; "b:"; "HLT"] = Ok (labels, ops)
    /\ ops !! 3%nat = Some ("HLT", [], 15)
    /\ assemble_loop labels (take 3 ops) (replicate 16 0, 0)
       = Ok (<[14%nat := 30]> (replicate 16 0), 15).
Proof.
  destruct (first_pass ["ORG 14"; "a: LDA a"; "b:"; "HLT"])
    as [[labels ops]|] eqn:E; [|vm_compute in E; discriminate].
  exists labels, ops. split; [reflexivity|].
  assert (Ho : ops !! 3%nat = Some ("HLT", [], 15))
    by (vm_compute in E; injection E as _ <-; reflexivity).
  split; [exact Ho|].
  destruct (assemble_loop labels (take 3 ops) (replicate 16 0, 0))
    as [[m p]|] eqn:Ek.
  - pose proof (second_pass_counter_is_tag _ _ _ E
                  ltac:(repeat constructor) _ _ _ _ _ Ho Ek) as Hp.
    cbn in Hp. subst p. f_equal. f_equal.
    vm_compute in E. injection E as <- <-. vm_compute in Ek.
    injection Ek as <-. reflexivity.
  - vm_compute in E. injection E as <- <-. vm_compute in Ek. discriminate.
Defined.

(** The condition is needed: a statement [NOPLINE] takes an address in pass
    1 and none in pass 2, so what follows is written one cell early; here
    [x] stands for 1 while its [HLT] is in cell 0. *)
Example nopline_statement_shifts_cells :
  plain_statement "nopline" = false
  /\ assemble ("nopline" +:+ LF +:+ "x: HLT" +:+ LF +:+ "JUMP x")
     = Ok (144 :: 129 :: replicate 14 0).
Proof. split; vm_compute; reflexivity. Qed.

(** X8: a cell at which pass 1 placed no operation is still zero in the
    image [assemble] returns (no statement having [NOPLINE] as mnemonic). *)
Theorem unplaced_cells_are_zero :
  forall (src : string) (labels : gmap string Z) (ops : list operation)
         (image : list Z),
    first_pass (tokenize src) = Ok (labels, ops) ->
    Forall (fun line => plain_statement line = true) (tokenize src) ->
    assemble src = Ok image ->
    forall j : nat,
      (j < 16)%nat ->
      (forall o : operation, o ∈ ops -> occupies o = true -> o.2 <> Z.of_nat j) ->
      image !! j = Some 0.
Proof.
  intros src labels ops image H Hp Ha j Hj Hfree.
  unfold assemble, assemble_run in Ha. rewrite H in Ha. cbn in Ha.
  destruct (assemble_loop labels ops _) as [st|] eqn:El; [|discriminate].
  cbn in Ha. injection Ha as <-.
  rewrite first_pass_eq in H.
  destruct (first_pass_loop (tokenize src) _) as [st'|] eqn:E; [|discriminate].
  injection H as <- <-.
  destruct (passes_agree _ _ _ E Hp) as (new & Hout & Hrun);
    [unfold is_address; cbn; lia|].
  cbn in Hout. rewrite Hout in *. cbn in Hrun.
  rewrite (proj2 (Hrun _ (replicate 16 0)) st j El Hfree).
  apply lookup_replicate_2. exact Hj.
Qed.

Lemma unplaced_cells_are_zero_witness :
  Forall (fun line => plain_statement line = true) (tokenize ("ORG 3" +:+ LF +:+ "HLT"))
  /\ assemble ("ORG 3" +:+ LF +:+ "HLT") = Ok (<[3%nat := 144]> (replicate 16 0))
  /\ <[3%nat := 144]> (replicate 16 0) !! 0%nat = Some 0.
Proof.
  assert (Hp : Forall (fun line => plain_statement line = true)
                 (tokenize ("ORG 3" +:+ LF +:+ "HLT")))
    by (vm_compute; repeat constructor).
  assert (Ha : assemble ("ORG 3" +:+ LF +:+ "HLT")
               = Ok (<[3%nat := 144]> (replicate 16 0)))
    by (vm_compute; reflexivity).
  split; [exact Hp|]. split; [exact Ha|].
  destruct (first_pass (tokenize ("ORG 3" +:+ LF +:+ "HLT")))
    as [[labels ops]|] eqn:E; [|vm_compute in E; discriminate].
  apply (unplaced_cells_are_zero _ labels ops _ E Hp Ha 0%nat); [lia|].
  vm_compute in E. injection E as _ <-. intros o Ho Hocc.
  apply elem_of_cons in Ho as [->|Ho]; [discriminate|].
  apply elem_of_cons in Ho as [->|Ho]; [cbn; lia|]. inversion Ho.
Defined.

(** What an operation that occupies a cell does: it stores one byte, the
    same whatever the image holds, and moves the counter on by one. *)
Lemma assemble_step_writes (L : gmap string Z) (mem mem' : list Z)
    (pc pc' : Z) (o : operation) :
  occupies o = true ->
  assemble_step L (mem, pc) o = Ok (mem', pc') ->
  exists b : Z,
    is_byte b
    /\ forall m : list Z,
        assemble_step L (m, pc) o =
          (m' ← store m pc b; Ok (m', Z.land (pc + 1) 15)).
Proof.
  destruct o as [[op args] at_pc]. unfold occupies. cbn [fst snd].
  intros Ho H. apply andb_true_iff in Ho as [H1 H2].
  apply negb_true_iff in H1. apply negb_true_iff in H2.
  unfold assemble_step in *. rewrite H1, H2 in *.
  destruct (String.eqb op "DATA").
  { destruct args as [|a rest]; [discriminate|].
    destruct (parse_number a) as [v|]; [|cbn in H; discriminate].
    exists (Z.land v 255). split; [apply land_255_byte|]. reflexivity. }
  destruct (ISA !! op) as [[opcode needs]|]; [|discriminate].
  match type of H with
  | (?r ≫= _) = _ => destruct r as [operand|]; [|cbn in H; discriminate]
  end.
  eexists. split; [apply (encoded_is_byte opcode operand)|]. reflexivity.
Qed.

Lemma store_address (m : list Z) (a b : Z) :
  length m = 16%nat -> is_address a ->
  store m a b = Ok (<[Z.to_nat a := b]> m).
Proof.
  intros Hl Ha. apply store_in_bounds. unfold is_address in Ha. lia.
Qed.

Lemma first_pass_line_pc_address (st st1 : pass1) (line : string) :
  first_pass_line st line = Ok st1 -> is_address (pc st) -> is_address (pc st1).
Proof.
  intros E Ha. destruct (first_pass_line_step _ _ _ E) as (o & _ & _ & Hs).
  destruct (statement_of line) as [stmt|].
  - destruct Hs as (t0 & args & _ & _ & Hs).
    destruct (String.eqb (Str.upper t0) "ORG").
    + destruct Hs as (a & r & v & _ & _ & ->). apply land_15_address.
    + rewrite Hs. apply land_15_address.
  - destruct Hs as [_ ->]. exact Ha.
Qed.

(** The step of pass 2 over the operation of a line moves the counter as
    pass 1 did over the line. *)
Lemma assemble_step_follows (st st1 : pass1) (line : string) (o : operation)
    (L : gmap string Z) (mem mem1 : list Z) (pc1 : Z) :
  first_pass_line st line = Ok st1 ->
  plain_statement line = true ->
  out st1 = out st ++ [o] ->
  is_address (pc st) ->
  assemble_step L (mem, pc st) o = Ok (mem1, pc1) ->
  pc1 = pc st1 /\ o.2 = pc st /\ length mem1 = length mem.
Proof.
  intros E Hpl Hout Ha Hst.
  destruct (first_pass_line_step _ _ _ E) as (o' & Ho & Hat & Hs).
  rewrite Ho in Hout. apply app_inv_head in Hout. injection Hout as ->.
  destruct (assemble_step_effect L mem mem1 (pc st) pc1 o (proj1 Ha) Hst)
    as [Hpc Hmem].
  split; [|split; [exact Hat|]].
  - unfold plain_statement in Hpl. destruct (statement_of line) as [stmt|].
    + destruct Hs as (t0 & args & Ht & Ho1 & Hs). rewrite Ht in Hpl.
      rewrite Ho1 in Hpc. cbn in Hpc.
      apply negb_true_iff in Hpl. rewrite Hpl in Hpc.
      destruct (String.eqb (Str.upper t0) "ORG").
      * destruct Hs as (a & r & v & Hargs & Hv & ->).
        destruct Hpc as (a' & r' & v' & Hargs' & Hv' & ->).
        rewrite Hargs in Hargs'. injection Hargs' as <- <-.
        rewrite Hv in Hv'. injection Hv' as <-. reflexivity.
      * rewrite Hs, Hpc. reflexivity.
    + destruct Hs as [Ho1 ->]. rewrite Ho1 in Hpc. cbn in Hpc.
      rewrite Hpc. exact Hat.
  - destruct (occupies o); [|rewrite Hmem; reflexivity].
    destruct Hmem as [b ->]. apply length_insert.
Qed.

(** The byte of an operation stays in its cell while the operations after
    it are placed elsewhere. *)
Lemma passes_place (lines : list string) :
  forall (st st' : pass1) (new : list operation),
    first_pass_loop lines st = Ok st' ->
    Forall (fun line => plain_statement line = true) lines ->
    is_address (pc st) ->
    out st' = out st ++ new ->
    forall (L : gmap string Z) (mem : list Z) (st2 : list Z * Z)
           (pre : list operation) (o : operation) (post : list operation),
      new = pre ++ o :: post ->
      occupies o = true ->
      (forall o' : operation, o' ∈ post -> occupies o' = true -> o'.2 <> o.2) ->
      length mem = 16%nat ->
      assemble_loop L new (mem, pc st) = Ok st2 ->
      exists b : Z,
        is_byte b /\ is_address o.2
        /\ st2.1 !! Z.to_nat o.2 = Some b
        /\ forall m : list Z,
            length m = 16%nat ->
            assemble_step L (m, o.2) o
              = Ok (<[Z.to_nat o.2 := b]> m, Z.land (o.2 + 1) 15).
Proof.
  induction lines as [|line rest IH];
    intros st st' new H Hp Ha Hout L mem st2 pre o post Hnew Hocc Hfree Hlen Hrun;
    cbn in H.
  - injection H as <-. rewrite <- (app_nil_r (out st)) in Hout at 1.
    apply app_inv_head in Hout. subst new. destruct pre; discriminate.
  - destruct (first_pass_line st line) as [st1|] eqn:E; [|discriminate].
    cbn in H. apply Forall_cons in Hp as [Hpl Hp].
    destruct (first_pass_line_step _ _ _ E) as (o0 & Ho0 & Hat & _).
    pose proof (first_pass_line_pc_address _ _ _ E Ha) as Ha1.
    destruct (passes_agree rest st1 st' H Hp Ha1) as (new1 & Hout1 & Hrun1).
    rewrite Hout1, Ho0, <- app_assoc in Hout. apply app_inv_head in Hout.
    cbn in Hout. subst new. rewrite assemble_loop_cons in Hrun.
    apply bind_ok_inv in Hrun as ([mem1 pc1] & Es & Hrun).
    destruct (assemble_step_follows st st1 line o0 L mem mem1 pc1
                E Hpl Ho0 Ha Es) as (-> & _ & Hlen1).
    destruct pre as [|p pre]; cbn in Hnew; injection Hnew as -> ->.
    + destruct (assemble_step_writes L mem mem1 (pc st) (pc st1) o Hocc Es)
        as (b & Hb & Hw).
      rewrite Hat in *. exists b. split; [exact Hb|]. split; [exact Ha|].
      split.
      * rewrite Hw, (store_address mem (pc st) b Hlen Ha) in Es. cbn in Es.
        injection Es as <- _.
        rewrite (proj2 (Hrun1 L _) st2 (Z.to_nat (pc st)) Hrun).
        -- apply list_lookup_insert_eq. destruct Ha. lia.
        -- intros o' Ho' Hocc'. destruct Ha. rewrite Z2Nat.id by lia.
           apply Hfree; assumption.
      * intros m Hm. rewrite Hw, (store_address m (pc st) b Hm Ha).
        reflexivity.
    + apply (IH st1 st' (pre ++ o :: post) H Hp Ha1 Hout1 L mem1 st2 pre o post);
        try assumption; try reflexivity. rewrite Hlen1. exact Hlen.
Qed.

(** X9: the image holds, at the address of an operation that occupies a
    cell, the byte that operation writes on its own, unless a later
    operation is placed at the same address (no statement having [NOPLINE]
    as mnemonic). *)
Theorem last_operation_at_address_wins :
  forall (src : string) (labels : gmap string Z) (ops : list operation)
         (image : list Z),
    first_pass (tokenize src) = Ok (labels, ops) ->
    Forall (fun line => plain_statement line = true) (tokenize src) ->
    assemble src = Ok image ->
    forall (pre : list operation) (o : operation) (post : list operation),
      ops = pre ++ o :: post ->
      occupies o = true ->
      (forall o' : operation, o' ∈ post -> occupies o' = true -> o'.2 <> o.2) ->
      exists b : Z,
        is_byte b /\ is_address o.2
        /\ image !! Z.to_nat o.2 = Some b
        /\ forall m : list Z,
            length m = 16%nat ->
            assemble_step labels (m, o.2) o
              = Ok (<[Z.to_nat o.2 := b]> m, Z.land (o.2 + 1) 15).
Proof.
  intros src labels ops image H Hp Ha pre o post Hops Hocc Hfree.
  unfold assemble, assemble_run in Ha. rewrite H in Ha. cbn in Ha.
  destruct (assemble_loop labels ops _) as [st|] eqn:El; [|discriminate].
  cbn in Ha. injection Ha as <-.
  rewrite first_pass_eq in H.
  destruct (first_pass_loop (tokenize src) _) as [st'|] eqn:E; [|discriminate].
  injection H as <- <-.
  apply (passes_place (tokenize src) (Pass1 0 ∅ []) st' (out st') E Hp
           ltac:(unfold is_address; cbn; lia) eq_refl
           _ (replicate 16 0) st pre o post Hops Hocc Hfree
           eq_refl El).
Qed.

Lemma last_operation_at_address_wins_witness :
  exists image : list Z,
    assemble ("DATA 7" +:+ LF +:+ "ORG 0" +:+ LF +:+ "LDA 3") = Ok image
    /\ image !! 0%nat = Some 19.
Proof.
  set (src := "DATA 7" +:+ LF +:+ "ORG 0" +:+ LF +:+ "LDA 3").
  destruct (assemble src) as [image|] eqn:Ea; [|vm_compute in Ea; discriminate].
  exists image. split; [reflexivity|].
  destruct (first_pass (tokenize src)) as [[labels ops]|] eqn:E;
    [|vm_compute in E; discriminate].
  assert (Hops : ops = [("DATA", ["7"], 0); ("ORG", ["0"], 1)]
                         ++ ("LDA", ["3"], 0) :: [])
    by (vm_compute in E; injection E as _ <-; reflexivity).
  destruct (last_operation_at_address_wins src labels ops image E
              ltac:(vm_compute; repeat constructor) Ea _ _ _ Hops eq_refl)
    as (b & _ & _ & Hb & Hw).
  { intros o' Ho'. inversion Ho'. }
  change (image !! 0%nat = Some b) in Hb. rewrite Hb. f_equal.
  specialize (Hw (replicate 16 0) eq_refl).
  vm_compute in E. injection E as <- _. vm_compute in Hw.
  injection Hw as Hw. congruence.
Defined.

(** ** Encoding and errors of pass 2 *)

Lemma ISA_entries (op : string) (e : Z * bool) :
  ISA !! op = Some e ->
  (op, e) ∈ [ ("LDA", (1, true)); ("LDB", (2, true)); ("ADD", (3, false));
              ("SHL_A", (4, false)); ("SHR_A", (5, false));
              ("SHL_B", (6, false)); ("SHR_B", (7, false));
              ("JUMP", (8, true)); ("HLT", (9, false)) ].
Proof. intros H. apply elem_of_list_to_map_2 in H. exact H. Qed.

Ltac ISA_cases H :=
  apply ISA_entries in H;
  repeat (apply elem_of_cons in H as [H|H]; [injection H as ? ? ?|]);
  [..|inversion H].

Lemma ISA_opcode_address (op : string) (opcode : Z) (needs : bool) :
  ISA !! op = Some (opcode, needs) -> is_address opcode.
Proof. intros H. unfold is_address. ISA_cases H; subst; lia. Qed.

(** Distinct mnemonics have distinct opcodes. *)
Lemma ISA_opcode_injective (op op' : string) (opcode : Z) (needs needs' : bool) :
  ISA !! op = Some (opcode, needs) -> ISA !! op' = Some (opcode, needs') ->
  op' = op /\ needs' = needs.
Proof.
  intros H H'. ISA_cases H; ISA_cases H'; subst; try discriminate;
    split; reflexivity.
Qed.

Lemma nibbles (c x : Z) :
  is_address c -> is_address x ->
  Z.shiftr (Z.lor (Z.shiftl c 4) x) 4 = c
  /\ Z.land (Z.lor (Z.shiftl c 4) x) 15 = x.
Proof.
  unfold is_address. intros Hc Hx.
  assert (c = 0 \/ c = 1 \/ c = 2 \/ c = 3 \/ c = 4 \/ c = 5 \/ c = 6
          \/ c = 7 \/ c = 8 \/ c = 9 \/ c = 10 \/ c = 11 \/ c = 12
          \/ c = 13 \/ c = 14 \/ c = 15) as Cc by lia.
  assert (x = 0 \/ x = 1 \/ x = 2 \/ x = 3 \/ x = 4 \/ x = 5 \/ x = 6
          \/ x = 7 \/ x = 8 \/ x = 9 \/ x = 10 \/ x = 11 \/ x = 12
          \/ x = 13 \/ x = 14 \/ x = 15) as Cx by lia.
  clear Hc Hx.
  repeat (destruct Cc as [-> | Cc]); try subst c;
    repeat (destruct Cx as [-> | Cx]); try subst x; split; reflexivity.
Qed.

Lemma land_15_small (v : Z) : is_address v -> Z.land v 15 = v.
Proof.
  unfold is_address. intros H. change 15 with (Z.ones 4).
  rewrite Z.land_ones by lia. apply Z.mod_small. lia.
Qed.

Lemma operand_of_address (L : gmap string Z) (a : string) (v : Z) :
  operand_of L a = Ok v -> is_address v.
Proof.
  unfold operand_of. destruct (L !! a).
  - intros [= <-]. apply land_15_address.
  - destruct (parse_number a); [|discriminate]. cbn. intros [= <-].
    apply land_15_address.
Qed.

(** X10: the byte written for an instruction can be decoded: its high
    nibble is the opcode, which determines the mnemonic; its low nibble is
    the operand (label address or number, modulo 16), and 0 for an
    instruction without operand. *)
Theorem instruction_byte_decodes :
  forall (L : gmap string Z) (mem mem' : list Z) (pc pc' at_pc opcode : Z)
         (op : string) (args : list string) (needs : bool),
    ISA !! op = Some (opcode, needs) ->
    0 <= pc < Z.of_nat (length mem) ->
    assemble_step L (mem, pc) (op, args, at_pc) = Ok (mem', pc') ->
    exists b : Z,
      mem' !! Z.to_nat pc = Some b
      /\ Z.shiftr b 4 = opcode
      /\ (forall (op' : string) (needs' : bool),
            ISA !! op' = Some (Z.shiftr b 4, needs') ->
            op' = op /\ needs' = needs)
      /\ (if needs
          then exists (a : string) (rest : list string),
              args = a :: rest /\ operand_of L a = Ok (Z.land b 15)
          else Z.land b 15 = 0).
Proof.
  intros L mem mem' pc pc' at_pc opcode op args needs HI Hpc H.
  rewrite (assemble_step_instruction _ _ _ _ _ _ _ _ HI) in H.
  apply bind_ok_inv in H as (operand & Hop & H).
  apply bind_ok_inv in H as (m & Hs & H). injection H as <- <-.
  rewrite store_in_bounds in Hs by exact Hpc. injection Hs as <-.
  assert (Hc : is_address opcode).
  { unfold is_address. ISA_cases HI; subst; lia. }
  assert (Hx : is_address operand).
  { destruct needs.
    - destruct args as [|a rest]; [discriminate|].
      eapply operand_of_address, Hop.
    - injection Hop as <-. unfold is_address. lia. }
  rewrite (land_15_small opcode Hc), (land_15_small operand Hx).
  destruct (nibbles opcode operand Hc Hx) as [Hhi Hlo].
  eexists. split; [apply list_lookup_insert_eq; lia|].
  split; [exact Hhi|]. split.
  - intros op' needs' H'. rewrite Hhi in H'.
    exact (ISA_opcode_injective _ _ _ _ _ HI H').
  - rewrite Hlo. destruct needs.
    + destruct args as [|a rest]; [discriminate|]. exists a, rest.
      split; [reflexivity|exact Hop].
    + injection Hop as <-. reflexivity.
Qed.

Lemma instruction_byte_decodes_witness :
  assemble_step {["loop" := 6]} (replicate 16 0, 2) ("JUMP", ["loop"], 2)
    = Ok (<[2%nat := 134]> (replicate 16 0), 3)
  /\ Z.shiftr 134 4 = 8 /\ Z.land 134 15 = 6.
Proof.
  assert (H : assemble_step {["loop" := 6]} (replicate 16 0, 2)
                ("JUMP", ["loop"], 2)
              = Ok (<[2%nat := 134]> (replicate 16 0), 3))
    by (vm_compute; reflexivity).
  split; [exact H|].
  assert (HI : ISA !! "JUMP" = Some (8, true)) by (vm_compute; reflexivity).
  assert (Hpc : 0 <= 2 < Z.of_nat (length (replicate 16 0)))
    by (rewrite length_replicate; lia).
  destruct (instruction_byte_decodes _ _ _ _ _ _ _ _ _ _ HI Hpc H)
    as (b & Hb & Hhi & _ & _).
  vm_compute in Hb. injection Hb as <-. split; [exact Hhi|reflexivity].
Defined.

(** ** Label operands *)

(** C3: a label resolves to the address of the line that defines it,
    whether that line comes after or before the use.  For every source
    that assembles: when line [d] defines [name], an operand [name]
    resolves to the address pass 1 recorded for line [d]; an instruction
    that takes [name] as operand writes its opcode over that address at
    whatever cell it is run; and the image holds that byte at the cell of the
    instruction (unless a later operation is placed on the same cell, and no
    statement having [NOPLINE] as mnemonic).  The position of the
    instruction is not constrained: it may precede line [d] or follow it.
    In particular [JUMP end / HLT / end: HLT] assembles and byte 0 is
    [(0x8 << 4) | 2 = 0x82], and a second [JUMP end] after the definition is
    encoded with the same byte. *)
Theorem forward_label_resolves :
  (forall (src : string) (labels : gmap string Z) (ops : list operation)
          (image : list Z) (d : nat) (line_d name : string) (o_d : operation),
      first_pass (tokenize src) = Ok (labels, ops) ->
      assemble src = Ok image ->
      tokenize src !! d = Some line_d ->
      label_of line_d = Some name ->
      ops !! d = Some o_d ->
      operand_of labels name = Ok o_d.2
      /\ forall (pre post : list operation) (op : string) (rest : list string)
                (at_pc opcode : Z),
          ops = pre ++ (op, name :: rest, at_pc) :: post ->
          ISA !! op = Some (opcode, true) ->
          (forall (mem : list Z) (pc : Z),
              0 <= pc < Z.of_nat (length mem) ->
              assemble_step labels (mem, pc) (op, name :: rest, at_pc)
                = Ok (<[Z.to_nat pc := Z.lor (Z.shiftl opcode 4) o_d.2]> mem,
                      Z.land (pc + 1) 15))
          /\ (Forall (fun line => plain_statement line = true) (tokenize src) ->
              (forall o' : operation,
                  o' ∈ post -> occupies o' = true -> o'.2 <> at_pc) ->
              image !! Z.to_nat at_pc
                = Some (Z.lor (Z.shiftl opcode 4) o_d.2)))
  /\ (exists mem : list Z,
      assemble ("JUMP end" +:+ LF +:+ "HLT" +:+ LF +:+ "end: HLT") = Ok mem
      /\ mem !! 0%nat = Some (Z.lor (Z.shiftl 8 4) 2)
      /\ Z.lor (Z.shiftl 8 4) 2 = 130)
  /\ (exists mem : list Z,
      assemble ("JUMP end" +:+ LF +:+ "HLT" +:+ LF +:+ "end: HLT" +:+ LF +:+ "JUMP end")
        = Ok mem
      /\ mem !! 0%nat = Some 130 /\ mem !! 3%nat = Some 130).
Proof.
  split;
    [|split; eexists; (split; [vm_compute; reflexivity|]); repeat split].
  intros src labels ops image d line_d name o_d H Ha Hd Hn Ho.
  pose proof (first_pass_addresses _ _ _ H) as Haddr.
  pose proof H as H'. rewrite first_pass_eq in H'.
  destruct (first_pass_loop (tokenize src) _) as [st|] eqn:E; [|discriminate].
  injection H' as <- <-.
  destruct (first_pass_loop_trace _ _ _ E) as (new & Hout & _ & _ & Hlab).
  cbn in Hout.
  assert (Hl : labels st !! name = Some o_d.2).
  { apply Hlab. right. exists d, line_d, o_d. rewrite <- Hout.
    repeat split; assumption. }
  assert (Hod : is_address o_d.2).
  { rewrite Forall_forall in Haddr. apply Haddr.
    eapply list_elem_of_lookup_2, Ho. }
  assert (Hop : operand_of (labels st) name = Ok o_d.2).
  { unfold operand_of. rewrite Hl, (land_15_small _ Hod). reflexivity. }
  split; [exact Hop|].
  intros pre post op rest at_pc opcode Hops HI.
  pose proof (ISA_opcode_address _ _ _ HI) as Hc.
  assert (Hstep : forall (mem : list Z) (pc : Z),
             0 <= pc < Z.of_nat (length mem) ->
             assemble_step (labels st) (mem, pc) (op, name :: rest, at_pc)
             = Ok (<[Z.to_nat pc := Z.lor (Z.shiftl opcode 4) o_d.2]> mem,
                   Z.land (pc + 1) 15)).
  { intros mem pc Hpc.
    rewrite (assemble_step_instruction _ _ _ _ _ _ _ _ HI), Hop. cbn.
    rewrite (land_15_small _ Hc), (land_15_small _ Hod).
    rewrite store_in_bounds by exact Hpc. reflexivity. }
  split; [exact Hstep|].
  intros Hp Hfree.
  unfold assemble, assemble_run in Ha. rewrite H in Ha. cbn in Ha.
  destruct (assemble_loop (labels st) (out st) _) as [st2|] eqn:El;
    [|discriminate].
  cbn in Ha. injection Ha as <-.
  destruct (ISA_not_directive _ _ HI) as (H1 & H2 & _).
  destruct (passes_place (tokenize src) (Pass1 0 ∅ []) st (out st) E Hp
              ltac:(unfold is_address; cbn; lia) eq_refl
              (labels st) (replicate 16 0) st2 pre (op, name :: rest, at_pc)
              post Hops ltac:(unfold occupies; cbn; rewrite H1, H2; reflexivity)
              Hfree eq_refl El) as (b & _ & Hat & Hb & Hw).
  cbn [fst snd] in Hat, Hb, Hw. rewrite Hb. f_equal.
  assert (Hlen : length (replicate 16 0) = 16%nat) by reflexivity.
  specialize (Hw (replicate 16 0) Hlen).
  rewrite Hstep in Hw by (rewrite Hlen; unfold is_address in Hat; lia).
  injection Hw as Hw.
  apply (f_equal (fun m : list Z => m !! Z.to_nat at_pc)) in Hw.
  rewrite !list_lookup_insert_eq in Hw
    by (unfold is_address in Hat; cbn [length]; lia).
  congruence.
Qed.

(** [JUMP end / HLT / end: HLT]: the use on line 0 precedes the definition
    on line 2. *)
Lemma forward_label_resolves_witness :
  exists image : list Z,
    assemble ("JUMP end" +:+ LF +:+ "HLT" +:+ LF +:+ "end: HLT") = Ok image
    /\ image !! 0%nat = Some 130.
Proof.
  set (src := "JUMP end" +:+ LF +:+ "HLT" +:+ LF +:+ "end: HLT").
  destruct (assemble src) as [image|] eqn:Ea; [|vm_compute in Ea; discriminate].
  exists image. split; [reflexivity|].
  destruct (first_pass (tokenize src)) as [[labels ops]|] eqn:E;
    [|vm_compute in E; discriminate].
  assert (Hops : ops = [] ++ ("JUMP", ["end"], 0)
                          :: [("HLT", [], 1); ("HLT", [], 2)])
    by (vm_compute in E; injection E as _ <-; reflexivity).
  assert (Ht : tokenize src = ["JUMP end"; "HLT"; "end: HLT"])
    by (vm_compute; reflexivity).
  assert (Hl : label_of "end: HLT" = Some "end") by (vm_compute; reflexivity).
  assert (HI : ISA !! "JUMP" = Some (8, true)) by (vm_compute; reflexivity).
  destruct forward_label_resolves as [G _].
  destruct (G src labels ops image 2%nat "end: HLT" "end" ("HLT", [], 2)
              E Ea ltac:(rewrite Ht; reflexivity) Hl
              ltac:(rewrite Hops; reflexivity))
    as [_ G'].
  destruct (G' [] [("HLT", [], 1); ("HLT", [], 2)] "JUMP" [] 0 8 Hops HI)
    as [_ Hi].
  apply Hi.
  - rewrite Ht. repeat (constructor; [vm_compute; reflexivity|]). constructor.
  - intros o' Ho'. cbn [snd].
    repeat (apply elem_of_cons in Ho' as [->|Ho']; [cbn; lia|]).
    inversion Ho'.
Defined.

(** C4 (as the code has it): the operand token [a] of an instruction is
    used only when the instruction takes an operand, which [LDA], [LDB] and
    [JUMP] do.  For these the label table is asked first: when [a] is a key,
    the byte written has the label's address, masked to 4 bits, as low
    nibble, whatever [parse_number a] would give; only when [a] is no key is
    it parsed as a number.  For an instruction that takes no operand the
    token is neither looked up nor parsed: the low nibble is 0 whatever the
    token and the label table are. *)
Theorem label_lookup_before_number :
  forall (labels : gmap string Z) (op a : string) (rest : list string)
         (opcode at_pc pc : Z) (needs : bool) (mem : list Z),
    ISA !! op = Some (opcode, needs) ->
    (needs = true <-> op = "LDA" \/ op = "LDB" \/ op = "JUMP")
    /\ (needs = true ->
        (forall addr : Z, labels !! a = Some addr ->
           operand_of labels a = Ok (Z.land addr 15)
           /\ assemble_step labels (mem, pc) (op, a :: rest, at_pc) =
                (mem' ← store mem pc
                          (Z.lor (Z.shiftl (Z.land opcode 15) 4)
                                 (Z.land (Z.land addr 15) 15));
                 Ok (mem', Z.land (pc + 1) 15))
           /\ Z.land (Z.lor (Z.shiftl (Z.land opcode 15) 4)
                            (Z.land (Z.land addr 15) 15)) 15
              = Z.land addr 15)
        /\ (labels !! a = None ->
            operand_of labels a = (v ← parse_number a; Ok (Z.land v 15))
            /\ assemble_step labels (mem, pc) (op, a :: rest, at_pc) =
                 (v ← parse_number a;
                  mem' ← store mem pc
                           (Z.lor (Z.shiftl (Z.land opcode 15) 4)
                                  (Z.land (Z.land v 15) 15));
                  Ok (mem', Z.land (pc + 1) 15))))
    /\ (needs = false ->
        assemble_step labels (mem, pc) (op, a :: rest, at_pc) =
          (mem' ← store mem pc
                    (Z.lor (Z.shiftl (Z.land opcode 15) 4) (Z.land 0 15));
           Ok (mem', Z.land (pc + 1) 15))
        /\ Z.land (Z.lor (Z.shiftl (Z.land opcode 15) 4) (Z.land 0 15)) 15 = 0
        /\ forall (labels' : gmap string Z) (args' : list string),
            assemble_step labels' (mem, pc) (op, args', at_pc)
            = assemble_step labels (mem, pc) (op, a :: rest, at_pc)).
Proof.
  intros labels op a rest opcode at_pc pc needs mem HI.
  pose proof (ISA_opcode_address _ _ _ HI) as Hc.
  split; [|split].
  - pose proof HI as HI'. ISA_cases HI'; subst; split; intros C;
      try discriminate; try reflexivity; auto;
      destruct C as [C|[C|C]]; discriminate.
  - intros ->. rewrite (assemble_step_instruction _ _ _ _ _ _ _ _ HI).
    split.
    + intros addr Ha. unfold operand_of. rewrite Ha.
      split; [reflexivity|]. split; [reflexivity|].
      rewrite (land_15_small _ Hc), (land_15_small _ (land_15_address addr)).
      apply (nibbles opcode (Z.land addr 15) Hc (land_15_address addr)).
    + intros Ha. unfold operand_of. rewrite Ha. split; [reflexivity|].
      destruct (parse_number a); reflexivity.
  - intros ->. rewrite (assemble_step_instruction _ _ _ _ _ _ _ _ HI).
    split; [reflexivity|]. split.
    + rewrite (land_15_small _ Hc).
      apply (nibbles opcode 0 Hc). unfold is_address. lia.
    + intros labels' args'.
      rewrite (assemble_step_instruction _ _ _ _ _ _ _ _ HI). reflexivity.
Qed.

(** The label ["5"] stands at address 0, so [LDA 5] loads from 0, not 5. *)
Lemma label_lookup_before_number_witness :
  ISA !! "LDA" = Some (1, true)
  /\ ({["5" := 0]} : gmap string Z) !! "5" = Some 0
  /\ parse_number "5" = Ok 5
  /\ assemble_step {["5" := 0]} (replicate 16 0, 0) ("LDA", ["5"], 0)
     = Ok (16 :: replicate 15 0, 1)
  /\ assemble ("5: LDA 5") = Ok (16 :: replicate 15 0).
Proof.
  assert (HI : ISA !! "LDA" = Some (1, true)) by (vm_compute; reflexivity).
  assert (HL : ({["5" := 0]} : gmap string Z) !! "5" = Some 0)
    by (vm_compute; reflexivity).
  split; [exact HI|]. split; [exact HL|]. split; [vm_compute; reflexivity|].
  split; [|vm_compute; reflexivity].
  destruct (label_lookup_before_number {["5" := 0]} "LDA" "5" [] 1 0 0 true
              (replicate 16 0) HI) as (_ & H & _).
  destruct (H eq_refl) as [H' _].
  destruct (H' 0 HL) as (_ & -> & _). vm_compute. reflexivity.
Defined.

(** C4 as stated fails for an instruction that takes no operand: in
    [HLT / x: ADD x] the token [x] after [ADD] is a key of the label table,
    at address 1, and the byte of [ADD] is [0x30], with low nibble 0. *)
Lemma operand_of_operandless_ignored :
  first_pass (tokenize ("HLT" +:+ LF +:+ "x: ADD x"))
    = Ok ({["x" := 1]}, [("HLT", [], 0); ("ADD", ["x"], 1)])
  /\ ISA !! "ADD" = Some (3, false)
  /\ assemble ("HLT" +:+ LF +:+ "x: ADD x") = Ok (144 :: 48 :: replicate 14 0)
  /\ Z.land 48 15 = 0
  /\ Z.land 48 15 <> Z.land 1 15.
Proof.
  split; [vm_compute; reflexivity|]. split; [vm_compute; reflexivity|].
  split; [vm_compute; reflexivity|]. split; [reflexivity|].
  vm_compute. discriminate.
Qed.

(** Why one step of pass 2 fails. *)
Lemma assemble_step_error (L : gmap string Z) (mem : list Z) (pc : Z)
    (op : string) (args : list string) (at_pc : Z) (e : error) :
  image_ok (mem, pc) ->
  assemble_step L (mem, pc) (op, args, at_pc) = Err e ->
  String.eqb op "NOPLINE" = false
  /\ match e with
     | UnknownInstruction name =>
         name = op /\ ISA !! op = None
         /\ String.eqb op "ORG" = false /\ String.eqb op "DATA" = false
     | MissingOperand name addr =>
         name = op /\ addr = pc /\ args = []
         /\ exists opcode : Z, ISA !! op = Some (opcode, true)
     | InvalidNumericLiteral tok =>
         exists (a : string) (rest : list string),
           args = a :: rest /\ tok = Str.strip a /\ parse_number a = Err e
           /\ (String.eqb op "ORG" = false -> String.eqb op "DATA" = false ->
               L !! a = None)
     | IndexError =>
         args = [] /\ (op = "ORG" \/ op = "DATA")
     | DuplicateLabel _ => False
     end.
Proof.
  intros (Hl & _ & Hp) H. cbn in Hl, Hp. unfold is_address in Hp.
  assert (Hst : forall v, exists m, store mem pc v = Ok m).
  { intros v. eexists. apply store_in_bounds. lia. }
  unfold assemble_step in H.
  destruct (String.eqb op "NOPLINE"); [discriminate|]. split; [reflexivity|].
  destruct (String.eqb_spec op "ORG") as [->|Ho].
  { destruct args as [|a rest]; [injection H as <-; auto|].
    destruct (parse_number a) as [v|e'] eqn:E; [cbn in H; discriminate|].
    cbn in H.
    injection H as <-. pose proof (parse_number_error _ _ E) as He'. subst e'.
    exists a, rest. repeat split; try assumption.
    intros C. discriminate C. }
  destruct (String.eqb_spec op "DATA") as [->|Hd].
  { destruct args as [|a rest]; [injection H as <-; auto|].
    destruct (parse_number a) as [v|e'] eqn:E.
    - cbn in H. destruct (Hst (Z.land v 255)) as [m Hm]. rewrite Hm in H.
      discriminate.
    - cbn in H. injection H as <-. pose proof (parse_number_error _ _ E) as He'. subst e'.
      exists a, rest. repeat split; try assumption.
      intros _ C. discriminate C. }
  destruct (ISA !! op) as [[opcode needs]|] eqn:EI.
  - destruct needs.
    + destruct args as [|a rest].
      * cbn in H. injection H as <-. repeat split. eauto.
      * unfold operand_of in H. destruct (L !! a) as [addr|] eqn:EL.
        -- cbn in H. destruct (Hst (Z.lor (Z.shiftl (Z.land opcode 15) 4)
                                      (Z.land (Z.land addr 15) 15))) as [m Hm].
           rewrite Hm in H. discriminate.
        -- destruct (parse_number a) as [v|e'] eqn:E.
           ++ cbn in H.
              destruct (Hst (Z.lor (Z.shiftl (Z.land opcode 15) 4)
                              (Z.land (Z.land v 15) 15))) as [m Hm].
              rewrite Hm in H. discriminate.
           ++ cbn in H. injection H as <-.
              pose proof (parse_number_error _ _ E) as He'. subst e'.
              exists a, rest. repeat split; try assumption.
              intros _ _. exact EL.
    + cbn in H. destruct (Hst (Z.lor (Z.shiftl (Z.land opcode 15) 4)
                                (Z.land 0 15))) as [m Hm].
      rewrite Hm in H. discriminate.
  - injection H as <-. repeat split; try assumption; try reflexivity;
      apply String.eqb_neq; assumption.
Qed.

Lemma assemble_loop_failing_step (L : gmap string Z) (ops : list operation) :
  forall (st : list Z * Z) (e : error),
    image_ok st -> Forall (fun o : operation => is_address o.2) ops ->
    assemble_loop L ops st = Err e ->
    exists (o : operation) (st0 : list Z * Z),
      o ∈ ops /\ image_ok st0 /\ assemble_step L st0 o = Err e.
Proof.
  induction ops as [|o rest IH]; intros st e Hst Hops H; [discriminate|].
  rewrite assemble_loop_cons in H. apply Forall_cons in Hops as [Ho Hops].
  destruct (assemble_step L st o) as [st1|e1] eqn:E.
  - cbn in H. destruct (IH st1 e) as (o' & st0 & Hin & Hok & Hf);
      [eapply assemble_step_ok; eassumption|exact Hops|exact H|].
    exists o', st0. split; [right; exact Hin|]. split; assumption.
  - cbn in H. injection H as <-. exists o, st. split; [left|].
    split; assumption.
Qed.

(** Every operation pass 1 returns comes from a line. *)
Lemma first_pass_operation_line (lines : list string)
    (labels : gmap string Z) (ops : list operation) (o : operation) :
  first_pass lines = Ok (labels, ops) -> o ∈ ops ->
  exists line : string,
    line ∈ lines
    /\ match statement_of line with
       | None => o.1 = ("NOPLINE", [])
       | Some stmt =>
           exists (t0 : string) (args : list string),
             tokens stmt = t0 :: args /\ o.1 = (Str.upper t0, args)
       end.
Proof.
  intros H Ho. rewrite first_pass_eq in H.
  destruct (first_pass_loop lines _) as [st|] eqn:E; [|discriminate].
  injection H as <- <-.
  destruct (first_pass_loop_trace _ _ _ E) as (new & Hout & Hlen & Hops & _).
  cbn in Hout. rewrite Hout in Ho.
  apply list_elem_of_lookup in Ho as [i Hi].
  destruct (lines !! i) as [line|] eqn:El.
  - destruct (Hops i line El) as (o' & Ho' & Hs).
    unfold operation in *. rewrite Hi in Ho'. injection Ho' as <-.
    exists line. split; [eapply list_elem_of_lookup_2, El|exact Hs].
  - apply lookup_ge_None in El. apply lookup_lt_Some in Hi. lia.
Qed.

(** X11: every failure of [assemble] has its cause in a line of the
    source.  [DuplicateLabel]: two lines define the label.
    [UnknownInstruction]: the upper-cased first token of a statement is no
    key of [ISA] and no directive.  [MissingOperand]: a statement is a
    single token, an instruction that takes an operand; the address reported
    is in 0..15.  [InvalidNumericLiteral]: the second token of a statement,
    stripped, is the text [parse_number] rejected.  [IndexError]: a
    statement has no token, or is [ORG] or [DATA] with no argument. *)
Theorem assemble_error_has_cause :
  forall (src : string) (e : error),
    assemble src = Err e ->
    match e with
    | DuplicateLabel name => defined_twice (tokenize src) name
    | UnknownInstruction name =>
        exists (line stmt t0 : string) (args : list string),
          line ∈ tokenize src /\ statement_of line = Some stmt
          /\ tokens stmt = t0 :: args /\ name = Str.upper t0
          /\ ISA !! name = None /\ name <> "ORG" /\ name <> "DATA"
    | MissingOperand name addr =>
        exists (line stmt t0 : string) (opcode : Z),
          line ∈ tokenize src /\ statement_of line = Some stmt
          /\ tokens stmt = [t0] /\ name = Str.upper t0
          /\ ISA !! name = Some (opcode, true) /\ is_address addr
    | InvalidNumericLiteral tok =>
        exists (line stmt t0 a : string) (rest : list string),
          line ∈ tokenize src /\ statement_of line = Some stmt
          /\ tokens stmt = t0 :: a :: rest /\ tok = Str.strip a
          /\ parse_number a = Err e
    | IndexError =>
        exists (line stmt : string),
          line ∈ tokenize src /\ statement_of line = Some stmt
          /\ (tokens stmt = []
              \/ exists t0 : string,
                  tokens stmt = [t0]
                  /\ (Str.upper t0 = "ORG" \/ Str.upper t0 = "DATA"))
    end.
Proof.
  intros src e H. unfold assemble, assemble_run in H.
  destruct (first_pass (tokenize src)) as [[labels ops]|e1] eqn:E1.
  - (* pass 2 failed *)
    cbn in H.
    destruct (assemble_loop labels ops _) as [st|e2] eqn:E2; [discriminate|].
    cbn in H. injection H as ->.
    destruct (assemble_loop_failing_step _ _ _ _ image_ok_init
                (first_pass_addresses _ _ _ E1) E2)
      as ([[op args] at_pc] & [mem pc] & Hin & Hok & Hf).
    destruct (first_pass_operation_line _ _ _ _ E1 Hin) as (line & Hl & Hs).
    destruct (assemble_step_error _ _ _ _ _ _ _ Hok Hf) as [Hn He].
    destruct (statement_of line) as [stmt|] eqn:Est.
    2:{ cbn in Hs. injection Hs as -> _. discriminate. }
    destruct Hs as (t0 & args' & Ht & Ho). cbn in Ho.
    injection Ho as -> ->.
    destruct e as [name|name|name addr|tok|].
    + destruct He.
    + destruct He as (-> & HI & Ho & Hd).
      exists line, stmt, t0, args'. repeat split; try assumption.
      * intros C. rewrite C in Ho. discriminate.
      * intros C. rewrite C in Hd. discriminate.
    + destruct He as (-> & -> & -> & opcode & HI).
      exists line, stmt, t0, opcode. repeat split; try assumption;
        destruct Hok as (_ & _ & Hp); apply Hp.
    + destruct He as (a & rest & -> & -> & Hp & _).
      exists line, stmt, t0, a, rest. repeat split; assumption.
    + destruct He as [-> Hd]. exists line, stmt.
      split; [exact Hl|]. split; [exact Est|]. right. exists t0.
      split; assumption.
  - (* pass 1 failed *)
    cbn in H. injection H as ->. rewrite first_pass_eq in E1.
    destruct (first_pass_loop (tokenize src) _) as [st|e'] eqn:E; [discriminate|].
    injection E1 as ->.
    destruct (first_pass_loop_failing_line _ _ _ E) as (line & st0 & Hin & Hf).
    apply first_pass_line_error in Hf as [(name & -> & _)|(stmt & Hs & Ht)].
    + apply first_pass_loop_duplicate in E as [[[addr Hl] _]|Hd]; [|exact Hd].
      cbn in Hl. rewrite lookup_empty in Hl. discriminate.
    + destruct (tokens stmt) as [|t0 args] eqn:Et.
      * subst e. exists line, stmt. repeat split; try assumption. left.
        exact Et.
      * destruct Ht as [Ho Ht]. apply String.eqb_eq in Ho.
        destruct args as [|a rest].
        -- subst e. exists line, stmt. repeat split; try assumption.
           right. exists t0. split; [exact Et|left; exact Ho].
        -- destruct Ht as [Hp He]. rewrite He in *.
           exists line, stmt, t0, a, rest. repeat split; assumption.
Qed.

Lemma assemble_error_has_cause_witness :
  assemble ("LDA 3" +:+ LF +:+ "x: jmp x") = Err (UnknownInstruction "JMP")
  /\ exists (line stmt t0 : string) (args : list string),
      line ∈ tokenize ("LDA 3" +:+ LF +:+ "x: jmp x")
      /\ statement_of line = Some stmt
      /\ tokens stmt = t0 :: args /\ "JMP" = Str.upper t0
      /\ ISA !! "JMP" = None /\ "JMP" <> "ORG" /\ "JMP" <> "DATA".
Proof.
  assert (H : assemble ("LDA 3" +:+ LF +:+ "x: jmp x")
              = Err (UnknownInstruction "JMP")) by (vm_compute; reflexivity).
  split; [exact H|]. exact (assemble_error_has_cause _ _ H).
Defined.

(** ** Printing the image *)

Lemma bytes_print_and_parse :
  forallb (fun n : nat =>
             let b := Z.of_nat n in
             (String.length (format_02X b) =? 2)%nat
             && Str.all (fun c => negb (Char.isspace c)) (format_02X b)
             && match PyInt.int (format_02X b) 16 with
                | Some v => v =? b
                | None => false
                end
             && match parse_number ("0x" +:+ format_02X b) with
                | Ok v => v =? b
                | Err _ => false
                end)
          (seq 0 256) = true.
Proof. vm_compute. reflexivity. Qed.

Lemma byte_printed (b : Z) :
  is_byte b ->
  String.length (format_02X b) = 2%nat
  /\ Str.all (fun c => negb (Char.isspace c)) (format_02X b) = true
  /\ PyInt.int (format_02X b) 16 = Some b
  /\ parse_number ("0x" +:+ format_02X b) = Ok b.
Proof.
  intros Hb. unfold is_byte in Hb.
  pose proof bytes_print_and_parse as H. rewrite forallb_forall in H.
  specialize (H (Z.to_nat b)). rewrite Z2Nat.id in H by lia. cbv zeta in H.
  assert (Hin : In (Z.to_nat b) (seq 0 256)) by (apply in_seq; lia).
  apply H in Hin. clear H.
  apply andb_true_iff in Hin as [Hin H4].
  apply andb_true_iff in Hin as [Hin H3].
  apply andb_true_iff in Hin as [H1 H2].
  apply Nat.eqb_eq in H1. split; [exact H1|]. split; [exact H2|]. split.
  - destruct (PyInt.int (format_02X b) 16) as [v|]; [|discriminate].
    apply Z.eqb_eq in H3. congruence.
  - destruct (parse_number _) as [v|]; [|discriminate].
    apply Z.eqb_eq in H4. congruence.
Qed.

(** X12: a byte is printed as exactly two characters, and reading them back
    in base 16 gives the byte again, through [int(_, 16)] as well as, with
    [0x] in front, through [parse_number]. *)
Theorem byte_print_parse_round_trip :
  forall b : Z,
    is_byte b ->
    String.length (format_02X b) = 2%nat
    /\ PyInt.int (format_02X b) 16 = Some b
    /\ parse_number ("0x" +:+ format_02X b) = Ok b.
Proof.
  intros b Hb. destruct (byte_printed b Hb) as (H1 & _ & H3 & H4).
  split; [exact H1|]. split; assumption.
Qed.

Lemma byte_print_parse_round_trip_witness :
  format_02X 10 = "0A" /\ parse_number ("0x" +:+ format_02X 10) = Ok 10.
Proof.
  split; [reflexivity|].
  apply (byte_print_parse_round_trip 10). unfold is_byte. lia.
Defined.

Lemma length_append (a b : string) :
  String.length (a +:+ b) = (String.length a + String.length b)%nat.
Proof.
  induction a as [|c r IH]; [reflexivity|]. rewrite append_cons. cbn.
  rewrite IH. reflexivity.
Qed.

Lemma is_empty_append (a b : string) :
  Str.is_empty a = false -> Str.is_empty (a +:+ b) = false.
Proof. destruct a; [discriminate|reflexivity]. Qed.

Lemma split_go_token (t : string) :
  Str.all (fun c => negb (Char.isspace c)) t = true ->
  forall cur rest : string,
    Str.split_go cur (t +:+ rest) = Str.split_go (cur +:+ t) rest.
Proof.
  induction t as [|c r IH]; intros H cur rest.
  - rewrite append_nil_r. reflexivity.
  - cbn in H. apply andb_true_iff in H as [Hc Hr]. apply negb_true_iff in Hc.
    rewrite append_cons. cbn [Str.split_go]. rewrite Hc, (IH Hr), snoc_append.
    reflexivity.
Qed.

(** Splitting the join of words at white space gives the words. *)
Lemma split_join (words : list string) :
  Forall (fun w => Str.is_empty w = false
                   /\ Str.all (fun c => negb (Char.isspace c)) w = true) words ->
  Str.split (join " " words) = words.
Proof.
  unfold Str.split. induction words as [|x rest IH]; intros H; [reflexivity|].
  apply Forall_cons in H as [[Hx1 Hx2] Hr]. destruct rest as [|y rest].
  - cbn [join]. rewrite <- (append_nil_r x) at 1.
    rewrite (split_go_token x Hx2). change (EmptyString +:+ x) with x.
    cbn [Str.split_go]. rewrite Hx1. reflexivity.
  - change (join " " (x :: y :: rest)) with (x +:+ " " +:+ join " " (y :: rest)).
    rewrite (split_go_token x Hx2).
    change (" " +:+ join " " (y :: rest)) with (String " " (join " " (y :: rest))).
    cbn [Str.split_go]. change (Char.isspace " ") with true. cbn iota.
    change (EmptyString +:+ x) with x. rewrite Hx1, (IH Hr). reflexivity.
Qed.

Lemma length_join_pairs (words : list string) :
  Forall (fun w => String.length w = 2%nat) words ->
  (String.length (join " " words) + 1 = 3 * length words
   \/ words = [])%nat.
Proof.
  induction words as [|x rest IH]; intros H; [right; reflexivity|]. left.
  apply Forall_cons in H as [Hx Hr]. destruct rest as [|y rest].
  - cbn. rewrite Hx. reflexivity.
  - change (join " " (x :: y :: rest)) with (x +:+ " " +:+ join " " (y :: rest)).
    rewrite !length_append, Hx. destruct (IH Hr) as [E|E]; [|discriminate].
    cbn [length] in *. change (String.length " ") with 1%nat. lia.
Qed.

Lemma render_read_back :
  forall mem : list Z,
    Forall is_byte mem ->
    Str.split (render mem) = format_02X <$> mem
    /\ mapM (fun field => PyInt.int field 16) (Str.split (render mem)) = Some mem
    /\ (length mem = 16%nat -> String.length (render mem) = 47%nat).
Proof.
  intros mem Hm.
  assert (Hs : Str.split (render mem) = format_02X <$> mem).
  { unfold render. apply split_join. apply Forall_fmap.
    eapply Forall_impl; [exact Hm|]. intros b Hb. cbn.
    destruct (byte_printed b Hb) as (H1 & H2 & _).
    split; [|exact H2]. destruct (format_02X b); [discriminate|reflexivity]. }
  split; [exact Hs|]. split.
  - rewrite Hs. clear Hs. induction mem as [|b rest IH]; [reflexivity|].
    apply Forall_cons in Hm as [Hb Hr]. cbn.
    destruct (byte_printed b Hb) as (_ & _ & H3 & _). rewrite H3. cbn.
    rewrite (IH Hr). reflexivity.
  - intros Hl. unfold render.
    destruct (length_join_pairs (format_02X <$> mem)) as [E|E].
    + apply Forall_fmap. eapply Forall_impl; [exact Hm|]. intros b Hb.
      apply (byte_printed b Hb).
    + rewrite length_fmap, Hl in E. lia.
    + destruct mem; discriminate.
Qed.

(** X13: the line printed for an image of bytes can be read back: split at
    white space it gives one two-character field per byte, in order, and
    reading the fields in base 16 gives the image.  For 16 bytes the line
    has 47 characters. *)
Theorem render_round_trip :
  forall mem : list Z,
    Forall is_byte mem ->
    Str.split (render mem) = format_02X <$> mem
    /\ mapM (fun field => PyInt.int field 16) (Str.split (render mem)) = Some mem
    /\ (length mem = 16%nat -> String.length (render mem) = 47%nat).
Proof. exact render_read_back. Qed.

Lemma render_round_trip_witness :
  render [144; 0; 255] = "90 00 FF"
  /\ Str.split (render [144; 0; 255]) = ["90"; "00"; "FF"]
  /\ mapM (fun field => PyInt.int field 16) (Str.split (render [144; 0; 255]))
     = Some [144; 0; 255].
Proof.
  split; [reflexivity|].
  destruct (render_round_trip [144; 0; 255]) as (H1 & H2 & _).
  { repeat constructor; unfold is_byte; lia. }
  split; [exact H1|exact H2].
Defined.

(** ** The main program *)

(** X14: what [main] prints.  When [assemble] returns an image, the last
    line printed is the rendered image, 47 characters that read back as the
    16 bytes; when [assemble] fails, no image line is printed and the run
    ends with that exception.  The prompt is printed first exactly when no
    file is given. *)
Theorem main_prints_image_or_fails :
  forall (file : option string) (inputs : list string),
    let src := match file with
               | Some text => text
               | None => join LF (read_lines inputs)
               end in
    let before := match file with Some _ => [] | None => [prompt] end in
    match assemble src with
    | Ok image =>
        main file inputs = (before ++ [render image], None)
        /\ String.length (render image) = 47%nat
        /\ mapM (fun field => PyInt.int field 16) (Str.split (render image))
           = Some image
    | Err e => main file inputs = (before, Some e)
    end.
Proof.
  intros file inputs src before. unfold main.
  assert (E : (let '(printed, src0) :=
                 match file with
                 | Some text => ([], text)
                 | None => ([prompt], join LF (read_lines inputs))
                 end in
               match assemble src0 with
               | Ok mem => (printed ++ [render mem], None)
               | Err e => (printed, Some e)
               end)
              = match assemble src with
                | Ok mem => (before ++ [render mem], None)
                | Err e => (before, Some e)
                end)
    by (destruct file; reflexivity).
  rewrite E. destruct (assemble src) as [image|e] eqn:Ea; [|reflexivity].
  destruct (assemble_returns_image _ _ Ea) as [Hl Hb].
  destruct (render_read_back image Hb) as (_ & H2 & H3).
  split; [reflexivity|]. split; [exact (H3 Hl)|exact H2].
Qed.

Lemma read_lines_until_END (pre : list string) (e : string) (post : list string) :
  Forall (fun line => Str.strip line <> "END") pre ->
  Str.strip e = "END" ->
  read_lines (pre ++ e :: post) = pre.
Proof.
  intros Hp He. induction pre as [|x rest IH]; cbn.
  - rewrite He. reflexivity.
  - apply Forall_cons in Hp as [Hx Hr].
    destruct (String.eqb_spec (Str.strip x) "END"); [contradiction|].
    rewrite (IH Hr). reflexivity.
Qed.

Lemma read_lines_all (inputs : list string) :
  Forall (fun line => Str.strip line <> "END") inputs ->
  read_lines inputs = inputs.
Proof.
  induction inputs as [|x rest IH]; intros H; [reflexivity|].
  apply Forall_cons in H as [Hx Hr]. cbn.
  destruct (String.eqb_spec (Str.strip x) "END"); [contradiction|].
  rewrite (IH Hr). reflexivity.
Qed.

(** X15: interactive input ends at the first line that is [END] once
    stripped: that line and everything after it are ignored, and the
    statements assembled are those of the lines before it, line by line.
    Without such a line all the input is assembled. *)
Theorem interactive_input_ends_at_END :
  forall (pre : list string) (e : string) (post : list string),
    Forall (fun line => Str.strip line <> "END") pre ->
    Str.strip e = "END" ->
    read_lines (pre ++ e :: post) = pre
    /\ read_lines pre = pre
    /\ tokenize (join LF (read_lines (pre ++ e :: post)))
       = concat (tokenize <$> pre)
    /\ main None (pre ++ e :: post) = main None pre.
Proof.
  intros pre e post Hp He.
  pose proof (read_lines_until_END pre e post Hp He) as H1.
  pose proof (read_lines_all pre Hp) as H2.
  split; [exact H1|]. split; [exact H2|]. split.
  - rewrite H1. apply tokenize_join.
  - unfold main. rewrite H1, H2. reflexivity.
Qed.

Lemma interactive_input_ends_at_END_witness :
  read_lines (["LDA 5"; "HLT"] ++ " end"%string :: ["  END "; "ADD"])
    = ["LDA 5"; "HLT"; " end"]
  /\ main None ["LDA 5"; "HLT"; "END"; "FOO"] = main None ["LDA 5"; "HLT"].
Proof.
  split; [reflexivity|].
  apply (interactive_input_ends_at_END ["LDA 5"; "HLT"] "END" ["FOO"]);
    [|reflexivity].
  repeat constructor; vm_compute; discriminate.
Defined.

(** ** More on numeric literals *)

Lemma unsigned_decimal (ds : string) :
  Str.is_empty ds = false ->
  Str.all (fun c => Char.digit_value c <? 10) ds = true ->
  PyInt.unsigned 10 ds =
    if (String.length ds <=? 4300)%nat
    then Some (digits_value 10 0 ds) else None.
Proof.
  intros Hn Hd. destruct ds as [|c r]; [discriminate|].
  assert (Hc : (Char.digit_value c <? 10) = true).
  { cbn in Hd. apply andb_true_iff in Hd as [Hc _]. exact Hc. }
  assert (Hp : PyInt.skip_prefix 10 (String c r) = String c r).
  { unfold PyInt.skip_prefix. destruct r as [|c1 r1]; [reflexivity|].
    change (PyInt.prefix_letter 10 c1) with false. rewrite andb_false_r.
    reflexivity. }
  unfold PyInt.unsigned, PyInt.unsigned_limited. rewrite Hp.
  rewrite (digit_is_not c "_" 10) by (try exact Hc; try reflexivity; lia).
  rewrite too_long_decimal, (digits_all 10 (String c r)) by (try exact Hd; lia).
  destruct (Nat.leb_spec (String.length (String c r)) 4300) as [Hle|Hgt].
  - destruct (Z.ltb_spec 4300 (Z.of_nat (String.length (String c r)))); [lia|].
    apply scan_digits; [lia|exact Hd].
  - destruct (Z.ltb_spec 4300 (Z.of_nat (String.length (String c r)))); [|lia].
    reflexivity.
Qed.

(** X16: [parse_number] ignores white space around the token; a decimal
    token may carry a sign, [-] negating the value, as long as it has no
    more than 4300 digits, beyond which it is rejected; a token with a sign
    in front of a base prefix ([-0x..], [+0b..]) is rejected. *)
Theorem parse_number_signs :
  forall tok : string,
    parse_number (Str.strip tok) = parse_number tok
    /\ (forall ds : string,
          Str.is_empty ds = false ->
          Str.all (fun c => Char.digit_value c <? 10) ds = true ->
          ((String.length ds <= 4300)%nat ->
           (Str.strip tok = "-" +:+ ds ->
            parse_number tok = Ok (- digits_value 10 0 ds))
           /\ (Str.strip tok = "+" +:+ ds ->
               parse_number tok = Ok (digits_value 10 0 ds)))
          /\ ((4300 < String.length ds)%nat ->
              Str.strip tok = "-" +:+ ds \/ Str.strip tok = "+" +:+ ds ->
              parse_number tok = Err (InvalidNumericLiteral (Str.strip tok))))
    /\ (forall (sign letter : ascii) (rest : string),
          sign = "+"%char \/ sign = "-"%char ->
          PyInt.prefix_letter 2 letter || PyInt.prefix_letter 16 letter = true ->
          Str.strip tok = String sign (String "0" (String letter rest)) ->
          parse_number tok = Err (InvalidNumericLiteral (Str.strip tok))).
Proof.
  intros tok. split; [unfold parse_number; rewrite strip_idem; reflexivity|].
  assert (P : forall (sign : ascii) (rest : string),
             sign = "+"%char \/ sign = "-"%char ->
             Str.strip tok = String sign rest ->
             parse_number tok =
               match (if Ascii.eqb sign "+" then PyInt.unsigned 10 rest
                      else Z.opp <$> PyInt.unsigned 10 rest) with
               | Some v => Ok v
               | None => Err (InvalidNumericLiteral (Str.strip tok))
               end).
  { intros sign rest Hs Ht.
    assert (P : parse_number tok = int_of (Str.strip tok) 10).
    { unfold parse_number. rewrite Ht.
      destruct Hs as [-> | ->]; reflexivity. }
    rewrite P. unfold int_of. rewrite int_stripped, Ht.
    destruct Hs as [-> | ->]; reflexivity. }
  split.
  - intros ds Hn Hd. pose proof (unsigned_decimal ds Hn Hd) as U. split.
    + intros Hlen.
      destruct (Nat.leb_spec (String.length ds) 4300); [|lia].
      split; intros Ht.
      * rewrite (P "-"%char ds); [|right; reflexivity|exact Ht].
        rewrite U. reflexivity.
      * rewrite (P "+"%char ds); [|left; reflexivity|exact Ht].
        rewrite U. reflexivity.
    + intros Hlen Ht.
      destruct (Nat.leb_spec (String.length ds) 4300); [lia|].
      destruct Ht as [Ht|Ht].
      * rewrite (P "-"%char ds); [|right; reflexivity|exact Ht].
        rewrite U. reflexivity.
      * rewrite (P "+"%char ds); [|left; reflexivity|exact Ht].
        rewrite U. reflexivity.
  - intros sign letter rest Hs Hl Ht. rewrite (P sign _ Hs Ht).
    assert (U : PyInt.unsigned 10 (String "0" (String letter rest)) = None).
    { unfold PyInt.unsigned, PyInt.unsigned_limited, PyInt.skip_prefix.
      change (PyInt.prefix_letter 10 letter) with false.
      change (Ascii.eqb "0" "0" && false) with false. cbv iota.
      change (Ascii.eqb "0" "_") with false. cbv iota.
      destruct (PyInt.too_long _ _ _); [reflexivity|].
      unfold PyInt.prefix_letter in Hl. cbn in Hl.
      assert (Hv : Ascii.eqb letter "_" = false
                   /\ (Char.digit_value letter <? 10) = false).
      { repeat (apply orb_true_iff in Hl as [Hl|Hl]);
          apply Ascii.eqb_eq in Hl; subst letter; split; reflexivity. }
      destruct Hv as [Hv1 Hv2]. cbn. rewrite Hv1, Hv2. reflexivity. }
    rewrite U. destruct (Ascii.eqb sign "+"); reflexivity.
Qed.

Lemma parse_number_signs_witness :
  parse_number " -12 " = Ok (-12)
  /\ parse_number "-0x1F" = Err (InvalidNumericLiteral "-0x1F").
Proof.
  destruct (parse_number_signs " -12 ") as (_ & H & _).
  destruct (H "12" eq_refl eq_refl) as [H1 _].
  destruct H1 as [H1 _]; [vm_compute; lia|].
  destruct (parse_number_signs "-0x1F") as (_ & _ & H2).
  split.
  - rewrite H1; reflexivity.
  - rewrite (H2 "-"%char "x"%char "1F"); [reflexivity|right|..]; reflexivity.
Defined.

(** ** Values out of range, labels as operands, normal form *)

(** X17: no value is out of range for the assembler, it is reduced instead:
    [DATA] stores its argument modulo 256, [ORG] and a numeric operand are
    taken modulo 16 (so [DATA -1] stores 255 and [ORG 16] is [ORG 0]). *)
Theorem values_wrap_around :
  forall (L : gmap string Z) (mem : list Z) (pc at_pc v : Z) (a : string)
         (rest : list string),
    parse_number a = Ok v ->
    0 <= pc < Z.of_nat (length mem) ->
    assemble_step L (mem, pc) ("DATA", a :: rest, at_pc)
      = Ok (<[Z.to_nat pc := v mod 256]> mem, (pc + 1) mod 16)
    /\ assemble_step L (mem, pc) ("ORG", a :: rest, at_pc) = Ok (mem, v mod 16)
    /\ (L !! a = None -> operand_of L a = Ok (v mod 16)).
Proof.
  intros L mem pc at_pc v a rest Hv Hpc.
  assert (M16 : forall x, Z.land x 15 = x mod 16)
    by (intros x; change 15 with (Z.ones 4); apply Z.land_ones; lia).
  assert (M256 : Z.land v 255 = v mod 256)
    by (change 255 with (Z.ones 8); apply Z.land_ones; lia).
  split; [|split].
  - unfold assemble_step. cbn [String.eqb]. change ("DATA" =? "NOPLINE")%string with false.
    change ("DATA" =? "ORG")%string with false.
    change ("DATA" =? "DATA")%string with true. cbn iota.
    rewrite Hv. cbn. rewrite store_in_bounds by exact Hpc. cbn.
    rewrite M16, M256. reflexivity.
  - unfold assemble_step. change ("ORG" =? "NOPLINE")%string with false.
    change ("ORG" =? "ORG")%string with true. cbn iota.
    rewrite Hv. cbn. rewrite M16. reflexivity.
  - intros Hn. unfold operand_of. rewrite Hn, Hv. cbn. rewrite M16.
    reflexivity.
Qed.

Lemma values_wrap_around_witness :
  assemble_step ∅ (replicate 16 0, 15) ("DATA", ["-1"], 15)
    = Ok (<[15%nat := 255]> (replicate 16 0), 0)
  /\ operand_of ∅ "21" = Ok 5.
Proof.
  assert (Hpc : 0 <= 15 < Z.of_nat (length (replicate 16 0)))
    by (rewrite length_replicate; lia).
  destruct (values_wrap_around ∅ (replicate 16 0) 15 15 (-1) "-1" []
              eq_refl Hpc) as (H1 & _ & _).
  destruct (values_wrap_around ∅ (replicate 16 0) 15 15 21 "21" []
              eq_refl Hpc) as (_ & _ & H3).
  split; [exact H1|]. apply H3. apply lookup_empty.
Defined.

(** X18: every address in the label table pass 1 returns is in 0..15, and
    an operand that names a label resolves to exactly that address. *)
Theorem label_operand_is_its_address :
  forall (lines : list string) (labels : gmap string Z) (ops : list operation)
         (name : string) (addr : Z),
    first_pass lines = Ok (labels, ops) ->
    labels !! name = Some addr ->
    is_address addr /\ operand_of labels name = Ok addr.
Proof.
  intros lines labels ops name addr H Hn.
  pose proof (first_pass_addresses _ _ _ H) as Haddr.
  rewrite first_pass_eq in H.
  destruct (first_pass_loop lines _) as [st|] eqn:E; [|discriminate].
  injection H as <- <-.
  destruct (first_pass_loop_trace _ _ _ E) as (new & Hout & _ & _ & Hlab).
  cbn in Hout. rewrite Hout in Haddr.
  apply Hlab in Hn as Hn'. cbn in Hn'. rewrite lookup_empty in Hn'.
  destruct Hn' as [C|(i & line & o & _ & _ & Ho & <-)]; [discriminate|].
  assert (Ha : is_address o.2).
  { rewrite Forall_forall in Haddr. apply Haddr.
    eapply list_elem_of_lookup_2, Ho. }
  split; [exact Ha|]. unfold operand_of. rewrite Hn, (land_15_small _ Ha).
  reflexivity.
Qed.

Lemma label_operand_is_its_address_witness :
  exists (labels : gmap string Z) (ops : list operation),
    first_pass ["ORG 9"; "here: HLT"] = Ok (labels, ops)
    /\ operand_of labels "here" = Ok 9.
Proof.
  destruct (first_pass ["ORG 9"; "here: HLT"]) as [[labels ops]|] eqn:E;
    [|vm_compute in E; discriminate].
  exists labels, ops. split; [reflexivity|].
  apply (label_operand_is_its_address _ _ _ "here" 9 E).
  vm_compute in E. injection E as <- _. vm_compute. reflexivity.
Defined.

Lemma before_id (sep : ascii) (s : string) :
  Str.contains sep s = false -> Str.before sep s = s.
Proof.
  induction s as [|c r IH]; cbn; [reflexivity|]. intros H.
  apply orb_false_iff in H as [Hc Hr]. rewrite Hc, (IH Hr). reflexivity.
Qed.

(** X19: the lines of [tokenize] are in normal form: joined by line feeds
    and tokenized again they come back unchanged, and they assemble to the
    same result as the source. *)
Theorem tokenize_normal_form :
  forall src : string,
    tokenize (join LF (tokenize src)) = tokenize src
    /\ assemble (join LF (tokenize src)) = assemble src.
Proof.
  intros src.
  assert (One : forall line, line ∈ tokenize src -> tokenize line = [line]).
  { intros line Hl.
    pose proof Hl as Hl'. rewrite tokenize_clean in Hl'. unfold clean in Hl'.
    apply list_elem_of_filter in Hl' as [Hne Hl'].
    apply list_elem_of_fmap in Hl' as (raw & -> & Hraw).
    set (line := normalized raw) in *.
    assert (Hs : Str.strip line = line) by apply strip_idem.
    assert (Hsemi : Str.contains ";" line = false).
    { rewrite contains_all. unfold line, normalized, Str.strip.
      rewrite all_rstrip; [reflexivity|].
      apply all_lstrip, all_before, before_free. }
    assert (Hhash : Str.contains "#" line = false).
    { rewrite contains_all. unfold line, normalized, Str.strip.
      rewrite all_rstrip; [reflexivity|]. apply all_lstrip, before_free. }
    assert (Hnb : no_linebreak line = true).
    { apply all_normalized.
      pose proof (splitlines_go_no_linebreak (String.length src) src EmptyString
                    (le_n _) eq_refl) as HF.
      rewrite Forall_forall in HF. apply HF, Hraw. }
    rewrite tokenize_clean. unfold Str.splitlines.
    rewrite (splitlines_go_single line Hnb).
    change (EmptyString +:+ line) with line. rewrite Hne, clean_cons.
    assert (Hn : normalized line = line).
    { unfold normalized at 1. rewrite (before_id ";" line Hsemi),
        (before_id "#" line Hhash). exact Hs. }
    rewrite Hn, Hne. reflexivity. }
  assert (E : tokenize (join LF (tokenize src)) = tokenize src).
  { rewrite tokenize_join. revert One.
    generalize (tokenize src). intros l.
    induction l as [|x rest IH]; intros One; [reflexivity|].
    cbn. rewrite (One x) by left. cbn. f_equal. apply IH.
    intros line Hl. apply One. right. exact Hl. }
  split; [exact E|]. unfold assemble, assemble_run. rewrite E. reflexivity.
Qed.
